(** * server.py: a shallow embedding and its verified properties

    The chat server keeps a conversation inside a token budget, talks to a
    streaming completion endpoint and persists transcripts.  This file embeds
    the non-UI functions of [src/server.py] and proves properties of them.

    Python values are modelled as follows.
    - [str] is a sequence of Unicode code points ([list N]); [len], slicing
      and [strip] therefore count characters, as Python does.
    - [int] is [Z].
    - A turn [(user_msg, bot_msg)] is a pair; a conversation is a list of
      turns; an API message [{"role": .., "content": ..}] is a record.
    - JSON documents and the values [json.loads] returns are the inductive
      type [json].
    - Exceptions are values of type [exn]; a computation that may raise
      returns an [outcome].
    - The file system, the clock, the remote endpoint and standard output
      form the [world] that effectful functions thread through. *)

From Stdlib Require Import ZArith List Lia Bool Ascii.
From Stdlib Require Strings.String DecimalString DecimalZ.
From stdpp Require Import base option list gmap.
Import Stdlib.Strings.String.StringSyntax.
Delimit Scope string_scope with string.

Local Open Scope Z_scope.

(** ** Text *)

Abbreviation str := (list N).
Abbreviation bytes := (list N).

Definition bytes_of_string (s : String.string) : bytes :=
  map N_of_ascii (String.list_ascii_of_string s).

Definition continuation (b : N) : bool := ((128 <=? b) && (b <? 192))%N.

(** Strict UTF-8 (RFC 3629): overlong forms, surrogates and code points above
    U+10FFFF are rejected. *)
Fixpoint utf8_decode (bs : bytes) : option str :=
  match bs with
  | [] => Some []
  | b0 :: r0 =>
    if (b0 <? 128)%N then cons b0 <$> utf8_decode r0
    else if ((194 <=? b0) && (b0 <? 224))%N then
      match r0 with
      | b1 :: r1 =>
        if continuation b1
        then cons ((b0 - 192) * 64 + (b1 - 128))%N <$> utf8_decode r1
        else None
      | _ => None
      end
    else if ((224 <=? b0) && (b0 <? 240))%N then
      match r0 with
      | b1 :: b2 :: r2 =>
        let c := ((b0 - 224) * 4096 + (b1 - 128) * 64 + (b2 - 128))%N in
        if continuation b1 && continuation b2 && (2048 <=? c)%N
           && negb ((55296 <=? c) && (c <? 57344))%N
        then cons c <$> utf8_decode r2
        else None
      | _ => None
      end
    else if ((240 <=? b0) && (b0 <? 245))%N then
      match r0 with
      | b1 :: b2 :: b3 :: r3 =>
        let c := ((b0 - 240) * 262144 + (b1 - 128) * 4096
                  + (b2 - 128) * 64 + (b3 - 128))%N in
        if continuation b1 && continuation b2 && continuation b3
           && (65536 <=? c)%N && (c <? 1114112)%N
        then cons c <$> utf8_decode r3
        else None
      | _ => None
      end
    else None
  end.

(** A string literal of this file, read as the text it spells. *)
Definition u (s : String.string) : str :=
  default [] (utf8_decode (bytes_of_string s)).
Arguments u s%_string : simpl never.

(** [str(n)] for an [int]. *)
Definition str_of_Z (z : Z) : str :=
  bytes_of_string (DecimalString.NilZero.string_of_int (Z.to_int z)).

(** [sep.join(items)]. *)
Fixpoint join (sep : str) (items : list str) : str :=
  match items with
  | [] => []
  | [x] => x
  | x :: rest => x ++ sep ++ join sep rest
  end.

(** [c.isspace()]: the characters [str.strip()] removes. *)
Definition isspace (c : N) : bool :=
  (((9 <=? c) && (c <=? 13)) || ((28 <=? c) && (c <=? 32))
   || (c =? 133) || (c =? 160) || (c =? 5760)
   || ((8192 <=? c) && (c <=? 8202))
   || (c =? 8232) || (c =? 8233) || (c =? 8239) || (c =? 8287)
   || (c =? 12288))%N.

Fixpoint lstrip (s : str) : str :=
  match s with
  | c :: rest => if isspace c then lstrip rest else s
  | [] => []
  end.

Definition rstrip (s : str) : str := rev (lstrip (rev s)).

(** [s.strip()]. *)
Definition strip (s : str) : str := rstrip (lstrip s).

Definition str_eqb (a b : str) : bool := bool_decide (a = b).

(** [s.startswith(p)]. *)
Fixpoint startswith (s p : str) : bool :=
  match p, s with
  | [], _ => true
  | c :: p', d :: s' => (c =? d)%N && startswith s' p'
  | _ :: _, [] => false
  end.

(** [needle in s] for two strings. *)
Fixpoint substring_in (needle s : str) : bool :=
  startswith s needle ||
  match s with
  | [] => false
  | _ :: rest => substring_in needle rest
  end.

(** An index of a slice, clamped as Python does: a negative index counts
    from the end. *)
Definition slice_index {A} (l : list A) (i : Z) : nat :=
  let n := Z.of_nat (length l) in
  Z.to_nat (if i <? 0 then Z.max (i + n) 0 else Z.min i n).

(** [l[lo:hi]]; [l[lo:]] when [hi] is [None]. *)
Definition py_slice {A} (l : list A) (lo : Z) (hi : option Z) : list A :=
  let a := slice_index l lo in
  let b := match hi with Some h => slice_index l h | None => length l end in
  take (b - a) (drop a l).

(** [range(n)]. *)
Definition range (n : Z) : list Z := map Z.of_nat (seq 0 (Z.to_nat n)).

(** ** JSON values and exceptions *)

(** A Python [float], as far as this program observes one: its truth value
    and its printed form. *)
Record pyfloat := { float_nonzero : bool; float_repr : str }.

(** The values [json.loads] produces; a [dict] keeps its insertion order. *)
#[warnings="-register-all"]
Inductive json :=
| JNull
| JBool (b : bool)
| JInt (z : Z)
| JFloat (f : pyfloat)
| JStr (s : str)
| JList (items : list json)
| JDict (fields : list (str * json)).

(** The exception classes that occur, with the part of Python's hierarchy
    the handlers of the program can tell apart. *)
Inductive exn_class :=
| OSError | FileNotFoundError | RequestException
| ValueError | JSONDecodeError | UnicodeDecodeError
| KeyError | IndexError | TypeError | AttributeError | RecursionError.

(** An instance of [Exception]: its class and what [str(e)] gives. *)
Record exn := Exn { exn_type : exn_class; exn_str : str }.

Definition exn_class_eqb (a b : exn_class) : bool :=
  match a, b with
  | OSError, OSError | FileNotFoundError, FileNotFoundError
  | RequestException, RequestException | ValueError, ValueError
  | JSONDecodeError, JSONDecodeError | UnicodeDecodeError, UnicodeDecodeError
  | KeyError, KeyError | IndexError, IndexError | TypeError, TypeError
  | AttributeError, AttributeError | RecursionError, RecursionError => true
  | _, _ => false
  end.

Definition parent (c : exn_class) : option exn_class :=
  match c with
  | FileNotFoundError | RequestException => Some OSError
  | JSONDecodeError | UnicodeDecodeError => Some ValueError
  | _ => None
  end.

(** [isinstance(e, c)]: what [except c] tests. *)
Definition isinstance (e : exn) (c : exn_class) : bool :=
  exn_class_eqb (exn_type e) c ||
  match parent (exn_type e) with
  | Some p => exn_class_eqb p c
  | None => false
  end.

Inductive outcome (A : Type) :=
| Return (a : A)
| Raise (e : exn).
Arguments Return {A} a.
Arguments Raise {A} e.

(** [type(v).__name__]. *)
Definition type_name (v : json) : str :=
  match v with
  | JNull => u "NoneType"
  | JBool _ => u "bool"
  | JInt _ => u "int"
  | JFloat _ => u "float"
  | JStr _ => u "str"
  | JList _ => u "list"
  | JDict _ => u "dict"
  end.

Definition quoted (s : str) : str := [39%N] ++ s ++ [39%N].

(** [bool(v)]. *)
Definition truthy (v : json) : bool :=
  match v with
  | JNull => false
  | JBool b => b
  | JInt z => negb (z =? 0)
  | JFloat f => float_nonzero f
  | JStr s => negb (bool_decide (s = []))
  | JList l => negb (bool_decide (length l = 0%nat))
  | JDict d => negb (bool_decide (length d = 0%nat))
  end.

(** [d.get(key)] on the fields of a [dict]: the last binding of a repeated
    key wins in [json.loads], so decoded dicts have distinct keys. *)
Fixpoint fields_get (key : str) (d : list (str * json)) : option json :=
  match d with
  | [] => None
  | (k, v) :: rest => if str_eqb k key then Some v else fields_get key rest
  end.

Definition is_str (key : str) (v : json) : bool :=
  match v with
  | JStr s => str_eqb s key
  | _ => false
  end.

(** [key in v] for a string [key]. *)
Definition contains (key : str) (v : json) : outcome bool :=
  match v with
  | JDict d => Return (bool_decide (is_Some (fields_get key d)))
  | JList l => Return (existsb (is_str key) l)
  | JStr s => Return (substring_in key s)
  | _ => Raise (Exn TypeError
             (u "argument of type " ++ quoted (type_name v) ++ u " is not iterable"))
  end.

(** [v[key]] for a string [key]. *)
Definition getitem (v : json) (key : str) : outcome json :=
  match v with
  | JDict d =>
    match fields_get key d with
    | Some x => Return x
    | None => Raise (Exn KeyError (quoted key))
    end
  | JList _ =>
    Raise (Exn TypeError (u "list indices must be integers or slices, not str"))
  | JStr _ =>
    Raise (Exn TypeError (u "string indices must be integers, not 'str'"))
  | _ => Raise (Exn TypeError
             (quoted (type_name v) ++ u " object is not subscriptable"))
  end.

(** [v[0]]. *)
Definition getitem0 (v : json) : outcome json :=
  match v with
  | JList (x :: _) => Return x
  | JList [] => Raise (Exn IndexError (u "list index out of range"))
  | JStr (c :: _) => Return (JStr [c])
  | JStr [] => Raise (Exn IndexError (u "string index out of range"))
  | JDict _ => Raise (Exn KeyError (u "0"))
  | _ => Raise (Exn TypeError
             (quoted (type_name v) ++ u " object is not subscriptable"))
  end.

(** [v.get(key, default)]. *)
Definition get (v : json) (key : str) (default : json) : outcome json :=
  match v with
  | JDict d => Return (from_option id default (fields_get key d))
  | _ => Raise (Exn AttributeError
             (quoted (type_name v) ++ u " object has no attribute 'get'"))
  end.

(** [s += v] for a string [s]. *)
Definition iadd (s : str) (v : json) : outcome str :=
  match v with
  | JStr t => Return (s ++ t)
  | _ => Raise (Exn TypeError
             (u "can only concatenate str (not " ++ [34%N] ++ type_name v
              ++ [34%N] ++ u ") to str"))
  end.

(** ** Data of the program *)

Abbreviation turn := (list N * list N)%type.

Record Profile := {
  name : str;
  age : Z;
  profession : str;
  interests : list str;
  memory : list json;
}.

Record message := Message { role : str; content : str }.

(** The body of the completion request. *)
Record request := {
  url : str;
  authorization : str;
  model : str;
  messages : list message;
  stream : bool;
  max_tokens : Z;
}.

(** What the endpoint sends back: a status, the lines [iter_lines] yields,
    and the exception that ends the iteration early, if any. *)
Record response := {
  status_code : Z;
  lines : list bytes;
  broken : option exn;
}.

(** ** Library functions

    The tokenizer, [json], the UTF-8 codec and [repr] are libraries the
    program calls; every result below holds for all of their behaviours. *)
Class Externals := {
  (** [encoding.encode(text)] for the [cl100k_base] encoding, for a text
      the tokenizer accepts; its refusals are in [Tokenizer] below *)
  tiktoken_encode : str -> list N;
  (** [json.loads(text)] *)
  json_loads : str -> outcome json;
  (** [json.dumps(v, ensure_ascii=False, indent=..)] *)
  json_dumps : option nat -> json -> str;
  (** [line.decode('utf-8')] *)
  bytes_decode : bytes -> outcome str;
  (** [str(messages)] *)
  repr_messages : list message -> str;
}.

(** ** The world and generators *)

Record world := World {
  (** files by path, as text *)
  files : gmap (list N) (list N);
  (** the exception [open(path, 'w')] raises, if the path cannot be written *)
  unwritable : list N -> option exn;
  (** the texts successive [datetime.now().strftime(..)] calls return *)
  clock : nat -> list N;
  ticks : nat;
  (** what [requests.post] does with a request *)
  remote : request -> outcome response;
  (** the requests posted so far *)
  posted : list request;
  (** lines printed so far *)
  stdout : list (list N);
}.

(** One run of a generator (or of a plain function, which yields nothing):
    the values yielded in order, how it ended, and the world it leaves. *)
Record run (Y A : Type) := Run {
  yielded : list Y;
  result : outcome A;
  final : world;
}.
Arguments Run {Y A} yielded result final.
Arguments yielded {Y A} r.
Arguments result {Y A} r.
Arguments final {Y A} r.

Definition gen (Y A : Type) : Type := world -> run Y A.

Definition ret {Y A} (a : A) : gen Y A := fun w => Run [] (Return a) w.

Definition bind {Y A B} (m : gen Y A) (k : A -> gen Y B) : gen Y B :=
  fun w =>
    let r := m w in
    match result r with
    | Return a =>
      let r' := k a (final r) in
      Run (yielded r ++ yielded r') (result r') (final r')
    | Raise e => Run (yielded r) (Raise e) (final r)
    end.

Notation "x <- m ;; k" := (bind m (fun x => k))
  (at level 100, m at next level, right associativity).
Notation "m ;; k" := (bind m (fun _ => k))
  (at level 100, right associativity).

Definition yield {Y} (y : Y) : gen Y unit := fun w => Run [y] (Return tt) w.

Definition raise {Y A} (e : exn) : gen Y A := fun w => Run [] (Raise e) w.

Definition lift {Y A} (o : outcome A) : gen Y A :=
  match o with
  | Return a => ret a
  | Raise e => raise e
  end.

(** [try: body / except ..: handler]: [handler e] is [None] when no except
    clause matches [e], which then propagates. *)
Definition try_except {Y A} (body : gen Y A) (handler : exn -> option (gen Y A))
  : gen Y A :=
  fun w =>
    let r := body w in
    match result r with
    | Return a => r
    | Raise e =>
      match handler e with
      | Some h =>
        let r' := h (final r) in
        Run (yielded r ++ yielded r') (result r') (final r')
      | None => r
      end
    end.

(** [for x in items: body], threading the loop's variables [s]. *)
Fixpoint for_each {Y X S} (items : list X) (s : S) (body : S -> X -> gen Y S)
  : gen Y S :=
  match items with
  | [] => ret s
  | x :: rest => s' <- body s x ;; for_each rest s' body
  end.

(** [for x in g: body] for a generator [g].  The generators of this program
    act on the world before their first yield only, so running [g] to its end
    and then the loop body on each value leaves the same world and the same
    yields as the interleaved run.  A body that raises abandons [g]; an
    exception of [g] surfaces after the values yielded before it. *)
Definition for_gen {Y X S} (g : gen X unit) (s : S) (body : S -> X -> gen Y S)
  : gen Y S :=
  fun w =>
    let r := g w in
    bind (for_each (yielded r) s body)
         (fun s' => match result r with
                    | Return _ => ret s'
                    | Raise e => raise e
                    end)
         (final r).

(** [print(text)]. *)
Definition print {Y} (text : str) : gen Y unit :=
  fun w => Run [] (Return tt)
    (World (files w) (unwritable w) (clock w) (ticks w) (remote w) (posted w)
           (stdout w ++ [text])).

(** [datetime.now().strftime("%Y%m%d_%H%M%S")]. *)
Definition now {Y} : gen Y str :=
  fun w => Run [] (Return (clock w (ticks w)))
    (World (files w) (unwritable w) (clock w) (S (ticks w)) (remote w)
           (posted w) (stdout w)).

(** [with open(path, 'r', encoding='utf-8') as f: f.read()]. *)
Definition read_file {Y} (path : str) : gen Y str :=
  fun w =>
    match files w !! path with
    | Some text => Run [] (Return text) w
    | None => Run [] (Raise (Exn FileNotFoundError
                (u "[Errno 2] No such file or directory: " ++ quoted path))) w
    end.

(** [with open(path, 'w', encoding='utf-8') as f: f.write(text)], for a
    text UTF-8 can encode: [unwritable] gives the exception of [open]. *)
Definition write_file {Y} (path text : str) : gen Y unit :=
  fun w =>
    match unwritable w path with
    | Some e => Run [] (Raise e) w
    | None => Run [] (Return tt)
        (World (<[path := text]> (files w)) (unwritable w) (clock w) (ticks w)
               (remote w) (posted w) (stdout w))
    end.

(** [requests.post(url, headers=.., json=data, stream=True)]. *)
Definition requests_post {Y} (data : request) : gen Y response :=
  fun w =>
    let w' := World (files w) (unwritable w) (clock w) (ticks w) (remote w)
                    (posted w ++ [data]) (stdout w) in
    Run [] (remote w data) w'.

(** ** The program *)

Definition MAX_TOKENS : Z := 4000.
Definition MAX_HISTORY_ITEMS : Z := 20.
Definition MAX_CONVERSATION_LENGTH : Z := 10000.
Arguments MAX_TOKENS : simpl never.
Arguments MAX_HISTORY_ITEMS : simpl never.
Arguments MAX_CONVERSATION_LENGTH : simpl never.

Definition default_profile : json :=
  JDict [(u "my_profile",
          JDict [(u "name", JStr (u "用户"));
                 (u "age", JInt 20);
                 (u "profession", JStr (u "未设置"));
                 (u "interests", JList [JStr (u "未设置")]);
                 (u "memory", JList [])])].

(** The [dict] a [Profile] stands for. *)
Definition profile_json (p : Profile) : json :=
  JDict [(u "name", JStr (name p));
         (u "age", JInt (age p));
         (u "profession", JStr (profession p));
         (u "interests", JList (map JStr (interests p)));
         (u "memory", JList (memory p))].

(** A conversation as [json.dumps] sees it: tuples are written as arrays. *)
Definition conversation_json (conversation : list turn) : json :=
  JList (map (fun item => JList [JStr (fst item); JStr (snd item)]) conversation).

Definition user_message (text : str) : message := Message (u "user") text.
Definition assistant_message (text : str) : message := Message (u "assistant") text.

Definition system_prompt (profile : Profile) : message :=
  Message (u "system")
    (u "你正在与" ++ name profile ++ u "对话:" ++ [10%N]
     ++ u "        年龄: " ++ str_of_Z (age profile) ++ [10%N]
     ++ u "        职业: " ++ profession profile ++ [10%N]
     ++ u "        兴趣: " ++ join (u ", ") (interests profile)).

Definition api_url : str := u "https://api.deepseek.com/v1/chat/completions".
Definition api_key : str := u "sk-********************************".

Section Program.
Context `{Externals}.

(** [load_profile()]; Python's [None] is [JNull]. *)
Definition load_profile {Y} : gen Y json :=
  try_except
    (text <- read_file (u "profile.json") ;;
     profile <- lift (json_loads text) ;;
     lift (getitem profile (u "my_profile")))
    (fun e =>
       if isinstance e FileNotFoundError then Some (
         print (u "错误: profile.json 文件未找到") ;;
         write_file (u "profile.json") (json_dumps (Some 2%nat) default_profile) ;;
         lift (getitem default_profile (u "my_profile")))
       else Some (
         print (u "加载配置文件错误: " ++ exn_str e) ;;
         ret JNull)).

Definition save_training_data {Y} (message : str) (profile : Profile) : gen Y unit :=
  try_except
    (timestamp <- now ;;
     let data := JDict [(u "timestamp", JStr timestamp);
                        (u "message", JStr message);
                        (u "profile", profile_json profile)] in
     let filename := u "data/training_data/training_" ++ timestamp ++ u ".json" in
     write_file filename (json_dumps (Some 2%nat) data))
    (fun e => Some (print (u "保存训练数据失败: " ++ exn_str e))).

Definition count_tokens (text : str) : Z :=
  Z.of_nat (length (tiktoken_encode text)).

(** The loop of [trim_conversation] over [reversed(conversation)]; it ends
    at the [break]. *)
Fixpoint trim_loop (max_tokens : Z) (items : list turn)
    (total_tokens : Z) (trimmed : list turn) : list turn :=
  match items with
  | [] => trimmed
  | item :: rest =>
    let '(user_msg, bot_msg) := item in
    let item_tokens := count_tokens user_msg + count_tokens bot_msg in
    if total_tokens + item_tokens >? max_tokens then trimmed
    else trim_loop max_tokens rest (total_tokens + item_tokens) (item :: trimmed)
  end.

Definition trim_conversation (conversation : list turn) (max_tokens : Z)
  : list turn :=
  trim_loop max_tokens (rev conversation) 0 [].

Definition part_filename (base_filename : str) (i : Z) : str :=
  base_filename ++ u "_part" ++ str_of_Z (i + 1) ++ u ".json".

Definition save_conversation {Y} (conversation : list turn) : gen Y unit :=
  timestamp <- now ;;
  let base_filename := u "data/conversations/conversation_" ++ timestamp in
  let conversation_str := json_dumps None (conversation_json conversation) in
  if Z.of_nat (length conversation_str) >? MAX_CONVERSATION_LENGTH then
    let parts := Z.of_nat (length conversation_str) / MAX_CONVERSATION_LENGTH + 1 in
    for_each (range parts) tt (fun _ i =>
      let part := py_slice conversation_str (i * MAX_CONVERSATION_LENGTH)
                    (Some ((i + 1) * MAX_CONVERSATION_LENGTH)) in
      write_file (part_filename base_filename i) part)
  else
    write_file (base_filename ++ u ".json") conversation_str.

(** The loop of [prepare_api_messages] over the last turns, with the
    variables [messages] and [tokens_used] it updates; it ends at the
    [break]. *)
Fixpoint history_loop (items : list turn) (messages : list message)
    (tokens_used : Z) : list message * Z :=
  match items with
  | [] => (messages, tokens_used)
  | (user_msg, bot_msg) :: rest =>
    let user_content := user_message user_msg in
    let bot_content := assistant_message bot_msg in
    let new_tokens := count_tokens user_msg + count_tokens bot_msg in
    if tokens_used + new_tokens >? MAX_TOKENS then (messages, tokens_used)
    else history_loop rest (messages ++ [user_content; bot_content])
                      (tokens_used + new_tokens)
  end.

Definition prepare_api_messages (conversation : list turn) (profile : Profile)
    (new_message : str) : list message :=
  let messages := [system_prompt profile] in
  let tokens_used := count_tokens (content (system_prompt profile)) in
  let '(messages, tokens_used) :=
    history_loop (py_slice conversation (- MAX_HISTORY_ITEMS) None)
                 messages tokens_used in
  if count_tokens new_message + tokens_used <? MAX_TOKENS
  then messages ++ [user_message new_message]
  else messages.

(** The body of [for line in response.iter_lines()]. *)
Definition stream_line (line : bytes) : gen json unit :=
  if bool_decide (line = []) then ret tt else
  decoded_line <- lift (bytes_decode line) ;;
  if startswith decoded_line (u "data:") then
    let json_data := strip (py_slice decoded_line 5 None) in
    if negb (str_eqb json_data (u "[DONE]")) then
      try_except
        (chunk <- lift (json_loads json_data) ;;
         has_choices <- lift (contains (u "choices") chunk) ;;
         choices <- (if has_choices then lift (getitem chunk (u "choices"))
                     else ret (JBool false)) ;;
         if truthy choices then
           choices <- lift (getitem chunk (u "choices")) ;;
           first <- lift (getitem0 choices) ;;
           delta <- lift (get first (u "delta") (JDict [])) ;;
           content <- lift (get delta (u "content") (JStr [])) ;;
           if truthy content then yield content else ret tt
         else ret tt)
        (fun e => if isinstance e JSONDecodeError then Some (ret tt) else None)
    else ret tt
  else ret tt.

(** [response.iter_lines()] as a generator: the lines, then the exception
    that breaks the connection, if any. *)
Definition iter_lines (r : response) : gen bytes unit :=
  for_each (lines r) tt (fun _ line => yield line) ;;
  match broken r with
  | Some e => raise e
  | None => ret tt
  end.

(** The request [call_deepseek_api_stream] builds before its [try]. *)
Definition api_request (prompt : str) (conversation : list turn)
    (profile : Profile) : request :=
  let messages := prepare_api_messages conversation profile prompt in
  {|
    url := api_url;
    authorization := u "Bearer " ++ api_key;
    model := u "deepseek-chat";
    messages := messages;
    stream := true;
    max_tokens := Z.min 2000 (MAX_TOKENS - count_tokens (repr_messages messages))
  |}.

Definition call_deepseek_api_stream (prompt : str) (conversation : list turn)
    (profile : Profile) : gen json unit :=
  let data := api_request prompt conversation profile in
  try_except
    (response <- requests_post data ;;
     if status_code response =? 200 then
       for_gen (iter_lines response) tt (fun _ line => stream_line line)
     else
       yield (JStr (u "[API 错误] 状态码: " ++ str_of_Z (status_code response))))
    (fun e => Some (yield (JStr (u "[连接错误] " ++ exn_str e)))).

(** The body of [for chunk in call_deepseek_api_stream(..)] in [respond],
    returning the new value of [bot_message]. *)
Definition respond_chunk (message : str) (trimmed_history : list turn)
    (bot_message : str) (chunk : json) : gen (list turn) str :=
  bot_message <- lift (iadd bot_message chunk) ;;
  yield (trimmed_history ++ [(message, bot_message)]) ;;
  ret bot_message.

(** The body of the [try] in [respond]. *)
Definition respond_try (message : str) (chat_history : list turn)
    (profile : Profile) : gen (list turn) unit :=
  save_training_data message profile ;;
  let trimmed_history := trim_conversation chat_history (MAX_TOKENS / 2) in
  bot_message <-
    for_gen (call_deepseek_api_stream message trimmed_history profile) []
      (respond_chunk message trimmed_history) ;;
  let full_conversation := trimmed_history ++ [(message, bot_message)] in
  save_conversation full_conversation ;;
  yield full_conversation.

Definition respond (message : str) (chat_history : list turn)
    (profile : Profile) : gen (list turn) unit :=
  if bool_decide (strip message = []) then
    yield chat_history
  else
    try_except (respond_try message chat_history profile)
      (fun e => Some (
         print (u "对话出错: " ++ exn_str e) ;;
         yield (chat_history ++ [(message, u "发生错误: " ++ exn_str e)]))).

(** The [__main__] block, up to the decision it takes: the profile the
    interface is created and launched for, or [None] when it prints that the
    profile could not be loaded.  Building the interface is outside the
    model. *)
Definition main {Y} : gen Y (option json) :=
  profile <- load_profile ;;
  if truthy profile then ret (Some profile)
  else
    print (u "无法加载用户配置，请检查profile.json文件") ;;
    ret None.

End Program.

(** ** The tokenizer's refusals

    [encoding.encode(text)] raises a [ValueError] on a text that holds one of
    the special tokens of the encoding, [<|endoftext|>] among them.  The
    functions of [Program] give what the code computes from texts the
    tokenizer accepts.  [Strict] follows the same code with the refusals: a
    refusal leaves [count_tokens], and with it [trim_conversation],
    [prepare_api_messages] and the lines of [call_deepseek_api_stream] that
    build the request before its [try]. *)

Class Tokenizer := {
  (** the exception [encoding.encode(text)] raises, when it raises *)
  tiktoken_refuses : str -> option exn;
}.

(** Sequencing of computations that can raise. *)
Definition and_then {A B} (o : outcome A) (k : A -> outcome B) : outcome B :=
  match o with
  | Return a => k a
  | Raise e => Raise e
  end.

Module Strict.
Section Refusing.
Context `{Externals} `{Tokenizer}.

Definition count_tokens (text : str) : outcome Z :=
  match tiktoken_refuses text with
  | Some e => Raise e
  | None => Return (Z.of_nat (length (tiktoken_encode text)))
  end.

(** The loop of [trim_conversation] over [reversed(conversation)]. *)
Fixpoint trim_loop (max_tokens : Z) (items : list turn)
    (total_tokens : Z) (trimmed : list turn) : outcome (list turn) :=
  match items with
  | [] => Return trimmed
  | item :: rest =>
    let '(user_msg, bot_msg) := item in
    and_then (count_tokens user_msg) (fun user_tokens =>
    and_then (count_tokens bot_msg) (fun bot_tokens =>
    let item_tokens := user_tokens + bot_tokens in
    if total_tokens + item_tokens >? max_tokens then Return trimmed
    else trim_loop max_tokens rest (total_tokens + item_tokens) (item :: trimmed)))
  end.

Definition trim_conversation (conversation : list turn) (max_tokens : Z)
  : outcome (list turn) :=
  trim_loop max_tokens (rev conversation) 0 [].

(** The loop of [prepare_api_messages] over the last turns. *)
Fixpoint history_loop (items : list turn) (messages : list message)
    (tokens_used : Z) : outcome (list message * Z) :=
  match items with
  | [] => Return (messages, tokens_used)
  | (user_msg, bot_msg) :: rest =>
    let user_content := user_message user_msg in
    let bot_content := assistant_message bot_msg in
    and_then (count_tokens user_msg) (fun user_tokens =>
    and_then (count_tokens bot_msg) (fun bot_tokens =>
    let new_tokens := user_tokens + bot_tokens in
    if tokens_used + new_tokens >? MAX_TOKENS then Return (messages, tokens_used)
    else history_loop rest (messages ++ [user_content; bot_content])
                      (tokens_used + new_tokens)))
  end.

Definition prepare_api_messages (conversation : list turn) (profile : Profile)
    (new_message : str) : outcome (list message) :=
  let messages := [system_prompt profile] in
  and_then (count_tokens (content (system_prompt profile))) (fun tokens_used =>
  and_then (history_loop (py_slice conversation (- MAX_HISTORY_ITEMS) None)
                         messages tokens_used) (fun state =>
  let '(messages, tokens_used) := state in
  and_then (count_tokens new_message) (fun new_tokens =>
  Return (if new_tokens + tokens_used <? MAX_TOKENS
          then messages ++ [user_message new_message]
          else messages)))).

(** The request [call_deepseek_api_stream] builds before its [try]. *)
Definition api_request (prompt : str) (conversation : list turn)
    (profile : Profile) : outcome request :=
  and_then (prepare_api_messages conversation profile prompt) (fun messages =>
  and_then (count_tokens (repr_messages messages)) (fun repr_tokens =>
  Return {|
    url := api_url;
    authorization := u "Bearer " ++ api_key;
    model := u "deepseek-chat";
    messages := messages;
    stream := true;
    max_tokens := Z.min 2000 (MAX_TOKENS - repr_tokens)
  |})).

Definition call_deepseek_api_stream (prompt : str) (conversation : list turn)
    (profile : Profile) : gen json unit :=
  data <- lift (api_request prompt conversation profile) ;;
  try_except
    (response <- requests_post data ;;
     if status_code response =? 200 then
       for_gen (iter_lines response) tt (fun _ line => stream_line line)
     else
       yield (JStr (u "[API 错误] 状态码: " ++ str_of_Z (status_code response))))
    (fun e => Some (yield (JStr (u "[连接错误] " ++ exn_str e)))).

(** The body of the [try] in [respond]. *)
Definition respond_try (message : str) (chat_history : list turn)
    (profile : Profile) : gen (list turn) unit :=
  save_training_data message profile ;;
  trimmed_history <- lift (trim_conversation chat_history (MAX_TOKENS / 2)) ;;
  bot_message <-
    for_gen (call_deepseek_api_stream message trimmed_history profile) []
      (respond_chunk message trimmed_history) ;;
  let full_conversation := trimmed_history ++ [(message, bot_message)] in
  save_conversation full_conversation ;;
  yield full_conversation.

Definition respond (message : str) (chat_history : list turn)
    (profile : Profile) : gen (list turn) unit :=
  if bool_decide (strip message = []) then
    yield chat_history
  else
    try_except (respond_try message chat_history profile)
      (fun e => Some (
         print (u "对话出错: " ++ exn_str e) ;;
         yield (chat_history ++ [(message, u "发生错误: " ++ exn_str e)]))).

End Refusing.
End Strict.

(** ** A concrete instance of the libraries

    Used by the closed examples below: a tokenizer that makes every character
    one token, a JSON encoder with Python's separators and escapes, a JSON
    decoder for documents without fractional numbers, exponents and [\u]
    escapes (it raises [JSONDecodeError] on every other text), and the
    strict UTF-8 codec. *)
Module Demo.

Definition hex_digit (n : N) : N :=
  (if n <? 10 then 48 + n else 87 + n)%N.

Definition escape_char (c : N) : str :=
  if (c =? 34)%N then [92; 34]%N
  else if (c =? 92)%N then [92; 92]%N
  else if (c =? 10)%N then [92; 110]%N
  else if (c =? 13)%N then [92; 114]%N
  else if (c =? 9)%N then [92; 116]%N
  else if (c =? 8)%N then [92; 98]%N
  else if (c =? 12)%N then [92; 102]%N
  else if (c <? 32)%N then
    [92; 117; 48; 48; hex_digit (c / 16); hex_digit (c mod 16)]%N
  else [c].

Definition dump_str (s : str) : str :=
  [34%N] ++ concat (map escape_char s) ++ [34%N].

Definition newline_indent (indent : option nat) (level : nat) : str :=
  match indent with
  | Some n => 10%N :: repeat 32%N (n * level)
  | None => []
  end.

Definition item_separator (indent : option nat) : str :=
  match indent with
  | Some _ => u ","
  | None => u ", "
  end.

Definition bracket (indent : option nat) (level : nat) (l r : N)
    (items : list str) : str :=
  match items with
  | [] => [l; r]
  | _ =>
    [l] ++ newline_indent indent (S level)
    ++ join (item_separator indent ++ newline_indent indent (S level)) items
    ++ newline_indent indent level ++ [r]
  end.

Fixpoint dumps_at (indent : option nat) (level : nat) (v : json) : str :=
  match v with
  | JNull => u "null"
  | JBool true => u "true"
  | JBool false => u "false"
  | JInt z => str_of_Z z
  | JFloat f => float_repr f
  | JStr s => dump_str s
  | JList items =>
    bracket indent level 91%N 93%N (map (dumps_at indent (S level)) items)
  | JDict fields =>
    bracket indent level 123%N 125%N
      (map (fun kv => dump_str (fst kv) ++ u ": "
                      ++ dumps_at indent (S level) (snd kv)) fields)
  end.

Definition dumps (indent : option nat) (v : json) : str := dumps_at indent 0 v.

Fixpoint skip_ws (s : str) : str :=
  match s with
  | c :: rest =>
    if ((c =? 32) || (c =? 9) || (c =? 10) || (c =? 13))%N
    then skip_ws rest else s
  | [] => []
  end.

Definition is_digit (c : N) : bool := ((48 <=? c) && (c <=? 57))%N.

Fixpoint read_digits (s : str) (acc : Z) : Z * str :=
  match s with
  | c :: rest =>
    if is_digit c then read_digits rest (acc * 10 + Z.of_N (c - 48)) else (acc, s)
  | [] => (acc, [])
  end.

(** A number without fraction and exponent; a leading zero stands alone. *)
Definition read_int (s : str) : option (Z * str) :=
  let after (z : Z) (rest : str) :=
    match rest with
    | c :: _ => if ((c =? 46) || (c =? 101) || (c =? 69))%N then None
                else Some (z, rest)
    | [] => Some (z, rest)
    end in
  match s with
  | c :: rest =>
    if (c =? 48)%N then after 0 rest
    else if is_digit c then let '(z, rest') := read_digits s 0 in after z rest'
    else None
  | [] => None
  end.

Definition unescape (c : N) : option N :=
  if ((c =? 34) || (c =? 92) || (c =? 47))%N then Some c
  else if (c =? 98)%N then Some 8%N
  else if (c =? 102)%N then Some 12%N
  else if (c =? 110)%N then Some 10%N
  else if (c =? 114)%N then Some 13%N
  else if (c =? 116)%N then Some 9%N
  else None.

(** The characters of a string after its opening quote, and what follows
    the closing one. *)
Fixpoint read_string (s : str) : option (str * str) :=
  match s with
  | [] => None
  | c :: rest =>
    if (c =? 34)%N then Some ([], rest)
    else if (c =? 92)%N then
      match rest with
      | e :: rest' =>
        match unescape e, read_string rest' with
        | Some x, Some (t, after) => Some (x :: t, after)
        | _, _ => None
        end
      | [] => None
      end
    else if (c <? 32)%N then None
    else
      match read_string rest with
      | Some (t, after) => Some (c :: t, after)
      | None => None
      end
  end.

(** [d[key] = v]. *)
Fixpoint dict_set (key : str) (v : json) (d : list (str * json))
  : list (str * json) :=
  match d with
  | [] => [(key, v)]
  | (k, x) :: rest =>
    if str_eqb k key then (k, v) :: rest else (k, x) :: dict_set key v rest
  end.

Fixpoint read_value (fuel : nat) (s : str) : option (json * str) :=
  match fuel with
  | O => None
  | S fuel =>
    match skip_ws s with
    | 110%N :: 117%N :: 108%N :: 108%N :: rest => Some (JNull, rest)
    | 116%N :: 114%N :: 117%N :: 101%N :: rest => Some (JBool true, rest)
    | 102%N :: 97%N :: 108%N :: 115%N :: 101%N :: rest => Some (JBool false, rest)
    | 34%N :: rest =>
      match read_string rest with
      | Some (t, after) => Some (JStr t, after)
      | None => None
      end
    | 91%N :: rest =>
      match skip_ws rest with
      | 93%N :: after => Some (JList [], after)
      | _ =>
        match read_items fuel rest with
        | Some (items, after) => Some (JList items, after)
        | None => None
        end
      end
    | 123%N :: rest =>
      match skip_ws rest with
      | 125%N :: after => Some (JDict [], after)
      | _ =>
        match read_members fuel rest [] with
        | Some (fields, after) => Some (JDict fields, after)
        | None => None
        end
      end
    | 45%N :: rest =>
      match read_int rest with
      | Some (z, after) => Some (JInt (- z), after)
      | None => None
      end
    | rest =>
      match read_int rest with
      | Some (z, after) => Some (JInt z, after)
      | None => None
      end
    end
  end
with read_items (fuel : nat) (s : str) : option (list json * str) :=
  match fuel with
  | O => None
  | S fuel =>
    match read_value fuel s with
    | Some (v, after) =>
      match skip_ws after with
      | 44%N :: more =>
        match read_items fuel more with
        | Some (vs, rest) => Some (v :: vs, rest)
        | None => None
        end
      | 93%N :: rest => Some ([v], rest)
      | _ => None
      end
    | None => None
    end
  end
with read_members (fuel : nat) (s : str) (acc : list (str * json))
  : option (list (str * json) * str) :=
  match fuel with
  | O => None
  | S fuel =>
    match skip_ws s with
    | 34%N :: rest =>
      match read_string rest with
      | Some (key, after) =>
        match skip_ws after with
        | 58%N :: more =>
          match read_value fuel more with
          | Some (v, after') =>
            match skip_ws after' with
            | 44%N :: more' => read_members fuel more' (dict_set key v acc)
            | 125%N :: rest' => Some (dict_set key v acc, rest')
            | _ => None
            end
          | None => None
          end
        | _ => None
        end
      | None => None
      end
    | _ => None
    end
  end.

Definition decode_error (what : str) : exn := Exn JSONDecodeError what.

Definition loads (text : str) : outcome json :=
  match read_value (S (length text)) text with
  | Some (v, rest) =>
    match skip_ws rest with
    | [] => Return v
    | _ => Raise (decode_error (u "Extra data"))
    end
  | None => Raise (decode_error (u "Expecting value"))
  end.

Definition decode (line : bytes) : outcome str :=
  match utf8_decode line with
  | Some text => Return text
  | None => Raise (Exn UnicodeDecodeError (u "'utf-8' codec can't decode bytes"))
  end.

(** [repr] of a text without quotes, backslashes and control characters. *)
Definition repr_message (m : message) : str :=
  u "{'role': " ++ quoted (role m) ++ u ", 'content': " ++ quoted (content m)
  ++ u "}".

Definition repr_list (ms : list message) : str :=
  u "[" ++ join (u ", ") (map repr_message ms) ++ u "]".

Definition externals : Externals := {|
  tiktoken_encode := fun text => text;
  json_loads := loads;
  json_dumps := dumps;
  bytes_decode := decode;
  repr_messages := repr_list;
|}.

(** A tokenizer that refuses the texts that hold [<|endoftext|>]; the
    message is the first line of the one [tiktoken] gives. *)
Definition tokenizer : Tokenizer := {|
  tiktoken_refuses := fun text =>
    if substring_in (u "<|endoftext|>") text
    then Some (Exn ValueError
                 (u "Encountered text corresponding to disallowed special token '<|endoftext|>'."))
    else None;
|}.

End Demo.

(** A generator (or plain function) that yields nothing. *)
Definition silent {Y A} (g : gen Y A) : Prop := forall w, yielded (g w) = [].

(** A generator that leaves the world as it found it. *)
Definition harmless {Y A} (g : gen Y A) : Prop := forall w, final (g w) = w.

(** A generator that posts no request. *)
Definition quiet {Y A} (g : gen Y A) : Prop :=
  forall w, posted (final (g w)) = posted w.

(** ** Sample data for the closed examples *)
Module Sample.

Definition history : list turn :=
  [(u "a", u "b"); (u "hello", u "world")].

(** A conversation whose serialization is a little over 25000 characters. *)
Definition long_conversation : list turn :=
  [(u "hi", repeat 97%N (Z.to_nat 25000))].

(** A conversation whose serialization has exactly 25000 characters. *)
Definition conversation_25000 : list turn :=
  [(u "hi", repeat 97%N (Z.to_nat 24988))].

(** A profile whose system prompt alone costs more than [MAX_TOKENS]: 4001
    interests, which [', '.join] separates. *)
Definition crowded_profile : Profile := {|
  name := u "Ann";
  age := 30;
  profession := u "clerk";
  interests := repeat (u "x") (Z.to_nat 4001);
  memory := [];
|}.

Definition profile : Profile := {|
  name := u "Ann";
  age := 30;
  profession := u "clerk";
  interests := [u "chess"; u "tea"];
  memory := [];
|}.

Definition timestamps (n : nat) : str :=
  u "20240101_12000" ++ str_of_Z (Z.of_nat n).

Definition answers (r : outcome response) : world := {|
  files := ∅;
  unwritable := fun _ => None;
  clock := timestamps;
  ticks := 0;
  remote := fun _ => r;
  posted := [];
  stdout := [];
|}.

(** The endpoint answers every request with status 500. *)
Definition failing_endpoint : world :=
  answers (Return {| status_code := 500; lines := []; broken := None |}).

(** A [data:] line of the event stream. *)
Definition data_line (payload : str) : bytes := u "data: " ++ payload.

(** The chunk [{"choices": [{"delta": {"content": text}}]}]. *)
Definition content_chunk (text : str) : str :=
  Demo.dumps None
    (JDict [(u "choices",
             JList [JDict [(u "delta", JDict [(u "content", JStr text)])]])]).

(** The endpoint streams two fragments and the end marker. *)
Definition streaming_endpoint : world :=
  answers (Return {|
    status_code := 200;
    lines := [data_line (content_chunk (u "Hel")); [];
              data_line (content_chunk (u "lo")); [];
              data_line (u "[DONE]")];
    broken := None |}).

(** The endpoint sends one [data:] line whose payload is not JSON. *)
Definition garbled_endpoint : world :=
  answers (Return {|
    status_code := 200;
    lines := [data_line (u "{")];
    broken := None |}).

(** The endpoint streams a fragment, a line that is not JSON, a second
    fragment, the end marker, and a third fragment after it. *)
Definition untidy_endpoint : response := {|
  status_code := 200;
  lines := [data_line (content_chunk (u "Hel"));
            data_line (u "{");
            data_line (content_chunk (u "lo"));
            data_line (u "[DONE]");
            data_line (content_chunk (u "!"))];
  broken := None |}.

(** The endpoint streams a fragment, then a payload that is the number 5,
    then a second fragment. *)
Definition faulty_endpoint : response := {|
  status_code := 200;
  lines := [data_line (content_chunk (u "Hel"));
            data_line (u "5");
            data_line (content_chunk (u "lo"))];
  broken := None |}.

(** The endpoint streams a fragment, a comment line and an empty line, and
    then the connection breaks. *)
Definition dropped_endpoint : response := {|
  status_code := 200;
  lines := [data_line (content_chunk (u "Hel")); u ": keep-alive"; []];
  broken := Some (Exn RequestException (u "Connection broken")) |}.

(** A world that holds the given [profile.json]. *)
Definition with_profile_file (text : str) : world := {|
  files := <[u "profile.json" := text]> ∅;
  unwritable := fun _ => None;
  clock := timestamps;
  ticks := 0;
  remote := fun _ => Return {| status_code := 500; lines := []; broken := None |};
  posted := [];
  stdout := [];
|}.

(** A world in which nothing can be written. *)
Definition read_only : world := {|
  files := ∅;
  unwritable := fun _ => Some (Exn OSError (u "[Errno 30] Read-only file system"));
  clock := timestamps;
  ticks := 0;
  remote := fun _ => Return {| status_code := 500; lines := []; broken := None |};
  posted := [];
  stdout := [];
|}.

(** A world whose clock does not advance between two readings. *)
Definition same_second : world := {|
  files := ∅;
  unwritable := fun _ => None;
  clock := fun _ => u "20240101_120000";
  ticks := 0;
  remote := fun _ => Return {| status_code := 500; lines := []; broken := None |};
  posted := [];
  stdout := [];
|}.

(** A world in which the second part file of the first transcript cannot be
    written. *)
Definition second_part_fails : world := {|
  files := ∅;
  unwritable := fun path =>
    if bool_decide (path = u "data/conversations/conversation_20240101_120000_part2.json")
    then Some (Exn OSError (u "[Errno 28] No space left on device"))
    else None;
  clock := timestamps;
  ticks := 0;
  remote := fun _ => Return {| status_code := 500; lines := []; broken := None |};
  posted := [];
  stdout := [];
|}.

(** A conversation whose serialization has exactly 20000 characters, twice
    the threshold. *)
Definition conversation_20000 : list turn :=
  [(u "hi", repeat 97%N (Z.to_nat 19988))].

(** The chunk [{"choices": [{"delta": {"role": "assistant"}}]}], as sent at
    the start of a stream: a delta without content. *)
Definition role_chunk : str :=
  Demo.dumps None
    (JDict [(u "choices",
             JList [JDict [(u "delta", JDict [(u "role", JStr (u "assistant"))])]])]).

(** The document [{"my_profile": profile}]. *)
Definition profile_document : json :=
  JDict [(u "my_profile", profile_json profile)].

(** The document [{"my_profile": {}}]. *)
Definition empty_profile_document : json :=
  JDict [(u "my_profile", JDict [])].

(** A prompt that holds a special token of the encoding. *)
Definition refused_prompt : str := u "<|endoftext|>".

(** As [failing_endpoint], with a transcript directory that cannot be
    written. *)
Definition read_only_transcripts : world := {|
  files := ∅;
  unwritable := fun path =>
    if startswith path (u "data/conversations/")
    then Some (Exn OSError (u "[Errno 30] Read-only file system"))
    else None;
  clock := timestamps;
  ticks := 0;
  remote := fun _ => Return {| status_code := 500; lines := []; broken := None |};
  posted := [];
  stdout := [];
|}.

End Sample.

(** ** Vocabulary of the properties *)

Section Measures.
Context `{Externals}.

(** The token cost of a turn: user plus bot message. *)
Definition turn_tokens (item : turn) : Z :=
  count_tokens (fst item) + count_tokens (snd item).

Definition conversation_tokens (conversation : list turn) : Z :=
  foldr (fun item total => turn_tokens item + total) 0 conversation.

(** The token cost of a message list, measured on each content. *)
Definition messages_tokens (ms : list message) : Z :=
  foldr (fun m total => count_tokens (content m) + total) 0 ms.

(** The two API messages a turn becomes. *)
Definition turn_messages (item : turn) : list message :=
  [user_message (fst item); assistant_message (snd item)].

(** The turns [prepare_api_messages] walks: [conversation[-MAX_HISTORY_ITEMS:]]. *)
Definition recent_turns (conversation : list turn) : list turn :=
  py_slice conversation (- MAX_HISTORY_ITEMS) None.

(** [messages] and [tokens_used] when the history loop of
    [prepare_api_messages] has ended, before the new message is considered. *)
Definition history_state (conversation : list turn) (profile : Profile)
  : list message * Z :=
  history_loop (recent_turns conversation) [system_prompt profile]
               (count_tokens (content (system_prompt profile))).

(** The file a training snapshot taken at [timestamp] goes to. *)
Definition snapshot_path (timestamp : str) : str :=
  u "data/training_data/training_" ++ timestamp ++ u ".json".

(** What the snapshot holds: [json.dump(data, f, ensure_ascii=False,
    indent=2)]. *)
Definition snapshot_text (timestamp message : str) (profile : Profile) : str :=
  json_dumps (Some 2%nat)
    (JDict [(u "timestamp", JStr timestamp);
            (u "message", JStr message);
            (u "profile", profile_json profile)]).

(** The default profile [load_profile] returns on a first run. *)
Definition default_my_profile : json :=
  JDict [(u "name", JStr (u "用户"));
         (u "age", JInt 20);
         (u "profession", JStr (u "未设置"));
         (u "interests", JList [JStr (u "未设置")]);
         (u "memory", JList [])].

(** The text [save_conversation] writes: [json.dumps(conversation,
    ensure_ascii=False)]. *)
Definition conversation_text (conversation : list turn) : str :=
  json_dumps None (conversation_json conversation).

(** The base name [save_conversation] uses when started in world [w]. *)
Definition transcript_base (w : world) : str :=
  u "data/conversations/conversation_" ++ clock w (ticks w).

(** The slice of [text] that part file number [i + 1] receives. *)
Definition transcript_part (text : str) (i : Z) : str :=
  py_slice text (i * MAX_CONVERSATION_LENGTH)
           (Some ((i + 1) * MAX_CONVERSATION_LENGTH)).

(** The fragment reporting a status other than 200. *)
Definition status_fragment (code : Z) : json :=
  JStr (u "[API 错误] 状态码: " ++ str_of_Z code).

(** The fragment reporting an exception caught by the stream's [try]. *)
Definition failure_fragment (e : exn) : json :=
  JStr (u "[连接错误] " ++ exn_str e).

(** The world once the request of a stream has been posted. *)
Definition after_post (data : request) (w : world) : world :=
  World (files w) (unwritable w) (clock w) (ticks w) (remote w)
        (posted w ++ [data]) (stdout w).

(** The loop of the stream over the lines of a response with status 200. *)
Definition lines_loop (r : response) : gen json unit :=
  for_gen (iter_lines r) tt (fun _ line => stream_line line).

(** A response with other lines, all else equal. *)
Definition with_lines (r : response) (ls : list bytes) : response :=
  {| status_code := status_code r; lines := ls; broken := broken r |}.

(** The bot message after each fragment of a reply, starting from
    [bot_message]. *)
Fixpoint growing_replies (bot_message : str) (fragments : list str) : list str :=
  match fragments with
  | [] => []
  | fragment :: rest =>
    (bot_message ++ fragment) :: growing_replies (bot_message ++ fragment) rest
  end.

End Measures.

(** * Properties *)

Section Trimming.
Context `{Externals}.

Lemma count_tokens_nonneg text : 0 <= count_tokens text.
Proof. unfold count_tokens. lia. Qed.

Lemma turn_tokens_nonneg item : 0 <= turn_tokens item.
Proof.
  unfold turn_tokens.
  pose proof (count_tokens_nonneg (fst item)).
  pose proof (count_tokens_nonneg (snd item)). lia.
Qed.

Lemma conversation_tokens_app c1 c2 :
  conversation_tokens (c1 ++ c2) = conversation_tokens c1 + conversation_tokens c2.
Proof.
  induction c1 as [|item c1 IH]; simpl; [reflexivity|].
  rewrite IH. lia.
Qed.

Lemma conversation_tokens_nonneg c : 0 <= conversation_tokens c.
Proof.
  induction c as [|item c IH]; simpl; [lia|].
  pose proof (turn_tokens_nonneg item). lia.
Qed.

(** What the loop returns: the turns taken before the [break] in front of
    what was already kept, and the turn that caused the [break], if any. *)
Lemma trim_loop_spec max_tokens items total trimmed :
  exists taken rest,
    items = taken ++ rest /\
    trim_loop max_tokens items total trimmed = rev taken ++ trimmed /\
    (rest = [] \/
     exists item rest', rest = item :: rest' /\
       total + conversation_tokens (rev taken) + turn_tokens item > max_tokens) /\
    (total <= max_tokens ->
     total + conversation_tokens (rev taken) <= max_tokens).
Proof.
  revert total trimmed.
  induction items as [|[user_msg bot_msg] items IH]; intros total trimmed.
  - exists [], []. simpl. repeat split; [now left | lia].
  - simpl.
    destruct (total + (count_tokens user_msg + count_tokens bot_msg) >? max_tokens)
      eqn:Hover.
    + exists [], ((user_msg, bot_msg) :: items). simpl.
      repeat split; [|lia].
      right. exists (user_msg, bot_msg), items. split; [reflexivity|].
      unfold turn_tokens. simpl. lia.
    + destruct (IH (total + (count_tokens user_msg + count_tokens bot_msg))
                   ((user_msg, bot_msg) :: trimmed))
        as (taken & rest & Hitems & Hres & Hstop & Hfit).
      exists ((user_msg, bot_msg) :: taken), rest.
      assert (Hcost : conversation_tokens (rev taken ++ [(user_msg, bot_msg)])
                      = conversation_tokens (rev taken)
                        + (count_tokens user_msg + count_tokens bot_msg)).
      { rewrite conversation_tokens_app. simpl. unfold turn_tokens. simpl. lia. }
      cbn [rev]. rewrite Hcost. repeat split.
      * now rewrite Hitems.
      * rewrite Hres, <- app_assoc. reflexivity.
      * destruct Hstop as [->|(item & rest' & -> & Hgt)]; [now left|].
        right. exists item, rest'. split; [reflexivity|lia].
      * intros Htotal. lia.
Qed.

(** [trim_conversation] splits the conversation: what it drops, then what it
    keeps; the last dropped turn is the one that did not fit. *)
Lemma trim_conversation_split conversation max_tokens :
  exists dropped,
    conversation = dropped ++ trim_conversation conversation max_tokens /\
    (dropped = [] \/
     exists older item, dropped = older ++ [item] /\
       turn_tokens item
       + conversation_tokens (trim_conversation conversation max_tokens)
       > max_tokens) /\
    (0 <= max_tokens ->
     conversation_tokens (trim_conversation conversation max_tokens) <= max_tokens).
Proof.
  unfold trim_conversation.
  destruct (trim_loop_spec max_tokens (rev conversation) 0 [])
    as (taken & rest & Hitems & Hres & Hstop & Hfit).
  rewrite Hres, app_nil_r.
  exists (rev rest). repeat split.
  - rewrite <- (rev_involutive conversation), Hitems, rev_app_distr. reflexivity.
  - destruct Hstop as [->|(item & rest' & -> & Hgt)]; [now left|].
    right. exists (rev rest'), item. split; [reflexivity|lia].
  - intros Hmax. specialize (Hfit Hmax). lia.
Qed.

(** A suffix longer than another suffix of the same list contains it, with
    the element just before it. *)
Lemma longer_suffix {A} (older : list A) item kept k s :
  k ++ s = (older ++ [item]) ++ kept ->
  (length kept < length s)%nat ->
  exists s', s = s' ++ item :: kept.
Proof.
  intros Heq Hlen.
  assert (Hs : s = drop (length k) ((older ++ [item]) ++ kept)).
  { rewrite <- Heq, drop_app_length. reflexivity. }
  assert (Hk : (length k <= length older)%nat).
  { apply (f_equal length) in Heq. rewrite !length_app in Heq. simpl in Heq. lia. }
  exists (drop (length k) older).
  rewrite Hs, <- !app_assoc. simpl.
  rewrite drop_app_le by exact Hk. reflexivity.
Qed.

(** C1.  For a non-negative budget, [trim_conversation] returns a suffix of the
    conversation (contiguous, in order) whose token cost is at most the
    budget; no suffix within the budget is longer; and the walk stopped at
    the first turn that did not fit: either nothing was dropped, or the most
    recent dropped turn together with the kept turns exceeds the budget
    (older turns are dropped with it, whatever their cost). *)
Theorem trim_conversation_longest_suffix conversation max_tokens :
  0 <= max_tokens ->
  let kept := trim_conversation conversation max_tokens in
  kept `suffix_of` conversation /\
  conversation_tokens kept <= max_tokens /\
  (forall s, s `suffix_of` conversation ->
     conversation_tokens s <= max_tokens -> (length s <= length kept)%nat) /\
  (exists dropped, conversation = dropped ++ kept /\
     (dropped = [] \/
      exists older item, dropped = older ++ [item] /\
        turn_tokens item + conversation_tokens kept > max_tokens)).
Proof.
  intros Hmax kept.
  destruct (trim_conversation_split conversation max_tokens)
    as (dropped & Hsplit & Hstop & Hfit).
  fold kept in Hsplit, Hstop, Hfit.
  split; [exists dropped; exact Hsplit|].
  split; [exact (Hfit Hmax)|].
  split; [|exists dropped; split; assumption].
  intros s [k Hk] Hcost.
  destruct Hstop as [->|(older & item & -> & Hgt)].
  - simpl in Hsplit. rewrite <- Hsplit, Hk, length_app. lia.
  - destruct (le_lt_dec (length s) (length kept)) as [Hle|Hlt]; [exact Hle|].
    exfalso.
    destruct (longer_suffix older item kept k s) as [s' ->];
      [congruence | exact Hlt |].
    rewrite conversation_tokens_app in Hcost. simpl in Hcost.
    pose proof (conversation_tokens_nonneg s'). lia.
Qed.

(** X1.  When the most recent turn fits the budget on its own, it is kept:
    the trimmed conversation of a non-empty conversation is then non-empty. *)
Theorem trim_conversation_keeps_last conversation item max_tokens :
  turn_tokens item <= max_tokens ->
  exists kept,
    trim_conversation (conversation ++ [item]) max_tokens = kept ++ [item].
Proof.
  intros Hfits. unfold trim_conversation.
  rewrite rev_app_distr. cbn [rev app trim_loop].
  destruct item as [user_msg bot_msg]. unfold turn_tokens in Hfits. cbn [fst snd] in Hfits.
  destruct (Z.gtb_spec (0 + (count_tokens user_msg + count_tokens bot_msg))
              max_tokens) as [Hover|_]; [lia|].
  destruct (trim_loop_spec max_tokens (rev conversation)
              (0 + (count_tokens user_msg + count_tokens bot_msg))
              [(user_msg, bot_msg)]) as (taken & _ & _ & -> & _).
  exists (rev taken). reflexivity.
Qed.

End Trimming.

Section Preparing.
Context `{Externals}.

Lemma messages_tokens_app ms1 ms2 :
  messages_tokens (ms1 ++ ms2) = messages_tokens ms1 + messages_tokens ms2.
Proof.
  induction ms1 as [|m ms1 IH]; simpl; [reflexivity|].
  rewrite IH. lia.
Qed.

Lemma messages_tokens_cons m ms :
  messages_tokens (m :: ms) = count_tokens (content m) + messages_tokens ms.
Proof. reflexivity. Qed.

Lemma messages_tokens_turns kept :
  messages_tokens (flat_map turn_messages kept) = conversation_tokens kept.
Proof.
  induction kept as [|item kept IH]; simpl; [reflexivity|].
  rewrite IH. unfold turn_tokens. lia.
Qed.

Lemma recent_turns_split conversation :
  exists older,
    conversation = older ++ recent_turns conversation /\
    (length (recent_turns conversation) <= 20)%nat.
Proof.
  unfold recent_turns, py_slice, slice_index, MAX_HISTORY_ITEMS.
  change (- (20) <? 0) with true. cbv iota.
  set (a := Z.to_nat (Z.max (- (20) + Z.of_nat (length conversation)) 0)).
  assert (Ha : (length conversation - a <= 20)%nat) by lia.
  rewrite take_ge by (rewrite length_drop; lia).
  exists (take a conversation). split.
  - symmetry. apply take_drop.
  - rewrite length_drop. exact Ha.
Qed.

(** The history loop appends the messages of a prefix of its turns and adds
    their cost; it stops at the first turn that would pass [MAX_TOKENS]. *)
Lemma history_loop_spec items messages tokens_used :
  exists kept rest,
    items = kept ++ rest /\
    history_loop items messages tokens_used
    = (messages ++ flat_map turn_messages kept,
       tokens_used + conversation_tokens kept) /\
    (tokens_used <= MAX_TOKENS ->
     tokens_used + conversation_tokens kept <= MAX_TOKENS) /\
    (MAX_TOKENS < tokens_used -> kept = []).
Proof.
  revert messages tokens_used.
  induction items as [|[user_msg bot_msg] items IH]; intros messages tokens_used.
  - exists [], []. simpl. rewrite app_nil_r, Z.add_0_r.
    repeat split; intros; lia.
  - simpl.
    destruct (Z.gtb_spec (tokens_used + (count_tokens user_msg + count_tokens bot_msg))
                MAX_TOKENS) as [Hover|Hfits].
    + exists [], ((user_msg, bot_msg) :: items). simpl.
      rewrite app_nil_r, Z.add_0_r. repeat split; intros; lia.
    + destruct (IH (messages ++ [user_message user_msg; assistant_message bot_msg])
                   (tokens_used + (count_tokens user_msg + count_tokens bot_msg)))
        as (kept & rest & Hitems & Hres & Hfit & _).
      exists ((user_msg, bot_msg) :: kept), rest.
      split; [now rewrite Hitems|].
      split.
      { rewrite Hres, <- app_assoc. simpl. unfold turn_tokens. simpl.
        f_equal. lia. }
      split.
      { intros _. simpl. unfold turn_tokens. simpl. lia. }
      intros Hbig.
      pose proof (count_tokens_nonneg user_msg).
      pose proof (count_tokens_nonneg bot_msg). lia.
Qed.

Lemma history_state_spec conversation profile :
  exists kept rest,
    recent_turns conversation = kept ++ rest /\
    history_state conversation profile
    = (system_prompt profile :: flat_map turn_messages kept,
       count_tokens (content (system_prompt profile)) + conversation_tokens kept) /\
    (count_tokens (content (system_prompt profile)) <= MAX_TOKENS ->
     count_tokens (content (system_prompt profile)) + conversation_tokens kept
     <= MAX_TOKENS) /\
    (MAX_TOKENS < count_tokens (content (system_prompt profile)) -> kept = []).
Proof.
  unfold history_state.
  destruct (history_loop_spec (recent_turns conversation) [system_prompt profile]
              (count_tokens (content (system_prompt profile))))
    as (kept & rest & Hitems & Hres & Hfit & Hbig).
  exists kept, rest. repeat split; assumption.
Qed.

(** [tokens_used] is the cost of the messages collected so far. *)
Lemma history_state_tokens conversation profile :
  snd (history_state conversation profile)
  = messages_tokens (fst (history_state conversation profile)).
Proof.
  destruct (history_state_spec conversation profile)
    as (kept & rest & _ & -> & _).
  simpl. rewrite messages_tokens_turns. reflexivity.
Qed.

Lemma prepare_api_messages_unfold conversation profile new_message :
  prepare_api_messages conversation profile new_message
  = if count_tokens new_message + snd (history_state conversation profile)
       <? MAX_TOKENS
    then fst (history_state conversation profile) ++ [user_message new_message]
    else fst (history_state conversation profile).
Proof.
  unfold prepare_api_messages, history_state, recent_turns.
  destruct (history_loop _ _ _) as [messages tokens_used]. reflexivity.
Qed.

Lemma turn_messages_roles kept :
  Forall (fun m => role m = u "user" \/ role m = u "assistant")
         (flat_map turn_messages kept).
Proof.
  induction kept as [|item kept IH]; simpl; [constructor|].
  constructor; [now left|]. constructor; [now right|]. exact IH.
Qed.

(** C2.  The list [prepare_api_messages] returns begins with the system
    message and holds no other message of role system; its token cost never
    exceeds the larger of [MAX_TOKENS] and the cost of the system prompt
    alone, so it stays within [MAX_TOKENS] whenever the system prompt does. *)
Theorem prepare_api_messages_system_and_bound conversation profile new_message :
  exists rest,
    prepare_api_messages conversation profile new_message
    = system_prompt profile :: rest /\
    role (system_prompt profile) = u "system" /\
    Forall (fun m => role m <> u "system") rest /\
    messages_tokens (prepare_api_messages conversation profile new_message)
    <= Z.max MAX_TOKENS (count_tokens (content (system_prompt profile))).
Proof.
  rewrite prepare_api_messages_unfold.
  destruct (history_state_spec conversation profile)
    as (kept & rest & _ & -> & Hfit & Hbig).
  cbn [fst snd].
  assert (Hroles : Forall (fun m => role m <> u "system")
                          (flat_map turn_messages kept)).
  { eapply Forall_impl; [apply turn_messages_roles|].
    intros m [-> | ->]; discriminate. }
  pose proof (count_tokens_nonneg new_message) as Hnew.
  pose proof (conversation_tokens_nonneg kept) as Hkept.
  destruct (Z.ltb_spec
              (count_tokens new_message
               + (count_tokens (content (system_prompt profile))
                  + conversation_tokens kept)) MAX_TOKENS) as [Hroom|Hfull].
  - exists (flat_map turn_messages kept ++ [user_message new_message]).
    split; [reflexivity|]. split; [reflexivity|]. split.
    + apply Forall_app. split; [exact Hroles|].
      constructor; [discriminate|constructor].
    + rewrite messages_tokens_app, !messages_tokens_cons, messages_tokens_turns.
      change (content (user_message new_message)) with new_message.
      change (messages_tokens []) with 0. lia.
  - exists (flat_map turn_messages kept).
    split; [reflexivity|]. split; [reflexivity|]. split; [exact Hroles|].
    rewrite messages_tokens_cons, messages_tokens_turns.
    destruct (Z.le_gt_cases (count_tokens (content (system_prompt profile)))
                MAX_TOKENS) as [Hsmall|Hlarge].
    + specialize (Hfit Hsmall). lia.
    + rewrite (Hbig Hlarge). change (conversation_tokens []) with 0. lia.
Qed.

(** C3.  With [messages] and [tokens_used] as the history loop leaves them
    ([tokens_used] being the cost of the system prompt plus the included
    turns), [prepare_api_messages] returns [messages] with the new user
    message appended exactly when its cost plus [tokens_used] is strictly
    below [MAX_TOKENS]; otherwise it returns [messages] as they are, the new
    message being left out whole. *)
Theorem new_message_appended_iff_room conversation profile new_message :
  let messages := fst (history_state conversation profile) in
  let tokens_used := snd (history_state conversation profile) in
  let returned := prepare_api_messages conversation profile new_message in
  (exists kept,
     messages = system_prompt profile :: flat_map turn_messages kept /\
     tokens_used = count_tokens (content (system_prompt profile))
                   + conversation_tokens kept) /\
  tokens_used = messages_tokens messages /\
  (returned = messages ++ [user_message new_message]
   <-> count_tokens new_message + tokens_used < MAX_TOKENS) /\
  (returned = messages
   <-> ~ count_tokens new_message + tokens_used < MAX_TOKENS).
Proof.
  intros messages tokens_used returned.
  split.
  { destruct (history_state_spec conversation profile)
      as (kept & rest & _ & Hstate & _).
    exists kept. subst messages tokens_used. rewrite Hstate. split; reflexivity. }
  split; [apply history_state_tokens|].
  subst returned. rewrite prepare_api_messages_unfold.
  fold messages tokens_used.
  assert (Hneq : messages ++ [user_message new_message] <> messages).
  { intros Heq. apply (f_equal length) in Heq.
    rewrite length_app in Heq. simpl in Heq. lia. }
  destruct (Z.ltb_spec (count_tokens new_message + tokens_used) MAX_TOKENS)
    as [Hroom|Hfull].
  - split; split; intros; try lia; try reflexivity.
    + exfalso. apply Hneq. assumption.
  - split; split; intros; try lia; try reflexivity.
    + exfalso. apply Hneq. symmetry. assumption.
Qed.

(** C9.  The list [prepare_api_messages] returns is the system message,
    then for each turn of a run [kept] a user message followed by an
    assistant message carrying the turn's two texts, then possibly one last
    user message carrying the new message.  [kept] is a contiguous run, in
    order, of the last twenty turns at most ([conversation = older ++ kept ++
    rest] with at most twenty turns in [kept ++ rest]).  Every role is
    system, user or assistant. *)
Theorem prepare_api_messages_shape conversation profile new_message :
  exists older kept rest final,
    conversation = older ++ kept ++ rest /\
    (length (kept ++ rest) <= 20)%nat /\
    (final = [] \/ final = [user_message new_message]) /\
    prepare_api_messages conversation profile new_message
    = system_prompt profile :: flat_map turn_messages kept ++ final /\
    Forall (fun m => role m = u "system" \/ role m = u "user"
                     \/ role m = u "assistant")
           (prepare_api_messages conversation profile new_message).
Proof.
  destruct (recent_turns_split conversation) as (older & Hconv & Hlen).
  destruct (history_state_spec conversation profile)
    as (kept & rest & Hrecent & Hstate & _).
  rewrite prepare_api_messages_unfold, Hstate. cbn [fst snd].
  rewrite Hrecent in Hconv, Hlen.
  assert (Hroles : forall final,
    Forall (fun m => role m = u "user" \/ role m = u "assistant") final ->
    Forall (fun m => role m = u "system" \/ role m = u "user"
                     \/ role m = u "assistant")
           (system_prompt profile :: flat_map turn_messages kept ++ final)).
  { intros final Hfinal. constructor; [now left|].
    apply Forall_app. split.
    - eapply Forall_impl; [apply turn_messages_roles|]. intros m Hm. now right.
    - eapply Forall_impl; [exact Hfinal|]. intros m Hm. now right. }
  destruct (_ <? _).
  - exists older, kept, rest, [user_message new_message].
    split; [exact Hconv|]. split; [exact Hlen|]. split; [now right|].
    split; [reflexivity|].
    apply Hroles. constructor; [now left|constructor].
  - exists older, kept, rest, [].
    split; [exact Hconv|]. split; [exact Hlen|]. split; [now left|].
    rewrite app_nil_r. split; [reflexivity|].
    rewrite <- (app_nil_r (flat_map turn_messages kept)).
    apply Hroles. constructor.
Qed.

End Preparing.

(** ** Generators that yield nothing *)

Lemma silent_ret {Y A} (a : A) : silent (@ret Y A a).
Proof. intros w. reflexivity. Qed.

Lemma silent_lift {Y A} (o : outcome A) : silent (@lift Y A o).
Proof. intros w. destruct o; reflexivity. Qed.

Lemma silent_print {Y} text : silent (@print Y text).
Proof. intros w. reflexivity. Qed.

Lemma silent_now {Y} : silent (@now Y).
Proof. intros w. reflexivity. Qed.

Lemma silent_write_file {Y} path text : silent (@write_file Y path text).
Proof. intros w. unfold write_file. destruct (unwritable w path); reflexivity. Qed.

Lemma silent_bind {Y A B} (m : gen Y A) (k : A -> gen Y B) :
  silent m -> (forall a, silent (k a)) -> silent (bind m k).
Proof.
  intros Hm Hk w. unfold bind.
  destruct (result (m w)) as [a|e]; cbn [yielded]; rewrite Hm.
  - apply Hk.
  - reflexivity.
Qed.

Lemma silent_try_except {Y A} (body : gen Y A) handler :
  silent body ->
  (forall e h, handler e = Some h -> silent h) ->
  silent (try_except body handler).
Proof.
  intros Hbody Hhandler w. unfold try_except.
  destruct (result (body w)) as [a|e]; [apply Hbody|].
  destruct (handler e) as [h|] eqn:Hh; [|apply Hbody].
  cbn [yielded]. rewrite Hbody. apply (Hhandler e h Hh).
Qed.

Lemma silent_for_each {Y X S} (items : list X) (s : S) (body : S -> X -> gen Y S) :
  (forall s x, silent (body s x)) -> silent (for_each items s body).
Proof.
  intros Hbody. revert s.
  induction items as [|x items IH]; intros s; simpl.
  - apply silent_ret.
  - apply silent_bind; [apply Hbody|]. intros s'. apply IH.
Qed.

(** ** Runs of [bind] and of loops over generators *)

Lemma bind_return {Y A B} (m : gen Y A) (k : A -> gen Y B) w a :
  result (m w) = Return a ->
  bind m k w
  = Run (yielded (m w) ++ yielded (k a (final (m w))))
        (result (k a (final (m w)))) (final (k a (final (m w)))).
Proof. intros Hm. unfold bind. rewrite Hm. reflexivity. Qed.

Lemma bind_raise {Y A B} (m : gen Y A) (k : A -> gen Y B) w e :
  result (m w) = Raise e ->
  bind m k w = Run (yielded (m w)) (Raise e) (final (m w)).
Proof. intros Hm. unfold bind. rewrite Hm. reflexivity. Qed.

Lemma bind_result_return {Y A B} (m : gen Y A) (k : A -> gen Y B) w a :
  result (m w) = Return a ->
  result (bind m k w) = result (k a (final (m w))).
Proof. intros Hm. rewrite (bind_return m k w a Hm). reflexivity. Qed.

Lemma try_except_handled {Y A} (body : gen Y A) handler w e h :
  result (body w) = Raise e ->
  handler e = Some h ->
  try_except body handler w
  = Run (yielded (body w) ++ yielded (h (final (body w))))
        (result (h (final (body w)))) (final (h (final (body w)))).
Proof. intros Hbody Hh. unfold try_except. rewrite Hbody, Hh. reflexivity. Qed.

Lemma bind_result_inv {Y A B} (m : gen Y A) (k : A -> gen Y B) w b :
  result (bind m k w) = Return b ->
  exists a, result (m w) = Return a /\ result (k a (final (m w))) = Return b.
Proof.
  unfold bind. destruct (result (m w)) as [a|e]; [|discriminate].
  intros Hk. exists a. split; [reflexivity|exact Hk].
Qed.

Lemma for_gen_returned {Y X S} (g : gen X unit) (s : S)
    (body : S -> X -> gen Y S) w :
  result (g w) = Return tt ->
  for_gen g s body w = for_each (yielded (g w)) s body (final (g w)).
Proof.
  intros Hg. unfold for_gen, bind. rewrite Hg.
  destruct (for_each _ _ _ _) as [ys [s'|e] w']; cbn [result yielded final ret].
  - rewrite app_nil_r. reflexivity.
  - reflexivity.
Qed.

Section Streaming.
Context `{Externals}.

(** The stream, case by case on what the endpoint does. *)
Lemma call_deepseek_api_stream_cases prompt conversation profile w :
  call_deepseek_api_stream prompt conversation profile w
  = let data := api_request prompt conversation profile in
    match remote w data with
    | Raise e => Run [failure_fragment e] (Return tt) (after_post data w)
    | Return r =>
      if status_code r =? 200 then
        let body := lines_loop r (after_post data w) in
        Run (yielded body ++ match result body with
                             | Return _ => []
                             | Raise e => [failure_fragment e]
                             end)
            (Return tt) (final body)
      else Run [status_fragment (status_code r)] (Return tt) (after_post data w)
    end.
Proof.
  unfold call_deepseek_api_stream, try_except, bind, requests_post.
  cbn [result yielded final]. fold (after_post (api_request prompt conversation profile) w).
  cbv zeta.
  destruct (remote w (api_request prompt conversation profile)) as [r|e].
  - cbn [result yielded final app].
    destruct (status_code r =? 200).
    + fold (lines_loop r).
      destruct (lines_loop r _) as [ys [[]|e] w']; cbn [result yielded final].
      * rewrite app_nil_r. reflexivity.
      * unfold yield. cbn [result yielded final]. reflexivity.
    + reflexivity.
  - reflexivity.
Qed.

(** A [data:] line whose payload [json.loads] rejects leaves no trace. *)
Lemma stream_line_skips_malformed line text e w :
  bytes_decode line = Return text ->
  startswith text (u "data:") = true ->
  json_loads (strip (py_slice text 5 None)) = Raise e ->
  isinstance e JSONDecodeError = true ->
  stream_line line w = Run [] (Return tt) w.
Proof.
  intros Hdecode Hdata Hloads Hclass.
  unfold stream_line. destruct (bool_decide (line = [])); [reflexivity|].
  rewrite Hdecode.
  rewrite (bind_return (lift (Return text)) _ w text) by reflexivity.
  cbn [lift ret result yielded final app].
  rewrite Hdata.
  destruct (negb _); [|reflexivity].
  rewrite Hloads.
  rewrite (try_except_handled _ _ _ e (ret tt));
    [ | rewrite (bind_raise (lift (Raise e)) _ _ e) by reflexivity; reflexivity
      | rewrite Hclass; reflexivity ].
  rewrite (bind_raise (lift (Raise e)) _ _ e) by reflexivity.
  reflexivity.
Qed.

(** C5.  When the endpoint answers with a status other than 200 (every
    non-success status, 500 among them), the stream yields exactly one
    fragment, the text "[API 错误] 状态码: " followed by the status code in
    decimal, and then ends normally. *)
Theorem stream_reports_status prompt conversation profile w r :
  remote w (api_request prompt conversation profile) = Return r ->
  status_code r <> 200 ->
  yielded (call_deepseek_api_stream prompt conversation profile w)
  = [JStr (u "[API 错误] 状态码: " ++ str_of_Z (status_code r))] /\
  result (call_deepseek_api_stream prompt conversation profile w) = Return tt.
Proof.
  intros Hremote Hstatus.
  rewrite call_deepseek_api_stream_cases. cbv zeta. rewrite Hremote.
  destruct (Z.eqb_spec (status_code r) 200) as [Heq|_]; [contradiction|].
  split; reflexivity.
Qed.

Lemma iter_lines_run r w :
  iter_lines r w
  = Run (lines r) (match broken r with Some e => Raise e | None => Return tt end) w.
Proof.
  unfold iter_lines.
  assert (Hyield : forall ls, for_each ls tt (fun _ line => @yield bytes line) w
                              = Run ls (Return tt) w).
  { induction ls as [|l ls IH]; [reflexivity|].
    cbn [for_each]. unfold bind. cbn [yield result yielded final].
    rewrite IH. reflexivity. }
  unfold bind. rewrite Hyield. cbn [result yielded final].
  destruct (broken r); cbn [raise ret result yielded final];
    rewrite app_nil_r; reflexivity.
Qed.

(** The loop over the lines, then the exception of a broken connection. *)
Lemma lines_loop_unfold r w :
  lines_loop r w
  = bind (for_each (lines r) tt (fun _ line => stream_line line))
         (fun s => match broken r with
                   | Some e => raise e
                   | None => ret s
                   end) w.
Proof.
  unfold lines_loop, for_gen. rewrite iter_lines_run. cbn [result yielded final].
  destruct (broken r); reflexivity.
Qed.

(** A line that leaves no trace can be removed from the stream. *)
Lemma for_each_skip before line after w :
  (forall w', stream_line line w' = Run [] (Return tt) w') ->
  for_each (before ++ line :: after) tt (fun _ line => stream_line line) w
  = for_each (before ++ after) tt (fun _ line => stream_line line) w.
Proof.
  intros Hskip. revert w.
  induction before as [|l before IH]; intros w; cbn [app for_each].
  - unfold bind at 1. rewrite Hskip. cbn [result yielded final app].
    destruct (for_each after tt _ w). reflexivity.
  - unfold bind. destruct (result (stream_line l w)) as [[]|e]; [|reflexivity].
    rewrite IH. reflexivity.
Qed.

Lemma lines_loop_skip r before line after w :
  lines r = before ++ line :: after ->
  (forall w', stream_line line w' = Run [] (Return tt) w') ->
  lines_loop r w = lines_loop (with_lines r (before ++ after)) w.
Proof.
  intros Hlines Hskip. rewrite !lines_loop_unfold.
  unfold with_lines. cbn [lines broken]. rewrite Hlines.
  unfold bind. rewrite (for_each_skip _ _ _ _ Hskip). reflexivity.
Qed.

(** X2.  A [data:] line whose payload is not valid JSON, in the middle of a
    stream, is skipped: the stream yields what it would yield without that
    line, so the valid lines after it still give their fragments. *)
Theorem malformed_line_is_skipped r before line after text e w :
  lines r = before ++ line :: after ->
  bytes_decode line = Return text ->
  startswith text (u "data:") = true ->
  json_loads (strip (py_slice text 5 None)) = Raise e ->
  isinstance e JSONDecodeError = true ->
  lines_loop r w = lines_loop (with_lines r (before ++ after)) w.
Proof.
  intros Hlines Hdecode Hdata Hloads Hclass.
  apply (lines_loop_skip r before line after w Hlines).
  intros w'. exact (stream_line_skips_malformed line text e w' Hdecode Hdata Hloads Hclass).
Qed.

(** X3.  The line [data: [DONE]] yields nothing and does not end the loop:
    the stream yields what it would yield without that line, the fragments
    of the lines after it included. *)
Theorem done_line_does_not_end_stream r before line after text w :
  lines r = before ++ line :: after ->
  bytes_decode line = Return text ->
  startswith text (u "data:") = true ->
  strip (py_slice text 5 None) = u "[DONE]" ->
  lines_loop r w = lines_loop (with_lines r (before ++ after)) w.
Proof.
  intros Hlines Hdecode Hdata Hdone.
  apply (lines_loop_skip r before line after w Hlines).
  intros w'. unfold stream_line.
  destruct (bool_decide (line = [])); [reflexivity|].
  unfold bind at 1. rewrite Hdecode. cbn [lift ret result yielded final app].
  rewrite Hdata, Hdone. unfold str_eqb.
  rewrite bool_decide_eq_true_2 by reflexivity. reflexivity.
Qed.

End Streaming.

Section Responding.
Context `{Externals}.

Lemma silent_save_training_data {Y} message profile :
  silent (@save_training_data _ Y message profile).
Proof.
  apply silent_try_except.
  - apply silent_bind; [apply silent_now|]. intros ts. apply silent_write_file.
  - intros e h [= <-]. apply silent_print.
Qed.

(** A failure to save the training snapshot is printed, never raised. *)
Lemma save_training_data_returns {Y} message profile w :
  result (@save_training_data _ Y message profile w) = Return tt.
Proof.
  unfold save_training_data, try_except, bind, now, write_file.
  cbn [result yielded final clock ticks unwritable].
  destruct (unwritable w _); reflexivity.
Qed.

Lemma silent_save_conversation {Y} conversation :
  silent (@save_conversation _ Y conversation).
Proof.
  unfold save_conversation.
  apply silent_bind; [apply silent_now|]. intros ts.
  destruct (_ >? _).
  - apply silent_for_each. intros [] i. apply silent_write_file.
  - apply silent_write_file.
Qed.

Lemma lstrip_blank s : Forall (fun c => isspace c = true) s -> lstrip s = [].
Proof.
  induction 1 as [|c s Hc _ IH]; simpl; [reflexivity|].
  rewrite Hc. exact IH.
Qed.

Lemma lstrip_nil_blank s : lstrip s = [] -> Forall (fun c => isspace c = true) s.
Proof.
  induction s as [|c s IH]; simpl; [constructor|].
  destruct (isspace c) eqn:Hc; [|discriminate].
  intros Hs. constructor; [exact Hc|exact (IH Hs)].
Qed.

Lemma lstrip_head s c rest : lstrip s = c :: rest -> isspace c = false.
Proof.
  induction s as [|d s IH]; simpl; [discriminate|].
  destruct (isspace d) eqn:Hd; [exact IH|].
  intros [= <- _]. exact Hd.
Qed.

(** [message.strip()] is empty exactly for a message of whitespace only. *)
Lemma strip_nil_iff s : strip s = [] <-> Forall (fun c => isspace c = true) s.
Proof.
  unfold strip, rstrip. split.
  - intros Hs.
    assert (Hinner : lstrip (rev (lstrip s)) = []).
    { rewrite <- (rev_involutive (lstrip (rev (lstrip s)))), Hs. reflexivity. }
    apply lstrip_nil_blank in Hinner.
    apply Forall_rev in Hinner. rewrite rev_involutive in Hinner.
    destruct (lstrip s) as [|c rest] eqn:Hl.
    + apply lstrip_nil_blank. exact Hl.
    + apply lstrip_head in Hl. inversion Hinner; congruence.
  - intros Hs. rewrite (lstrip_blank s Hs). reflexivity.
Qed.

(** C8.  For a message that is empty or all whitespace, [respond] yields the
    history it was given, once, and ends; the world is left as it was: no
    training snapshot and no transcript is written ([files]), no request is
    posted ([posted]), nothing is printed. *)
Theorem respond_blank_message message chat_history profile w :
  Forall (fun c => isspace c = true) message ->
  let r := respond message chat_history profile w in
  yielded r = [chat_history] /\
  result r = Return tt /\
  final r = w /\
  files (final r) = files w /\
  posted (final r) = posted w.
Proof.
  intros Hblank r. subst r. unfold respond.
  apply strip_nil_iff in Hblank. rewrite Hblank.
  rewrite bool_decide_eq_true_2 by reflexivity.
  repeat split.
Qed.

Lemma respond_chunk_text message trimmed bot_message text w :
  respond_chunk message trimmed bot_message (JStr text) w
  = Run [trimmed ++ [(message, bot_message ++ text)]]
        (Return (bot_message ++ text)) w.
Proof. reflexivity. Qed.

Lemma respond_chunk_other message trimmed bot_message chunk w s :
  result (respond_chunk message trimmed bot_message chunk w) = Return s ->
  exists text, chunk = JStr text.
Proof.
  destruct chunk as [| | | |text| |]; try discriminate.
  intros _. exists text. reflexivity.
Qed.

(** The loop of [respond] over the fragments of the stream: if it ends
    without raising, every fragment was a string, each yield shows the reply
    grown by one fragment, and the world is untouched. *)
Lemma reply_loop_spec message trimmed chunks bot_message w s :
  let loop := for_each chunks bot_message (respond_chunk message trimmed) w in
  result loop = Return s ->
  exists fragments,
    chunks = map JStr fragments /\
    s = bot_message ++ concat fragments /\
    yielded loop
    = map (fun bot => trimmed ++ [(message, bot)])
          (growing_replies bot_message fragments) /\
    final loop = w.
Proof.
  revert bot_message.
  induction chunks as [|chunk chunks IH]; intros bot_message loop Hres.
  - exists []. simpl in *. injection Hres as <-.
    rewrite app_nil_r. repeat split; reflexivity.
  - subst loop. cbn [for_each] in *. unfold bind in *.
    destruct (result (respond_chunk message trimmed bot_message chunk w))
      as [s'|e] eqn:Hchunk; [|discriminate].
    destruct (respond_chunk_other _ _ _ _ _ _ Hchunk) as [text ->].
    rewrite respond_chunk_text in *. injection Hchunk as <-.
    cbn [result yielded final] in *.
    destruct (IH (bot_message ++ text) Hres) as (fragments & -> & -> & Hys & Hw).
    exists (text :: fragments). cbn [map concat growing_replies app].
    rewrite Hys, Hw, <- app_assoc. repeat split; reflexivity.
Qed.

Lemma call_deepseek_api_stream_returns prompt conversation profile w :
  result (call_deepseek_api_stream prompt conversation profile w) = Return tt.
Proof.
  rewrite call_deepseek_api_stream_cases. cbv zeta.
  destruct (remote w _) as [r|e]; [|reflexivity].
  destruct (status_code r =? 200); reflexivity.
Qed.

(** What the [try] of [respond] yields when it ends without raising. *)
Lemma respond_try_returns message chat_history profile w :
  result (respond_try message chat_history profile w) = Return tt ->
  let trimmed := trim_conversation chat_history (MAX_TOKENS / 2) in
  let stream := call_deepseek_api_stream message trimmed profile
                  (final (@save_training_data _ (list turn) message profile w)) in
  exists fragments,
    yielded stream = map JStr fragments /\
    yielded (respond_try message chat_history profile w)
    = map (fun bot => trimmed ++ [(message, bot)]) (growing_replies [] fragments)
      ++ [trimmed ++ [(message, concat fragments)]].
Proof.
  intros Hres trimmed stream.
  unfold respond_try in *. fold trimmed in Hres |- *.
  apply bind_result_inv in Hres as ([] & Hsnap & Hres).
  rewrite (bind_return _ _ _ _ Hsnap). cbn [yielded].
  rewrite silent_save_training_data. cbn [app].
  assert (Hstream : result stream = Return tt)
    by apply call_deepseek_api_stream_returns.
  apply bind_result_inv in Hres as (bot & Hloop & Hres).
  rewrite (bind_return _ _ _ _ Hloop). cbn [yielded].
  rewrite for_gen_returned in Hloop, Hres |- * by exact Hstream.
  fold stream in Hloop, Hres |- *.
  destruct (reply_loop_spec message trimmed (yielded stream) [] (final stream)
              bot Hloop) as (fragments & Hchunks & -> & Hys & Hw).
  exists fragments. split; [exact Hchunks|].
  apply bind_result_inv in Hres as ([] & Hsave & _).
  rewrite (bind_return _ _ _ _ Hsave). cbn [yielded yield].
  rewrite silent_save_conversation, Hys. reflexivity.
Qed.

Lemma reply_loop_texts message trimmed fragments bot_message w :
  for_each (map JStr fragments) bot_message (respond_chunk message trimmed) w
  = Run (map (fun bot => trimmed ++ [(message, bot)])
             (growing_replies bot_message fragments))
        (Return (bot_message ++ concat fragments)) w.
Proof.
  revert bot_message.
  induction fragments as [|text fragments IH]; intros bot_message.
  - simpl. rewrite app_nil_r. reflexivity.
  - cbn [map for_each]. unfold bind. rewrite respond_chunk_text.
    cbn [result yielded final]. rewrite IH.
    cbn [result yielded final concat growing_replies map app].
    rewrite <- app_assoc. reflexivity.
Qed.

(** When every fragment is a string and the transcript can be written, the
    [try] of [respond] ends without raising. *)
Lemma respond_try_sufficient message chat_history profile w fragments :
  let trimmed := trim_conversation chat_history (MAX_TOKENS / 2) in
  let stream := call_deepseek_api_stream message trimmed profile
                  (final (@save_training_data _ (list turn) message profile w)) in
  yielded stream = map JStr fragments ->
  result (@save_conversation _ (list turn)
            (trimmed ++ [(message, concat fragments)]) (final stream))
  = Return tt ->
  result (respond_try message chat_history profile w) = Return tt.
Proof.
  intros trimmed stream Hchunks Hsave.
  assert (Hstream : result stream = Return tt)
    by apply call_deepseek_api_stream_returns.
  assert (Hgen : for_gen (call_deepseek_api_stream message trimmed profile) []
                   (respond_chunk message trimmed)
                   (final (@save_training_data _ (list turn) message profile w))
                 = Run (map (fun bot => trimmed ++ [(message, bot)])
                            (growing_replies [] fragments))
                       (Return (concat fragments)) (final stream)).
  { rewrite for_gen_returned by exact Hstream. fold stream.
    rewrite Hchunks. apply reply_loop_texts. }
  unfold respond_try. fold trimmed.
  rewrite (bind_result_return _ _ _ tt (save_training_data_returns message profile w)).
  rewrite (bind_result_return _ _ _ (concat fragments))
    by (rewrite Hgen; reflexivity).
  rewrite Hgen.
  rewrite (bind_result_return _ _ _ tt Hsave).
  reflexivity.
Qed.

Lemma map_JStr_inj fragments1 fragments2 :
  map JStr fragments1 = map JStr fragments2 -> fragments1 = fragments2.
Proof.
  revert fragments2.
  induction fragments1 as [|t fragments1 IH]; intros [|t' fragments2] Heq;
    try discriminate; [reflexivity|].
  injection Heq as -> Heq. f_equal. exact (IH _ Heq).
Qed.

(** When its [try] ends without raising, [respond] yields what the [try]
    yields. *)
Lemma respond_when_try_returns message chat_history profile w :
  strip message <> [] ->
  result (respond_try message chat_history profile w) = Return tt ->
  respond message chat_history profile w
  = respond_try message chat_history profile w.
Proof.
  intros Hstrip Hres. unfold respond.
  rewrite bool_decide_eq_false_2 by exact Hstrip.
  unfold try_except. rewrite Hres. reflexivity.
Qed.

(** C10.  For a message with a character that is not whitespace, when the
    [try] of [respond] runs to its end without raising, that is, when every
    fragment of the stream is a string and [save_conversation] does not
    raise, the conversations [respond] yields are the trimmed history with
    one turn appended whose user part is the message and whose bot part
    grows by one fragment per yield; the last one carries the concatenation
    of all the fragments, in the order the stream yielded them.  The trimmed
    turns are the same in every yield. *)
Theorem respond_final_conversation message chat_history profile w fragments :
  Exists (fun c => isspace c = false) message ->
  let trimmed := trim_conversation chat_history (MAX_TOKENS / 2) in
  let stream := call_deepseek_api_stream message trimmed profile
                  (final (@save_training_data _ (list turn) message profile w)) in
  yielded stream = map JStr fragments ->
  result (@save_conversation _ (list turn)
            (trimmed ++ [(message, concat fragments)]) (final stream))
  = Return tt ->
  yielded (respond message chat_history profile w)
  = map (fun bot => trimmed ++ [(message, bot)]) (growing_replies [] fragments)
    ++ [trimmed ++ [(message, concat fragments)]] /\
  last (yielded (respond message chat_history profile w))
  = Some (trimmed ++ [(message, concat fragments)]) /\
  Forall (fun conversation => exists bot, conversation = trimmed ++ [(message, bot)])
         (yielded (respond message chat_history profile w)).
Proof.
  intros Hmessage trimmed stream Hchunks Hsave.
  assert (Hstrip : strip message <> []).
  { intros Hnil. apply strip_nil_iff in Hnil.
    apply Exists_exists in Hmessage as (c & Hin & Hc).
    rewrite Forall_forall in Hnil. rewrite (Hnil c) in Hc; [discriminate|].
    exact Hin. }
  pose proof (respond_try_sufficient message chat_history profile w fragments
                Hchunks Hsave) as Hres.
  rewrite (respond_when_try_returns message chat_history profile w Hstrip Hres).
  destruct (respond_try_returns message chat_history profile w Hres)
    as (fragments' & Hchunks' & Hys).
  fold trimmed in Hys. fold trimmed stream in Hchunks'.
  rewrite Hchunks in Hchunks'. apply map_JStr_inj in Hchunks'. subst fragments'.
  rewrite Hys.
  split; [reflexivity|]. split; [apply last_snoc|].
  apply Forall_app. split.
  - apply Forall_map. apply Forall_forall. intros bot _. exists bot. reflexivity.
  - constructor; [|constructor]. exists (concat fragments). reflexivity.
Qed.

End Responding.

(** ** Decimal numerals and file names *)

Lemma bytes_of_string_inj s1 s2 :
  bytes_of_string s1 = bytes_of_string s2 -> s1 = s2.
Proof.
  unfold bytes_of_string. intros Heq.
  rewrite <- (String.string_of_list_ascii_of_string s1),
          <- (String.string_of_list_ascii_of_string s2).
  f_equal.
  assert (Hback : forall l, map ascii_of_N (map N_of_ascii l) = l).
  { induction l as [|a l IH]; simpl; [reflexivity|].
    rewrite ascii_N_embedding, IH. reflexivity. }
  rewrite <- (Hback (String.list_ascii_of_string s1)), Heq. apply Hback.
Qed.

Lemma to_int_not_nil z :
  Z.to_int z <> Decimal.Pos Decimal.Nil /\ Z.to_int z <> Decimal.Neg Decimal.Nil.
Proof.
  destruct z as [|p|p]; simpl; split; try discriminate;
    intros [= Hnil]; exact (DecimalPos.Unsigned.to_uint_nonnil p Hnil).
Qed.

(** [str(n)] determines [n]. *)
Lemma str_of_Z_inj a b : str_of_Z a = str_of_Z b -> a = b.
Proof.
  unfold str_of_Z. intros Heq. apply bytes_of_string_inj in Heq.
  apply DecimalZ.to_int_inj.
  destruct (to_int_not_nil a) as [Ha1 Ha2], (to_int_not_nil b) as [Hb1 Hb2].
  pose proof (DecimalString.NilZero.isi _ Ha1 Ha2) as Hpa.
  pose proof (DecimalString.NilZero.isi _ Hb1 Hb2) as Hpb.
  rewrite Heq in Hpa. congruence.
Qed.

(** Part files with different numbers have different names. *)
Lemma part_filename_inj base i j :
  part_filename base i = part_filename base j -> i = j.
Proof.
  unfold part_filename. intros Heq.
  apply app_inv_head in Heq. apply app_inv_head in Heq.
  apply app_inv_tail in Heq. apply str_of_Z_inj in Heq. lia.
Qed.

(** ** Slices of a text *)

Section Chunks.
Context {A : Type} (text : list A) (size : Z) (Hsize : 0 < size).

Lemma py_slice_chunk (k : nat) :
  py_slice text (Z.of_nat k * size) (Some ((Z.of_nat k + 1) * size))
  = take (Z.to_nat (Z.min ((Z.of_nat k + 1) * size) (Z.of_nat (length text)))
          - Z.to_nat (Z.min (Z.of_nat k * size) (Z.of_nat (length text))))
         (drop (Z.to_nat (Z.min (Z.of_nat k * size) (Z.of_nat (length text)))) text).
Proof.
  unfold py_slice, slice_index.
  destruct (Z.ltb_spec (Z.of_nat k * size) 0) as [Hneg|_]; [nia|].
  destruct (Z.ltb_spec ((Z.of_nat k + 1) * size) 0) as [Hneg|_]; [nia|].
  reflexivity.
Qed.

(** The first [k] chunks, in order, make up the first [k * size]
    characters. *)
Lemma chunks_concat (k : nat) :
  concat (map (fun i => py_slice text (i * size) (Some ((i + 1) * size)))
              (range (Z.of_nat k)))
  = take (Z.to_nat (Z.min (Z.of_nat k * size) (Z.of_nat (length text)))) text.
Proof.
  unfold range. rewrite Nat2Z.id.
  induction k as [|k IH].
  - simpl. rewrite Z.min_l by lia. reflexivity.
  - rewrite seq_S, !List.map_app, concat_app, IH. cbn [map concat Nat.add].
    rewrite app_nil_r, py_slice_chunk.
    set (a := Z.to_nat (Z.min (Z.of_nat k * size) (Z.of_nat (length text)))).
    set (b := Z.to_nat (Z.min ((Z.of_nat k + 1) * size) (Z.of_nat (length text)))).
    replace (Z.of_nat (S k) * size) with ((Z.of_nat k + 1) * size) by lia.
    fold b.
    assert (Hab : (a <= b)%nat) by (subst a b; nia).
    rewrite take_take_drop. f_equal. lia.
Qed.

(** [length // size + 1] chunks make up the whole text. *)
Lemma chunks_cover :
  concat (map (fun i => py_slice text (i * size) (Some ((i + 1) * size)))
              (range (Z.of_nat (length text) / size + 1)))
  = text.
Proof.
  pose proof (Z.div_pos (Z.of_nat (length text)) size ltac:(lia) Hsize) as Hq.
  pose proof (Z.mul_succ_div_gt (Z.of_nat (length text)) size Hsize) as Hgt.
  rewrite <- (Z2Nat.id (Z.of_nat (length text) / size + 1)) by lia.
  rewrite chunks_concat.
  rewrite Z2Nat.id by lia.
  rewrite Z.min_r by nia.
  rewrite Nat2Z.id. apply firstn_all.
Qed.

End Chunks.

Section Persistence.
Context `{Externals}.

(** A loop of writes that ends without raising has inserted each file in
    turn. *)
Lemma write_each_run {Y} (path part : Z -> str) indices w :
  result (for_each indices tt (fun _ i => @write_file Y (path i) (part i)) w)
  = Return tt ->
  final (for_each indices tt (fun _ i => @write_file Y (path i) (part i)) w)
  = World (foldl (fun fs i => <[path i := part i]> fs) (files w) indices)
          (unwritable w) (clock w) (ticks w) (remote w) (posted w) (stdout w).
Proof.
  revert w. induction indices as [|i indices IH]; intros w Hres.
  - destruct w. reflexivity.
  - cbn [for_each] in *.
    apply bind_result_inv in Hres as ([] & Hwrite & Hres).
    rewrite (bind_return _ _ _ _ Hwrite). cbn [final].
    rewrite (IH _ Hres).
    unfold write_file in *. destruct (unwritable w (path i)); [discriminate|].
    reflexivity.
Qed.

Lemma lookup_foldl_insert_other (path part : Z -> str) (indices : list Z)
    (fs : gmap (list N) (list N)) p :
  (forall i, i ∈ indices -> path i <> p) ->
  foldl (fun fs i => <[path i := part i]> fs) fs indices !! p = fs !! p.
Proof.
  revert fs. induction indices as [|i indices IH]; intros fs Hother.
  - reflexivity.
  - cbn [foldl]. rewrite IH.
    + apply lookup_insert_ne. apply Hother. left.
    + intros j Hj. apply Hother. right. exact Hj.
Qed.

Lemma lookup_foldl_insert (path part : Z -> str) (indices : list Z)
    (fs : gmap (list N) (list N)) i :
  (forall j k, path j = path k -> j = k) ->
  i ∈ indices ->
  foldl (fun fs i => <[path i := part i]> fs) fs indices !! path i
  = Some (part i).
Proof.
  intros Hinj. revert fs.
  induction indices as [|j indices IH]; intros fs Hin.
  - inversion Hin.
  - cbn [foldl].
    destruct (decide (i ∈ indices)) as [Hrest|Hrest]; [apply IH, Hrest|].
    apply elem_of_cons in Hin as [->|Hin]; [|contradiction].
    rewrite lookup_foldl_insert_other.
    + apply lookup_insert_eq.
    + intros k Hk Heq. apply Hinj in Heq. subst k. contradiction.
Qed.

Lemma mapM_lookup_parts (written : gmap (list N) (list N)) base text indices :
  (forall i, i ∈ indices ->
     written !! part_filename base i = Some (transcript_part text i)) ->
  mapM (fun i => written !! part_filename base i) indices
  = Some (map (transcript_part text) indices).
Proof.
  intros Hparts. apply mapM_Some.
  induction indices as [|i indices IH]; simpl; constructor.
  - apply Hparts. left.
  - apply IH. intros j Hj. apply Hparts. right. exact Hj.
Qed.

Lemma elem_of_range i n : i ∈ range n <-> 0 <= i < n.
Proof.
  unfold range. rewrite list_elem_of_fmap. split.
  - intros (k & -> & Hk). apply elem_of_seq in Hk. lia.
  - intros Hi. exists (Z.to_nat i). split; [lia|].
    apply elem_of_seq. lia.
Qed.

(** C4.  When [save_conversation] ends without raising: if the serialized
    conversation is longer than [MAX_CONVERSATION_LENGTH], reading the part
    files [_part1], [_part2], ... in ascending order of their number (there
    are [length // MAX_CONVERSATION_LENGTH + 1] of them) and concatenating
    what they hold gives back the serialized conversation exactly, and no
    other file is touched; otherwise the one file [<base>.json] is written
    and holds exactly the serialized conversation.  Files hold text, so
    "exactly" is character for character. *)
Theorem save_conversation_reassembles {Y} conversation w :
  result (@save_conversation _ Y conversation w) = Return tt ->
  let text := conversation_text conversation in
  let base := transcript_base w in
  let written := files (final (@save_conversation _ Y conversation w)) in
  if Z.of_nat (length text) >? MAX_CONVERSATION_LENGTH then
    let count := Z.of_nat (length text) / MAX_CONVERSATION_LENGTH + 1 in
    (exists parts,
       mapM (fun i => written !! part_filename base i) (range count) = Some parts /\
       concat parts = text) /\
    (forall path,
       (forall i, 0 <= i < count -> path <> part_filename base i) ->
       written !! path = files w !! path)
  else
    written = <[base ++ u ".json" := text]> (files w).
Proof.
  intros Hres text base. cbv zeta.
  unfold save_conversation in Hres |- *.
  apply bind_result_inv in Hres as (ts & Hnow & Hres).
  rewrite (bind_return _ _ _ _ Hnow). cbn [final].
  unfold now in Hnow, Hres |- *. cbn [result final] in Hnow, Hres |- *.
  injection Hnow as <-.
  fold (conversation_text conversation) in Hres |- *.
  fold (transcript_base w) in Hres |- *. fold text base in Hres |- *.
  destruct (Z.of_nat (length text) >? MAX_CONVERSATION_LENGTH).
  - set (count := Z.of_nat (length text) / MAX_CONVERSATION_LENGTH + 1) in *.
    set (w1 := World _ _ _ _ _ _ _) in *.
    change (for_each (range count) tt _ w1)
      with (for_each (range count) tt
              (fun _ i => @write_file Y (part_filename base i)
                                      (transcript_part text i)) w1) in Hres |- *.
    apply write_each_run in Hres. rewrite Hres. cbn [files].
    split.
    + exists (map (transcript_part text) (range count)). split.
      * apply mapM_lookup_parts. intros i Hi.
        apply (lookup_foldl_insert (part_filename base) (transcript_part text));
          [apply part_filename_inj | exact Hi].
      * apply chunks_cover. reflexivity.
    + intros path Hpath.
      apply (lookup_foldl_insert_other (part_filename base) (transcript_part text)).
      intros i Hi Heq. apply elem_of_range in Hi.
      exact (Hpath i Hi (eq_sym Heq)).
  - unfold write_file in *. cbn [unwritable files] in *.
    destruct (unwritable w (base ++ u ".json")); [discriminate|]. reflexivity.
Qed.

(** C7.  When [profile.json] is absent (and can be created), [load_profile]
    writes the default document to [profile.json] and returns the default
    profile: name "用户", age 20, profession "未设置", interests ["未设置"],
    memory [].  It does not return [None]. *)
Theorem load_profile_creates_default {Y} w :
  files w !! u "profile.json" = None ->
  unwritable w (u "profile.json") = None ->
  let r := @load_profile _ Y w in
  result r = Return (JDict [(u "name", JStr (u "用户"));
                            (u "age", JInt 20);
                            (u "profession", JStr (u "未设置"));
                            (u "interests", JList [JStr (u "未设置")]);
                            (u "memory", JList [])]) /\
  result r = Return (profile_json {| name := u "用户"; age := 20;
                                     profession := u "未设置";
                                     interests := [u "未设置"];
                                     memory := [] |}) /\
  result r <> Return JNull /\
  files (final r)
  = <[u "profile.json" := json_dumps (Some 2%nat) default_profile]> (files w).
Proof.
  intros Habsent Hwritable r. subst r.
  unfold load_profile, try_except, bind, read_file.
  rewrite Habsent. cbn [result yielded final].
  change (isinstance _ FileNotFoundError) with true. cbv iota.
  unfold print, write_file. cbn [result yielded final unwritable files].
  rewrite Hwritable. cbn [result yielded final files].
  repeat split. discriminate.
Qed.

End Persistence.

(** C1 at an instance: a two-turn history and a budget of ten tokens: the older
    turn is dropped although it would fit alone. *)
Lemma trim_conversation_longest_suffix_witness :
  0 <= 10 /\
  @trim_conversation Demo.externals Sample.history 10 = [(u "hello", u "world")] /\
  @conversation_tokens Demo.externals
    (@trim_conversation Demo.externals Sample.history 10) <= 10.
Proof.
  split; [lia|]. split; [reflexivity|].
  apply (@trim_conversation_longest_suffix Demo.externals Sample.history 10).
  lia.
Defined.

(** C2 as stated fails, the returned messages can cost more than
    [MAX_TOKENS]: for [Sample.crowded_profile], an empty conversation and an
    empty new message, the list returned is the system message alone and
    costs more than [MAX_TOKENS]. *)
Lemma prepare_api_messages_over_ceiling :
  @prepare_api_messages Demo.externals [] Sample.crowded_profile []
  = [system_prompt Sample.crowded_profile] /\
  ~ @messages_tokens Demo.externals
      (@prepare_api_messages Demo.externals [] Sample.crowded_profile [])
    <= MAX_TOKENS.
Proof.
  split; [vm_compute; reflexivity|].
  vm_compute. intros Hle. apply Hle. reflexivity.
Qed.

(** C5 at an instance: an endpoint that answers 500; the single fragment
    contains "500". *)
Lemma stream_reports_status_witness :
  (500 <> 200) /\
  yielded (@call_deepseek_api_stream Demo.externals (u "hi") []
             Sample.profile Sample.failing_endpoint)
  = [JStr (u "[API 错误] 状态码: 500")].
Proof.
  split; [discriminate|].
  apply (@stream_reports_status Demo.externals (u "hi") [] Sample.profile
           Sample.failing_endpoint
           {| status_code := 500; lines := []; broken := None |});
    [reflexivity | discriminate].
Defined.

(** C4 at an instance: a conversation of about 25000 characters, saved in a
    world where every path can be written: three part files, which read in
    order give back the serialization. *)
Lemma save_conversation_reassembles_witness :
  result (@save_conversation Demo.externals unit Sample.long_conversation
            Sample.failing_endpoint) = Return tt /\
  exists parts,
    mapM (fun i =>
            files (final (@save_conversation Demo.externals unit
                            Sample.long_conversation Sample.failing_endpoint))
            !! part_filename (transcript_base Sample.failing_endpoint) i)
         (range 3) = Some parts /\
    concat parts = @conversation_text Demo.externals Sample.long_conversation.
Proof.
  assert (Hres : result (@save_conversation Demo.externals unit
                           Sample.long_conversation Sample.failing_endpoint)
                 = Return tt) by (vm_compute; reflexivity).
  split; [exact Hres|].
  pose proof (@save_conversation_reassembles Demo.externals unit
                Sample.long_conversation Sample.failing_endpoint Hres) as Hparts.
  cbv zeta in Hparts.
  assert (Hlong : (Z.of_nat (length (@conversation_text Demo.externals
                                       Sample.long_conversation))
                   >? MAX_CONVERSATION_LENGTH) = true) by (vm_compute; reflexivity).
  assert (Hcount : Z.of_nat (length (@conversation_text Demo.externals
                                       Sample.long_conversation))
                   / MAX_CONVERSATION_LENGTH + 1 = 3) by (vm_compute; reflexivity).
  rewrite Hlong, Hcount in Hparts. exact (proj1 Hparts).
Defined.

(** C7 at an instance: a world without [profile.json]. *)
Lemma load_profile_creates_default_witness :
  files Sample.failing_endpoint !! u "profile.json" = None /\
  unwritable Sample.failing_endpoint (u "profile.json") = None /\
  result (@load_profile Demo.externals unit Sample.failing_endpoint)
  = Return (profile_json {| name := u "用户"; age := 20;
                            profession := u "未设置";
                            interests := [u "未设置"];
                            memory := [] |}).
Proof.
  assert (Habsent : files Sample.failing_endpoint !! u "profile.json" = None)
    by apply lookup_empty.
  assert (Hwritable : unwritable Sample.failing_endpoint (u "profile.json") = None)
    by reflexivity.
  split; [exact Habsent|]. split; [exact Hwritable|].
  apply (@load_profile_creates_default Demo.externals unit
           Sample.failing_endpoint Habsent Hwritable).
Defined.

(** C8 at an instance: a message of a space, a tab and an ideographic
    space. *)
Lemma respond_blank_message_witness :
  Forall (fun c => isspace c = true) [32; 9; 12288]%N /\
  yielded (@respond Demo.externals [32; 9; 12288]%N Sample.history
             Sample.profile Sample.streaming_endpoint) = [Sample.history] /\
  final (@respond Demo.externals [32; 9; 12288]%N Sample.history
           Sample.profile Sample.streaming_endpoint) = Sample.streaming_endpoint.
Proof.
  assert (Hblank : Forall (fun c => isspace c = true) [32; 9; 12288]%N)
    by (repeat constructor).
  split; [exact Hblank|].
  pose proof (@respond_blank_message Demo.externals [32; 9; 12288]%N
                Sample.history Sample.profile Sample.streaming_endpoint Hblank)
    as Hnoop.
  cbv zeta in Hnoop. split; [apply Hnoop|apply Hnoop].
Defined.

(** C10 at an instance: the message "hi" and an endpoint that streams "Hel"
    and "lo". *)
Lemma respond_final_conversation_witness :
  Exists (fun c => isspace c = false) (u "hi") /\
  yielded (@call_deepseek_api_stream Demo.externals (u "hi")
             (@trim_conversation Demo.externals Sample.history (MAX_TOKENS / 2))
             Sample.profile
             (final (@save_training_data Demo.externals (list turn) (u "hi")
                       Sample.profile Sample.streaming_endpoint)))
  = map JStr [u "Hel"; u "lo"] /\
  last (yielded (@respond Demo.externals (u "hi") Sample.history
                   Sample.profile Sample.streaming_endpoint))
  = Some (@trim_conversation Demo.externals Sample.history (MAX_TOKENS / 2)
          ++ [(u "hi", concat [u "Hel"; u "lo"])]).
Proof.
  assert (Hmessage : Exists (fun c => isspace c = false) (u "hi"))
    by (left; reflexivity).
  assert (Hchunks :
    yielded (@call_deepseek_api_stream Demo.externals (u "hi")
               (@trim_conversation Demo.externals Sample.history (MAX_TOKENS / 2))
               Sample.profile
               (final (@save_training_data Demo.externals (list turn) (u "hi")
                         Sample.profile Sample.streaming_endpoint)))
    = map JStr [u "Hel"; u "lo"]) by (vm_compute; reflexivity).
  split; [exact Hmessage|]. split; [exact Hchunks|].
  apply (@respond_final_conversation Demo.externals (u "hi") Sample.history
           Sample.profile Sample.streaming_endpoint [u "Hel"; u "lo"]
           Hmessage Hchunks).
  vm_compute. reflexivity.
Defined.

(** What [respond] yields in that world: the history with the reply growing
    from "Hel" to "Hello", then the full conversation once more. *)
Example respond_streaming_example :
  yielded (@respond Demo.externals (u "hi") Sample.history Sample.profile
             Sample.streaming_endpoint)
  = [Sample.history ++ [(u "hi", u "Hel")];
     Sample.history ++ [(u "hi", u "Hello")];
     Sample.history ++ [(u "hi", u "Hello")]].
Proof. vm_compute. reflexivity. Qed.

(** C10 as stated fails, a completed stream does not settle the final
    conversation when [save_conversation] raises: with a transcript directory
    that cannot be written, the stream completes normally with its one
    fragment, and the last conversation [respond] yields is the untrimmed
    history with an error turn instead. *)
Lemma respond_save_failure :
  result (@call_deepseek_api_stream Demo.externals (u "hi")
            (@trim_conversation Demo.externals Sample.history (MAX_TOKENS / 2))
            Sample.profile
            (final (@save_training_data Demo.externals (list turn) (u "hi")
                      Sample.profile Sample.read_only_transcripts)))
  = Return tt /\
  yielded (@call_deepseek_api_stream Demo.externals (u "hi")
             (@trim_conversation Demo.externals Sample.history (MAX_TOKENS / 2))
             Sample.profile
             (final (@save_training_data Demo.externals (list turn) (u "hi")
                       Sample.profile Sample.read_only_transcripts)))
  = [JStr (u "[API 错误] 状态码: 500")] /\
  last (yielded (@respond Demo.externals (u "hi") Sample.history Sample.profile
                   Sample.read_only_transcripts))
  = Some (Sample.history
          ++ [(u "hi", u "发生错误: [Errno 30] Read-only file system")]) /\
  last (yielded (@respond Demo.externals (u "hi") Sample.history Sample.profile
                   Sample.read_only_transcripts))
  <> Some (@trim_conversation Demo.externals Sample.history (MAX_TOKENS / 2)
           ++ [(u "hi", u "[API 错误] 状态码: 500")]).
Proof.
  split; [vm_compute; reflexivity|].
  split; [vm_compute; reflexivity|].
  split; [vm_compute; reflexivity|].
  vm_compute. discriminate.
Qed.

(** X1 at an instance: the last turn of [Sample.history] costs ten tokens
    and is kept under a budget of ten. *)
Lemma trim_conversation_keeps_last_witness :
  @turn_tokens Demo.externals (u "hello", u "world") <= 10 /\
  exists kept,
    @trim_conversation Demo.externals ([(u "a", u "b")] ++ [(u "hello", u "world")]) 10
    = kept ++ [(u "hello", u "world")].
Proof.
  assert (Hfits : @turn_tokens Demo.externals (u "hello", u "world") <= 10)
    by (vm_compute; discriminate).
  split; [exact Hfits|].
  apply (@trim_conversation_keeps_last Demo.externals [(u "a", u "b")]
           (u "hello", u "world") 10 Hfits).
Defined.

(** X2 at an instance: the second line of [Sample.untidy_endpoint] is not
    JSON; without it the stream is the same. *)
Lemma malformed_line_is_skipped_witness :
  @lines_loop Demo.externals Sample.untidy_endpoint Sample.failing_endpoint
  = @lines_loop Demo.externals
      (with_lines Sample.untidy_endpoint
         ([Sample.data_line (Sample.content_chunk (u "Hel"))]
          ++ [Sample.data_line (Sample.content_chunk (u "lo"));
              Sample.data_line (u "[DONE]");
              Sample.data_line (Sample.content_chunk (u "!"))]))
      Sample.failing_endpoint.
Proof.
  apply (@malformed_line_is_skipped Demo.externals Sample.untidy_endpoint
           [Sample.data_line (Sample.content_chunk (u "Hel"))]
           (Sample.data_line (u "{"))
           [Sample.data_line (Sample.content_chunk (u "lo"));
            Sample.data_line (u "[DONE]");
            Sample.data_line (Sample.content_chunk (u "!"))]
           (Sample.data_line (u "{"))
           (Exn JSONDecodeError (u "Expecting value")));
    vm_compute; reflexivity.
Defined.

(** X3 at an instance: the fourth line of [Sample.untidy_endpoint] is the
    end marker; without it the stream is the same. *)
Lemma done_line_does_not_end_stream_witness :
  @lines_loop Demo.externals Sample.untidy_endpoint Sample.failing_endpoint
  = @lines_loop Demo.externals
      (with_lines Sample.untidy_endpoint
         ([Sample.data_line (Sample.content_chunk (u "Hel"));
           Sample.data_line (u "{");
           Sample.data_line (Sample.content_chunk (u "lo"))]
          ++ [Sample.data_line (Sample.content_chunk (u "!"))]))
      Sample.failing_endpoint.
Proof.
  apply (@done_line_does_not_end_stream Demo.externals Sample.untidy_endpoint
           [Sample.data_line (Sample.content_chunk (u "Hel"));
            Sample.data_line (u "{");
            Sample.data_line (Sample.content_chunk (u "lo"))]
           (Sample.data_line (u "[DONE]"))
           [Sample.data_line (Sample.content_chunk (u "!"))]
           (Sample.data_line (u "[DONE]")));
    vm_compute; reflexivity.
Defined.

(** What the stream yields for [Sample.untidy_endpoint]: the three
    fragments, the one after the end marker included. *)
Example untidy_stream_example :
  yielded (@call_deepseek_api_stream Demo.externals (u "hi") [] Sample.profile
             (Sample.answers (Return Sample.untidy_endpoint)))
  = [JStr (u "Hel"); JStr (u "lo"); JStr (u "!")].
Proof. vm_compute. reflexivity. Qed.

(** A serialization of 25000 characters is saved as three part files
    of 10000, 10000 and 5000 characters; there is no fourth. *)
Example save_conversation_25000 :
  Z.of_nat (length (@conversation_text Demo.externals Sample.conversation_25000))
  = 25000 /\
  map (fun i =>
         (fun part => Z.of_nat (length part)) <$>
         files (final (@save_conversation Demo.externals unit
                         Sample.conversation_25000 Sample.failing_endpoint))
         !! part_filename (transcript_base Sample.failing_endpoint) i)
      (range 4)
  = [Some 10000; Some 10000; Some 5000; None].
Proof. split; vm_compute; reflexivity. Qed.

(** * Further properties of trimming *)

Section TrimmingMore.
Context `{Externals}.

Lemma trim_conversation_noop conversation max_tokens :
  conversation_tokens conversation <= max_tokens ->
  trim_conversation conversation max_tokens = conversation.
Proof.
  intros Hfits.
  destruct (trim_conversation_split conversation max_tokens)
    as (dropped & Hsplit & [->|(older & item & -> & Hgt)] & _).
  - simpl in Hsplit. symmetry. exact Hsplit.
  - exfalso. rewrite Hsplit in Hfits.
    rewrite !conversation_tokens_app in Hfits. simpl in Hfits.
    pose proof (conversation_tokens_nonneg older). lia.
Qed.

Lemma trim_conversation_negative conversation max_tokens :
  max_tokens < 0 -> trim_conversation conversation max_tokens = [].
Proof.
  intros Hneg. unfold trim_conversation.
  destruct (rev conversation) as [|[user_msg bot_msg] items]; [reflexivity|].
  cbn [trim_loop].
  pose proof (count_tokens_nonneg user_msg).
  pose proof (count_tokens_nonneg bot_msg).
  destruct (Z.gtb_spec (0 + (count_tokens user_msg + count_tokens bot_msg))
              max_tokens); [reflexivity|lia].
Qed.

Lemma trim_conversation_longest conversation max_tokens s :
  s `suffix_of` conversation ->
  conversation_tokens s <= max_tokens ->
  (length s <= length (trim_conversation conversation max_tokens))%nat.
Proof.
  intros [k Hk] Hcost.
  destruct (trim_conversation_split conversation max_tokens)
    as (dropped & Hsplit & [->|(older & item & -> & Hgt)] & _).
  - simpl in Hsplit. rewrite <- Hsplit, Hk, length_app. lia.
  - destruct (le_lt_dec (length s)
                (length (trim_conversation conversation max_tokens)))
      as [Hle|Hlt]; [exact Hle|].
    exfalso.
    destruct (longer_suffix older item
                (trim_conversation conversation max_tokens) k s) as [s' ->];
      [congruence | exact Hlt |].
    rewrite conversation_tokens_app in Hcost. simpl in Hcost.
    pose proof (conversation_tokens_nonneg s'). lia.
Qed.

(** Of two suffixes of one list, the shorter is a suffix of the longer. *)
Lemma suffix_of_longer {A} (l s1 s2 : list A) :
  s1 `suffix_of` l -> s2 `suffix_of` l ->
  (length s1 <= length s2)%nat -> s1 `suffix_of` s2.
Proof.
  intros [k1 H1] [k2 H2] Hlen.
  assert (Hk : (length k2 <= length k1)%nat).
  { apply (f_equal length) in H1. apply (f_equal length) in H2.
    rewrite length_app in H1, H2. lia. }
  exists (drop (length k2) k1).
  assert (Hs2 : s2 = drop (length k2) l) by (rewrite H2, drop_app_length; reflexivity).
  rewrite Hs2, H1. rewrite drop_app_le by exact Hk. reflexivity.
Qed.

(** X4.  A conversation whose whole cost is within the budget is returned
    unchanged. *)
Theorem trim_conversation_within_budget conversation max_tokens :
  conversation_tokens conversation <= max_tokens ->
  trim_conversation conversation max_tokens = conversation.
Proof. apply trim_conversation_noop. Qed.

(** X5.  Under a negative budget nothing is kept, whatever the
    conversation. *)
Theorem trim_conversation_negative_budget conversation max_tokens :
  max_tokens < 0 -> trim_conversation conversation max_tokens = [].
Proof. apply trim_conversation_negative. Qed.

(** X6.  Trimming is idempotent: trimming a trimmed conversation again under
    the same budget changes nothing. *)
Theorem trim_conversation_idempotent conversation max_tokens :
  trim_conversation (trim_conversation conversation max_tokens) max_tokens
  = trim_conversation conversation max_tokens.
Proof.
  destruct (Z.lt_ge_cases max_tokens 0) as [Hneg|Hpos].
  - rewrite (trim_conversation_negative conversation max_tokens Hneg).
    reflexivity.
  - apply trim_conversation_noop.
    destruct (trim_conversation_split conversation max_tokens)
      as (_ & _ & _ & Hfit).
    apply Hfit. lia.
Qed.

(** X7.  A larger budget keeps at least as much: what is kept under a budget
    is a suffix of what is kept under any larger budget. *)
Theorem trim_conversation_monotone conversation max_tokens max_tokens' :
  max_tokens <= max_tokens' ->
  trim_conversation conversation max_tokens
  `suffix_of` trim_conversation conversation max_tokens'.
Proof.
  intros Hle.
  destruct (Z.lt_ge_cases max_tokens 0) as [Hneg|Hpos].
  - rewrite (trim_conversation_negative conversation max_tokens Hneg).
    apply suffix_nil.
  - destruct (trim_conversation_split conversation max_tokens)
      as (dropped & Hsplit & _ & Hfit).
    destruct (trim_conversation_split conversation max_tokens')
      as (dropped' & Hsplit' & _ & _).
    apply (suffix_of_longer conversation).
    + exists dropped. exact Hsplit.
    + exists dropped'. exact Hsplit'.
    + apply trim_conversation_longest.
      * exists dropped. exact Hsplit.
      * specialize (Hfit ltac:(lia)). lia.
Qed.

End TrimmingMore.

(** * Further properties of the API messages *)

Section PreparingMore.
Context `{Externals}.

(** Where the history loop stops: after all its turns, or in front of the
    first turn that would pass [MAX_TOKENS]. *)
Lemma history_loop_stop items messages tokens_used :
  exists kept rest,
    items = kept ++ rest /\
    history_loop items messages tokens_used
    = (messages ++ flat_map turn_messages kept,
       tokens_used + conversation_tokens kept) /\
    (rest = [] \/
     exists item rest', rest = item :: rest' /\
       tokens_used + conversation_tokens kept + turn_tokens item > MAX_TOKENS).
Proof.
  revert messages tokens_used.
  induction items as [|[user_msg bot_msg] items IH]; intros messages tokens_used.
  - exists [], []. simpl. rewrite app_nil_r, Z.add_0_r.
    repeat split. now left.
  - simpl.
    destruct (Z.gtb_spec (tokens_used + (count_tokens user_msg + count_tokens bot_msg))
                MAX_TOKENS) as [Hover|Hfits].
    + exists [], ((user_msg, bot_msg) :: items). simpl.
      rewrite app_nil_r, Z.add_0_r. repeat split.
      right. exists (user_msg, bot_msg), items. split; [reflexivity|].
      unfold turn_tokens. simpl. lia.
    + destruct (IH (messages ++ [user_message user_msg; assistant_message bot_msg])
                   (tokens_used + (count_tokens user_msg + count_tokens bot_msg)))
        as (kept & rest & Hitems & Hres & Hstop).
      exists ((user_msg, bot_msg) :: kept), rest.
      split; [now rewrite Hitems|].
      split.
      { rewrite Hres, <- app_assoc. simpl. unfold turn_tokens. simpl.
        f_equal. lia. }
      destruct Hstop as [->|(item & rest' & -> & Hgt)]; [now left|].
      right. exists item, rest'. split; [reflexivity|].
      simpl. unfold turn_tokens in *. simpl in *. lia.
Qed.

(** When all the turns fit, the loop takes them all. *)
Lemma history_loop_all items messages tokens_used :
  tokens_used + conversation_tokens items <= MAX_TOKENS ->
  history_loop items messages tokens_used
  = (messages ++ flat_map turn_messages items,
     tokens_used + conversation_tokens items).
Proof.
  intros Hfits.
  destruct (history_loop_stop items messages tokens_used)
    as (kept & rest & Hitems & Hres & [->|(item & rest' & -> & Hgt)]).
  - rewrite app_nil_r in Hitems. subst kept. exact Hres.
  - exfalso. rewrite Hitems in Hfits.
    rewrite conversation_tokens_app in Hfits. simpl in Hfits.
    pose proof (conversation_tokens_nonneg rest'). lia.
Qed.

(** X8.  When the system prompt alone costs more than [MAX_TOKENS], the
    request carries the system prompt and nothing else: no history turn and
    not the new message. *)
Theorem prepare_api_messages_oversized_prompt conversation profile new_message :
  MAX_TOKENS < count_tokens (content (system_prompt profile)) ->
  prepare_api_messages conversation profile new_message = [system_prompt profile].
Proof.
  intros Hbig. rewrite prepare_api_messages_unfold.
  destruct (history_state_spec conversation profile)
    as (kept & rest & _ & -> & _ & Hkept).
  rewrite (Hkept Hbig). cbn [fst snd flat_map conversation_tokens foldr].
  pose proof (count_tokens_nonneg new_message).
  destruct (Z.ltb_spec
              (count_tokens new_message
               + (count_tokens (content (system_prompt profile)) + 0))
              MAX_TOKENS); [lia|reflexivity].
Qed.

(** X9.  The history turns of the request are taken from the oldest of the
    last twenty onwards, and the walk stops for good at the first turn that
    would take the running total past [MAX_TOKENS]: when any of the last
    twenty turns is left out, the most recent ones are. *)
Theorem prepare_api_messages_stops_at_overflow conversation profile :
  exists kept rest,
    recent_turns conversation = kept ++ rest /\
    fst (history_state conversation profile)
    = system_prompt profile :: flat_map turn_messages kept /\
    (rest = [] \/
     exists item rest', rest = item :: rest' /\
       count_tokens (content (system_prompt profile))
       + conversation_tokens kept + turn_tokens item > MAX_TOKENS).
Proof.
  unfold history_state.
  destruct (history_loop_stop (recent_turns conversation) [system_prompt profile]
              (count_tokens (content (system_prompt profile))))
    as (kept & rest & Hitems & -> & Hstop).
  exists kept, rest. repeat split; assumption.
Qed.

Lemma length_turn_messages kept :
  length (flat_map turn_messages kept) = (2 * length kept)%nat.
Proof.
  induction kept as [|item kept IH]; simpl; [reflexivity|].
  rewrite IH. lia.
Qed.

(** The request never carries more than 42 messages: the system
    prompt, at most twenty turns of two messages, and the new message. *)
Theorem prepare_api_messages_length conversation profile new_message :
  (1 <= length (prepare_api_messages conversation profile new_message) <= 42)%nat.
Proof.
  rewrite prepare_api_messages_unfold.
  destruct (recent_turns_split conversation) as (older & _ & Hlen).
  destruct (history_state_spec conversation profile)
    as (kept & rest & Hrecent & -> & _).
  rewrite Hrecent, length_app in Hlen. cbn [fst snd].
  destruct (_ <? _); [rewrite length_app|];
    cbn [length]; rewrite length_turn_messages; lia.
Qed.

(** X10.  In [respond] the history is first trimmed to [MAX_TOKENS // 2];
    when the system prompt costs at most [MAX_TOKENS // 2] as well, every one
    of the last twenty turns of the trimmed history is part of the request. *)
Theorem trimmed_history_is_sent_whole chat_history profile :
  count_tokens (content (system_prompt profile)) <= MAX_TOKENS / 2 ->
  fst (history_state (trim_conversation chat_history (MAX_TOKENS / 2)) profile)
  = system_prompt profile
    :: flat_map turn_messages
         (recent_turns (trim_conversation chat_history (MAX_TOKENS / 2))).
Proof.
  intros Hprompt.
  set (trimmed := trim_conversation chat_history (MAX_TOKENS / 2)).
  assert (Htrimmed : conversation_tokens trimmed <= MAX_TOKENS / 2).
  { destruct (trim_conversation_split chat_history (MAX_TOKENS / 2))
      as (_ & _ & _ & Hfit).
    apply Hfit. unfold MAX_TOKENS. apply Z.div_pos; lia. }
  destruct (recent_turns_split trimmed) as (older & Hsplit & _).
  assert (Hrecent : conversation_tokens (recent_turns trimmed) <= MAX_TOKENS / 2).
  { rewrite Hsplit, conversation_tokens_app in Htrimmed.
    pose proof (conversation_tokens_nonneg older). lia. }
  unfold history_state. rewrite history_loop_all; [reflexivity|].
  assert (MAX_TOKENS / 2 + MAX_TOKENS / 2 <= MAX_TOKENS)
    by (unfold MAX_TOKENS; vm_compute; discriminate).
  lia.
Qed.

End PreparingMore.

(** * Further properties of the stream *)

Lemma bind_lift_return {Y A B} (a : A) (k : A -> gen Y B) w :
  bind (lift (Return a)) k w = k a w.
Proof. unfold bind. cbn [lift ret result yielded final app]. destruct (k a w). reflexivity. Qed.

Lemma bind_lift_raise {Y A B} (e : exn) (k : A -> gen Y B) w :
  bind (lift (Raise e)) k w = Run [] (Raise e) w.
Proof. reflexivity. Qed.

Lemma try_except_returned {Y A} (body : gen Y A) handler w a :
  result (body w) = Return a -> try_except body handler w = body w.
Proof. intros Hbody. unfold try_except. rewrite Hbody. reflexivity. Qed.

Lemma yielded_bind {Y A B} (m : gen Y A) (k : A -> gen Y B) w :
  yielded (bind m k w)
  = yielded (m w) ++ match result (m w) with
                     | Return a => yielded (k a (final (m w)))
                     | Raise _ => []
                     end.
Proof.
  unfold bind. destruct (result (m w)); cbn [yielded]; [reflexivity|].
  rewrite app_nil_r. reflexivity.
Qed.

Lemma harmless_ret {Y A} (a : A) : harmless (@ret Y A a).
Proof. intros w. reflexivity. Qed.

Lemma harmless_lift {Y A} (o : outcome A) : harmless (@lift Y A o).
Proof. intros w. destruct o; reflexivity. Qed.

Lemma harmless_yield {Y} (y : Y) : harmless (yield y).
Proof. intros w. reflexivity. Qed.

Lemma harmless_bind {Y A B} (m : gen Y A) (k : A -> gen Y B) :
  harmless m -> (forall a, harmless (k a)) -> harmless (bind m k).
Proof.
  intros Hm Hk w. unfold bind.
  destruct (result (m w)) as [a|e]; cbn [final]; [|apply Hm].
  rewrite Hm. apply Hk.
Qed.

Lemma harmless_try_except {Y A} (body : gen Y A) handler :
  harmless body ->
  (forall e h, handler e = Some h -> harmless h) ->
  harmless (try_except body handler).
Proof.
  intros Hbody Hhandler w. unfold try_except.
  destruct (result (body w)) as [a|e]; [apply Hbody|].
  destruct (handler e) as [h|] eqn:Hh; [|apply Hbody].
  cbn [final]. rewrite Hbody. apply (Hhandler e h Hh).
Qed.

Lemma harmless_for_each {Y X S} (items : list X) (s : S) (body : S -> X -> gen Y S) :
  (forall s x, harmless (body s x)) -> harmless (for_each items s body).
Proof.
  intros Hbody. revert s.
  induction items as [|x items IH]; intros s; simpl.
  - apply harmless_ret.
  - apply harmless_bind; [apply Hbody|]. intros s'. apply IH.
Qed.

Lemma quiet_harmless {Y A} (g : gen Y A) : harmless g -> quiet g.
Proof. intros Hg w. rewrite Hg. reflexivity. Qed.

Lemma quiet_bind {Y A B} (m : gen Y A) (k : A -> gen Y B) :
  quiet m -> (forall a, quiet (k a)) -> quiet (bind m k).
Proof.
  intros Hm Hk w. unfold bind.
  destruct (result (m w)) as [a|e]; cbn [final]; [|apply Hm].
  rewrite Hk. apply Hm.
Qed.

Lemma quiet_try_except {Y A} (body : gen Y A) handler :
  quiet body ->
  (forall e h, handler e = Some h -> quiet h) ->
  quiet (try_except body handler).
Proof.
  intros Hbody Hhandler w. unfold try_except.
  destruct (result (body w)) as [a|e]; [apply Hbody|].
  destruct (handler e) as [h|] eqn:Hh; [|apply Hbody].
  cbn [final]. rewrite (Hhandler e h Hh). apply Hbody.
Qed.

Lemma quiet_for_each {Y X S} (items : list X) (s : S) (body : S -> X -> gen Y S) :
  (forall s x, quiet (body s x)) -> quiet (for_each items s body).
Proof.
  intros Hbody. revert s.
  induction items as [|x items IH]; intros s; simpl.
  - apply quiet_harmless, harmless_ret.
  - apply quiet_bind; [apply Hbody|]. intros s'. apply IH.
Qed.

Lemma final_bind_return {Y A B} (m : gen Y A) (k : A -> gen Y B) w a :
  result (m w) = Return a ->
  final (bind m k w) = final (k a (final (m w))).
Proof. intros Hm. rewrite (bind_return m k w a Hm). reflexivity. Qed.

Lemma posted_bind_quiet {Y A B} (m : gen Y A) (k : A -> gen Y B) w :
  (forall a, quiet (k a)) ->
  posted (final (bind m k w)) = posted (final (m w)).
Proof.
  intros Hk. unfold bind.
  destruct (result (m w)) as [a|e]; cbn [final]; [apply Hk|reflexivity].
Qed.

Lemma posted_try_except_quiet {Y A} (body : gen Y A) handler w :
  (forall e h, handler e = Some h -> quiet h) ->
  posted (final (try_except body handler w)) = posted (final (body w)).
Proof.
  intros Hhandler. unfold try_except.
  destruct (result (body w)) as [a|e]; [reflexivity|].
  destruct (handler e) as [h|] eqn:Hh; [|reflexivity].
  cbn [final]. apply (Hhandler e h Hh).
Qed.

Lemma quiet_print {Y} text : quiet (@print Y text).
Proof. intros w. reflexivity. Qed.

Lemma quiet_now {Y} : quiet (@now Y).
Proof. intros w. reflexivity. Qed.

Lemma quiet_write_file {Y} path text : quiet (@write_file Y path text).
Proof. intros w. unfold write_file. destruct (unwritable w path); reflexivity. Qed.

Section StreamingMore.
Context `{Externals}.

Lemma contains_dict key d v :
  fields_get key d = Some v -> contains key (JDict d) = Return true.
Proof.
  intros Hget. cbn [contains]. rewrite Hget.
  rewrite bool_decide_eq_true_2 by (eexists; reflexivity). reflexivity.
Qed.

Lemma getitem_dict key d v :
  fields_get key d = Some v -> getitem (JDict d) key = Return v.
Proof. intros Hget. cbn [getitem]. rewrite Hget. reflexivity. Qed.

(** Processing a line never touches the world. *)
Lemma harmless_stream_line line : harmless (stream_line line).
Proof.
  unfold stream_line. destruct (bool_decide (line = [])); [apply harmless_ret|].
  apply harmless_bind; [apply harmless_lift|]. intros text.
  destruct (startswith text _); [|apply harmless_ret].
  destruct (negb _); [|apply harmless_ret].
  apply harmless_try_except.
  - apply harmless_bind; [apply harmless_lift|]. intros chunk.
    apply harmless_bind; [apply harmless_lift|]. intros has.
    apply harmless_bind.
    { destruct has; [apply harmless_lift|apply harmless_ret]. }
    intros choices. destruct (truthy choices); [|apply harmless_ret].
    apply harmless_bind; [apply harmless_lift|]. intros choices'.
    apply harmless_bind; [apply harmless_lift|]. intros first.
    apply harmless_bind; [apply harmless_lift|]. intros delta.
    apply harmless_bind; [apply harmless_lift|]. intros content.
    destruct (truthy content); [apply harmless_yield|apply harmless_ret].
  - intros e h. destruct (isinstance e JSONDecodeError); [|discriminate].
    intros [= <-]. apply harmless_ret.
Qed.

Lemma harmless_lines_loop r : harmless (lines_loop r).
Proof.
  intros w. rewrite lines_loop_unfold. revert w.
  apply harmless_bind.
  - apply harmless_for_each. intros [] line. apply harmless_stream_line.
  - intros s. destruct (broken r); [intros w; reflexivity|apply harmless_ret].
Qed.

Lemma call_deepseek_api_stream_final prompt conversation profile w :
  final (call_deepseek_api_stream prompt conversation profile w)
  = after_post (api_request prompt conversation profile) w.
Proof.
  rewrite call_deepseek_api_stream_cases. cbv zeta.
  destruct (remote w _) as [r|e]; [|reflexivity].
  destruct (status_code r =? 200); [|reflexivity].
  cbn [final]. apply harmless_lines_loop.
Qed.

(** The loop over a stream whose line [line] raises after the lines before
    it were processed normally. *)
Lemma for_each_raises before line after w e :
  result (for_each before tt (fun _ l => stream_line l) w) = Return tt ->
  result (stream_line line w) = Raise e ->
  yielded (for_each (before ++ line :: after) tt (fun _ l => stream_line l) w)
  = yielded (for_each before tt (fun _ l => stream_line l) w)
    ++ yielded (stream_line line w) /\
  result (for_each (before ++ line :: after) tt (fun _ l => stream_line l) w)
  = Raise e.
Proof.
  revert w. induction before as [|l before IH]; intros w Hbefore Hline.
  - cbn [app for_each]. rewrite (bind_raise _ _ _ e Hline). split; reflexivity.
  - cbn [app for_each] in *.
    apply bind_result_inv in Hbefore as ([] & Hl & Hbefore).
    rewrite (bind_return _ _ _ tt Hl). rewrite (bind_return _ _ _ tt Hl).
    rewrite harmless_stream_line in Hbefore |- *.
    destruct (IH w Hbefore Hline) as [Hys Hres].
    cbn [yielded result]. rewrite Hys, Hres, app_assoc. split; reflexivity.
Qed.

(** X12.  A [data:] line whose payload decodes to an object with a non-empty
    list under "choices", whose first element has an object under "delta"
    with a truthy "content", yields exactly that content; further choices
    are not looked at. *)
Theorem content_line_yields_content line text chunk first others delta content w :
  line <> [] ->
  bytes_decode line = Return text ->
  startswith text (u "data:") = true ->
  strip (py_slice text 5 None) <> u "[DONE]" ->
  json_loads (strip (py_slice text 5 None)) = Return (JDict chunk) ->
  fields_get (u "choices") chunk = Some (JList (JDict first :: others)) ->
  fields_get (u "delta") first = Some (JDict delta) ->
  fields_get (u "content") delta = Some content ->
  truthy content = true ->
  stream_line line w = Run [content] (Return tt) w.
Proof.
  intros Hline Hdecode Hdata Hdone Hloads Hchoices Hdelta Hcontent Htruthy.
  unfold stream_line. rewrite bool_decide_eq_false_2 by exact Hline.
  rewrite Hdecode, bind_lift_return, Hdata.
  unfold str_eqb. rewrite bool_decide_eq_false_2 by exact Hdone. cbn [negb].
  assert (Hbody :
    (chunk0 <- lift (json_loads (strip (py_slice text 5 None))) ;;
     has_choices <- lift (contains (u "choices") chunk0) ;;
     choices <- (if has_choices then lift (getitem chunk0 (u "choices"))
                 else ret (JBool false)) ;;
     if truthy choices then
       choices <- lift (getitem chunk0 (u "choices")) ;;
       first <- lift (getitem0 choices) ;;
       delta <- lift (get first (u "delta") (JDict [])) ;;
       content <- lift (get delta (u "content") (JStr [])) ;;
       if truthy content then yield content else ret tt
     else ret tt) w = Run [content] (Return tt) w).
  { rewrite Hloads, bind_lift_return.
    rewrite (contains_dict _ _ _ Hchoices), bind_lift_return.
    rewrite (getitem_dict _ _ _ Hchoices), bind_lift_return.
    cbn [truthy length bool_decide negb].
    rewrite bool_decide_eq_false_2 by discriminate. cbn [negb].
    rewrite bind_lift_return.
    cbn [getitem0]. rewrite bind_lift_return.
    cbn [get]. rewrite Hdelta. cbn [from_option id]. rewrite bind_lift_return.
    cbn [get]. rewrite Hcontent. cbn [from_option id]. rewrite bind_lift_return.
    rewrite Htruthy. reflexivity. }
  rewrite (try_except_returned _ _ _ tt) by (rewrite Hbody; reflexivity).
  exact Hbody.
Qed.

(** X14.  An empty line, and a line that does not start with "data:" (an
    event name, a comment, a keep-alive), is ignored: the stream yields what
    it would yield without that line. *)
Theorem other_lines_are_ignored r before line after text w :
  lines r = before ++ line :: after ->
  line = [] \/
  (bytes_decode line = Return text /\ startswith text (u "data:") = false) ->
  lines_loop r w = lines_loop (with_lines r (before ++ after)) w.
Proof.
  intros Hlines Hother.
  apply (lines_loop_skip r before line after w Hlines).
  intros w'. unfold stream_line.
  destruct Hother as [->|[Hdecode Hdata]]; [reflexivity|].
  destruct (bool_decide (line = [])); [reflexivity|].
  rewrite Hdecode, bind_lift_return, Hdata. reflexivity.
Qed.

(** X15.  With status 200, when the processing of a line raises (bytes that
    are not UTF-8, a chunk of the wrong shape), the stream yields the
    fragments up to that point, then one diagnostic fragment, and ends: the
    lines after it are never processed. *)
Theorem faulty_line_ends_stream prompt conversation profile w r before line after e :
  remote w (api_request prompt conversation profile) = Return r ->
  status_code r = 200 ->
  lines r = before ++ line :: after ->
  let w1 := after_post (api_request prompt conversation profile) w in
  result (for_each before tt (fun _ l => stream_line l) w1) = Return tt ->
  result (stream_line line w1) = Raise e ->
  yielded (call_deepseek_api_stream prompt conversation profile w)
  = yielded (for_each before tt (fun _ l => stream_line l) w1)
    ++ yielded (stream_line line w1) ++ [failure_fragment e].
Proof.
  intros Hremote Hstatus Hlines w1 Hbefore Hline.
  rewrite call_deepseek_api_stream_cases. cbv zeta.
  rewrite Hremote, Hstatus. cbn [Z.eqb Pos.eqb yielded]. fold w1.
  rewrite lines_loop_unfold, Hlines.
  destruct (for_each_raises before line after w1 e Hbefore Hline) as [Hys Hres].
  rewrite (bind_raise _ _ _ e Hres). cbn [yielded result].
  rewrite Hys, <- app_assoc. reflexivity.
Qed.

(** With status 200, when the connection breaks after lines that were
    all processed normally, the stream yields their fragments, then one
    diagnostic fragment for the break, and ends normally. *)
Theorem broken_connection_is_reported prompt conversation profile w r e :
  remote w (api_request prompt conversation profile) = Return r ->
  status_code r = 200 ->
  broken r = Some e ->
  let w1 := after_post (api_request prompt conversation profile) w in
  result (for_each (lines r) tt (fun _ l => stream_line l) w1) = Return tt ->
  yielded (call_deepseek_api_stream prompt conversation profile w)
  = yielded (for_each (lines r) tt (fun _ l => stream_line l) w1)
    ++ [failure_fragment e] /\
  result (call_deepseek_api_stream prompt conversation profile w) = Return tt.
Proof.
  intros Hremote Hstatus Hbroken w1 Hlines.
  rewrite call_deepseek_api_stream_cases. cbv zeta.
  rewrite Hremote, Hstatus. cbn [Z.eqb Pos.eqb yielded result]. fold w1.
  rewrite lines_loop_unfold, Hbroken.
  rewrite (bind_return _ _ _ tt Hlines). cbn [yielded result raise].
  rewrite app_nil_r. split; reflexivity.
Qed.

End StreamingMore.

(** * Further properties of a turn *)

Section RespondingMore.
Context `{Externals}.

Lemma not_blank_strip message :
  Exists (fun c => isspace c = false) message -> strip message <> [].
Proof.
  intros Hmessage Hnil. apply strip_nil_iff in Hnil.
  apply Exists_exists in Hmessage as (c & Hin & Hc).
  rewrite Forall_forall in Hnil. rewrite (Hnil c) in Hc; [discriminate|exact Hin].
Qed.

Lemma respond_not_blank message chat_history profile w :
  strip message <> [] ->
  respond message chat_history profile w
  = try_except (respond_try message chat_history profile)
      (fun e => Some (
         print (u "对话出错: " ++ exn_str e) ;;
         yield (chat_history ++ [(message, u "发生错误: " ++ exn_str e)]))) w.
Proof.
  intros Hstrip. unfold respond.
  rewrite bool_decide_eq_false_2 by exact Hstrip. reflexivity.
Qed.

Lemma harmless_respond_chunk message trimmed bot_message chunk :
  harmless (respond_chunk message trimmed bot_message chunk).
Proof.
  unfold respond_chunk.
  apply harmless_bind; [apply harmless_lift|]. intros bot.
  apply harmless_bind; [apply harmless_yield|]. intros _. apply harmless_ret.
Qed.

Lemma quiet_save_training_data {Y} message profile :
  quiet (@save_training_data _ Y message profile).
Proof.
  apply quiet_try_except.
  - apply quiet_bind; [apply quiet_now|]. intros ts. apply quiet_write_file.
  - intros e h [= <-]. apply quiet_print.
Qed.

Lemma quiet_save_conversation {Y} conversation :
  quiet (@save_conversation _ Y conversation).
Proof.
  unfold save_conversation.
  apply quiet_bind; [apply quiet_now|]. intros ts.
  destruct (_ >? _).
  - apply quiet_for_each. intros [] i. apply quiet_write_file.
  - apply quiet_write_file.
Qed.

(** The conversations the loop of [respond] yields, however it ends. *)
Lemma reply_loop_yields message trimmed chunks bot_message w :
  Forall (fun conversation => exists bot, conversation = trimmed ++ [(message, bot)])
         (yielded (for_each chunks bot_message (respond_chunk message trimmed) w)).
Proof.
  revert bot_message w.
  induction chunks as [|chunk chunks IH]; intros bot_message w; cbn [for_each].
  - constructor.
  - rewrite yielded_bind. apply Forall_app. split.
    + destruct chunk as [| | | |text| |]; try constructor.
      * exists (bot_message ++ text). reflexivity.
      * constructor.
    + destruct (result _); [apply IH|constructor].
Qed.

Lemma respond_try_yields message chat_history profile w :
  Forall (fun conversation =>
            exists bot, conversation
                        = trim_conversation chat_history (MAX_TOKENS / 2)
                          ++ [(message, bot)])
         (yielded (respond_try message chat_history profile w)).
Proof.
  unfold respond_try.
  rewrite yielded_bind, silent_save_training_data, save_training_data_returns.
  cbn [app].
  rewrite yielded_bind. apply Forall_app. split.
  - rewrite for_gen_returned by apply call_deepseek_api_stream_returns.
    apply reply_loop_yields.
  - destruct (result _) as [bot|e]; [|constructor].
    rewrite yielded_bind, silent_save_conversation. cbn [app].
    destruct (result _); [|constructor].
    constructor; [|constructor]. exists bot. reflexivity.
Qed.

(** X16.  [respond] never raises: whatever happens during the turn, its
    generator ends normally. *)
Theorem respond_never_raises message chat_history profile w :
  result (respond message chat_history profile w) = Return tt.
Proof.
  unfold respond. destruct (bool_decide _); [reflexivity|].
  unfold try_except.
  destruct (result (respond_try message chat_history profile w)) as [[]|e] eqn:Hres.
  - exact Hres.
  - reflexivity.
Qed.

(** X17.  When anything raises inside the [try] of a turn (a fragment that
    is not a string, a transcript that cannot be written), [respond] prints
    the error and yields, after what it had yielded so far, the history it
    was given, untrimmed, with one turn appended: the message and the text
    "发生错误: " followed by the error. *)
Theorem respond_error_turn message chat_history profile w e :
  Exists (fun c => isspace c = false) message ->
  result (respond_try message chat_history profile w) = Raise e ->
  yielded (respond message chat_history profile w)
  = yielded (respond_try message chat_history profile w)
    ++ [chat_history ++ [(message, u "发生错误: " ++ exn_str e)]] /\
  stdout (final (respond message chat_history profile w))
  = stdout (final (respond_try message chat_history profile w))
    ++ [u "对话出错: " ++ exn_str e].
Proof.
  intros Hmessage Hres.
  rewrite (respond_not_blank _ _ _ _ (not_blank_strip _ Hmessage)).
  rewrite (try_except_handled _ _ _ e _ Hres eq_refl).
  split; reflexivity.
Qed.

(** X18.  For a message that is not blank, [respond] yields at least one
    conversation, and every conversation it yields ends with a turn whose
    user part is the message, after either the trimmed history or (in the
    error turn) the history as given. *)
Theorem respond_yields_end_with_message message chat_history profile w :
  Exists (fun c => isspace c = false) message ->
  yielded (respond message chat_history profile w) <> [] /\
  Forall (fun conversation =>
            exists prior bot,
              conversation = prior ++ [(message, bot)] /\
              (prior = trim_conversation chat_history (MAX_TOKENS / 2)
               \/ prior = chat_history))
         (yielded (respond message chat_history profile w)).
Proof.
  intros Hmessage.
  rewrite (respond_not_blank _ _ _ _ (not_blank_strip _ Hmessage)).
  assert (Htry : Forall (fun conversation =>
            exists prior bot,
              conversation = prior ++ [(message, bot)] /\
              (prior = trim_conversation chat_history (MAX_TOKENS / 2)
               \/ prior = chat_history))
         (yielded (respond_try message chat_history profile w))).
  { eapply Forall_impl; [apply respond_try_yields|].
    intros conversation [bot ->]. eexists _, bot. split; [reflexivity|now left]. }
  destruct (result (respond_try message chat_history profile w)) as [[]|e] eqn:Hres.
  - rewrite (try_except_returned _ _ _ tt Hres). split; [|exact Htry].
    destruct (respond_try_returns message chat_history profile w Hres)
      as (fragments & _ & ->).
    intros Hnil. apply app_eq_nil in Hnil as [_ Hnil]. discriminate.
  - rewrite (try_except_handled _ _ _ e _ Hres eq_refl). cbn [yielded]. split.
    + intros Hnil. apply app_eq_nil in Hnil as [_ Hnil]. discriminate.
    + apply Forall_app. split; [exact Htry|].
      constructor; [|constructor].
      eexists chat_history, _. split; [reflexivity|now right].
Qed.

Lemma reply_loop_final message trimmed profile w :
  final (for_gen (call_deepseek_api_stream message trimmed profile) []
                 (respond_chunk message trimmed) w)
  = after_post (api_request message trimmed profile) w.
Proof.
  rewrite (for_gen_returned (call_deepseek_api_stream message trimmed profile) []
             (respond_chunk message trimmed) w
             (call_deepseek_api_stream_returns message trimmed profile w)).
  rewrite (harmless_for_each
             (yielded (call_deepseek_api_stream message trimmed profile w)) []
             (respond_chunk message trimmed)
             (fun s x => harmless_respond_chunk message trimmed s x)
             (final (call_deepseek_api_stream message trimmed profile w))).
  apply call_deepseek_api_stream_final.
Qed.

Lemma respond_try_posted message chat_history profile w :
  posted (final (respond_try message chat_history profile w))
  = posted w
    ++ [api_request message (trim_conversation chat_history (MAX_TOKENS / 2))
                    profile].
Proof.
  unfold respond_try.
  rewrite (final_bind_return (save_training_data message profile) _ w tt
             (save_training_data_returns message profile w)).
  rewrite posted_bind_quiet.
  - rewrite reply_loop_final. cbn [after_post posted].
    rewrite (quiet_save_training_data message profile w). reflexivity.
  - intros bot. apply quiet_bind; [apply quiet_save_conversation|].
    intros _. apply quiet_harmless, harmless_yield.
Qed.

End RespondingMore.

(** * Further properties of persistence *)

Section PersistenceMore.
Context `{Externals}.

(** One call of [save_training_data], case by case on whether the snapshot
    file can be written. *)
Lemma save_training_data_run {Y} message profile w :
  @save_training_data _ Y message profile w
  = match unwritable w (snapshot_path (clock w (ticks w))) with
    | None =>
      Run [] (Return tt)
          (World (<[snapshot_path (clock w (ticks w))
                    := snapshot_text (clock w (ticks w)) message profile]> (files w))
                 (unwritable w) (clock w) (S (ticks w)) (remote w) (posted w)
                 (stdout w))
    | Some e =>
      Run [] (Return tt)
          (World (files w) (unwritable w) (clock w) (S (ticks w)) (remote w)
                 (posted w) (stdout w ++ [u "保存训练数据失败: " ++ exn_str e]))
    end.
Proof.
  unfold save_training_data, try_except, bind, now, write_file.
  cbn [result yielded final clock ticks unwritable files remote posted stdout].
  fold (snapshot_path (clock w (ticks w))).
  fold (snapshot_text (clock w (ticks w)) message profile).
  destruct (unwritable w (snapshot_path (clock w (ticks w)))); reflexivity.
Qed.

Lemma snapshot_path_inj t1 t2 : snapshot_path t1 = snapshot_path t2 -> t1 = t2.
Proof.
  unfold snapshot_path. intros Heq.
  apply app_inv_head in Heq. apply app_inv_tail in Heq. exact Heq.
Qed.

(** X21.  [save_training_data] never raises and yields nothing.  When the
    snapshot file can be written it holds the snapshot afterwards and
    nothing is printed; when it cannot, no file changes and the failure is
    printed. *)
Theorem save_training_data_outcome {Y} message profile w :
  let r := @save_training_data _ Y message profile w in
  let timestamp := clock w (ticks w) in
  result r = Return tt /\
  yielded r = [] /\
  match unwritable w (snapshot_path timestamp) with
  | None =>
    files (final r)
    = <[snapshot_path timestamp := snapshot_text timestamp message profile]> (files w) /\
    stdout (final r) = stdout w
  | Some e =>
    files (final r) = files w /\
    stdout (final r) = stdout w ++ [u "保存训练数据失败: " ++ exn_str e]
  end.
Proof.
  cbv zeta. rewrite save_training_data_run.
  destruct (unwritable w (snapshot_path (clock w (ticks w)))); repeat split.
Qed.

(** X22.  Two snapshots taken at different readings of the clock go to two
    different files, and both are there afterwards. *)
Theorem snapshots_at_different_times {Y} message1 profile1 message2 profile2 w :
  let t1 := clock w (ticks w) in
  let t2 := clock w (S (ticks w)) in
  t1 <> t2 ->
  unwritable w (snapshot_path t1) = None ->
  unwritable w (snapshot_path t2) = None ->
  let w1 := final (@save_training_data _ Y message1 profile1 w) in
  let w2 := final (@save_training_data _ Y message2 profile2 w1) in
  files w2 !! snapshot_path t1 = Some (snapshot_text t1 message1 profile1) /\
  files w2 !! snapshot_path t2 = Some (snapshot_text t2 message2 profile2).
Proof.
  intros t1 t2 Hdiff Hw1 Hw2. cbv zeta.
  rewrite (save_training_data_run message1 profile1 w). fold t1. rewrite Hw1.
  cbn [final].
  rewrite save_training_data_run.
  cbn [clock ticks unwritable files]. fold t2. rewrite Hw2. cbn [final files].
  split.
  - rewrite lookup_insert_ne.
    + apply lookup_insert_eq.
    + intros Heq. apply snapshot_path_inj in Heq. congruence.
  - apply lookup_insert_eq.
Qed.

(** X23.  Two snapshots taken within the same second (the clock gives the
    same text twice) go to the same file: the second overwrites the first,
    and the files are as if only the second had been taken. *)
Theorem snapshots_in_the_same_second {Y} message1 profile1 message2 profile2 w :
  let t := clock w (ticks w) in
  clock w (S (ticks w)) = t ->
  unwritable w (snapshot_path t) = None ->
  let w1 := final (@save_training_data _ Y message1 profile1 w) in
  let w2 := final (@save_training_data _ Y message2 profile2 w1) in
  files w2 = <[snapshot_path t := snapshot_text t message2 profile2]> (files w).
Proof.
  intros t Hsame Hw. cbv zeta.
  rewrite (save_training_data_run message1 profile1 w). fold t. rewrite Hw.
  cbn [final].
  rewrite save_training_data_run.
  cbn [clock ticks unwritable files]. rewrite Hsame, Hw. cbn [final files].
  apply insert_insert_eq.
Qed.

Lemma bind_read_file_some {Y B} path text (k : str -> gen Y B) w :
  files w !! path = Some text -> bind (read_file path) k w = k text w.
Proof.
  intros Hfile. unfold bind, read_file. rewrite Hfile.
  cbn [result yielded final app]. destruct (k text w). reflexivity.
Qed.

Lemma load_profile_present text doc v w :
  files w !! u "profile.json" = Some text ->
  json_loads text = Return doc ->
  getitem doc (u "my_profile") = Return v ->
  forall Y, @load_profile _ Y w = Run [] (Return v) w.
Proof.
  intros Hfile Hloads Hget Y. unfold load_profile.
  assert (Hbody :
    (text0 <- read_file (u "profile.json") ;;
     profile <- lift (json_loads text0) ;;
     lift (getitem profile (u "my_profile"))) w = @Run Y _ [] (Return v) w).
  { rewrite (bind_read_file_some _ _ _ _ Hfile).
    rewrite Hloads, bind_lift_return, Hget. reflexivity. }
  rewrite (try_except_returned _ _ _ v) by (rewrite Hbody; reflexivity).
  exact Hbody.
Qed.

(** X24.  When [profile.json] exists and holds a JSON object with the key
    "my_profile", [load_profile] returns the value under that key and
    nothing else happens: nothing is written or printed. *)
Theorem load_profile_reads_existing {Y} text doc v w :
  files w !! u "profile.json" = Some text ->
  json_loads text = Return doc ->
  getitem doc (u "my_profile") = Return v ->
  @load_profile _ Y w = Run [] (Return v) w.
Proof. intros Hfile Hloads Hget. exact (load_profile_present text doc v w Hfile Hloads Hget Y). Qed.

(** X25.  When [profile.json] exists but is not valid JSON, or is valid but
    has no usable "my_profile" (a missing key, a document that is not an
    object), [load_profile] returns [None], prints the error and leaves the
    file as it is. *)
Theorem load_profile_unusable_file {Y} text e w :
  files w !! u "profile.json" = Some text ->
  json_loads text = Raise e \/
  (exists doc, json_loads text = Return doc /\
               getitem doc (u "my_profile") = Raise e) ->
  isinstance e FileNotFoundError = false ->
  let r := @load_profile _ Y w in
  result r = Return JNull /\
  files (final r) = files w /\
  stdout (final r) = stdout w ++ [u "加载配置文件错误: " ++ exn_str e].
Proof.
  intros Hfile Hbad Hclass. cbv zeta. unfold load_profile.
  assert (Hbody :
    (text0 <- read_file (u "profile.json") ;;
     profile <- lift (json_loads text0) ;;
     lift (getitem profile (u "my_profile"))) w = @Run Y _ [] (Raise e) w).
  { rewrite (bind_read_file_some _ _ _ _ Hfile).
    destruct Hbad as [Hloads|(doc & Hloads & Hget)].
    - rewrite Hloads. reflexivity.
    - rewrite Hloads, bind_lift_return, Hget. reflexivity. }
  rewrite (try_except_handled _ _ _ e
             (print (u "加载配置文件错误: " ++ exn_str e) ;; ret JNull));
    [ | rewrite Hbody; reflexivity | rewrite Hclass; reflexivity ].
  rewrite Hbody. repeat split.
Qed.

(** X26.  When [profile.json] is absent and cannot be created, the error of
    the write leaves [load_profile] as an exception: the function neither
    returns the default nor [None]. *)
Theorem load_profile_unwritable_raises {Y} e w :
  files w !! u "profile.json" = None ->
  unwritable w (u "profile.json") = Some e ->
  let r := @load_profile _ Y w in
  result r = Raise e /\
  files (final r) = files w /\
  stdout (final r) = stdout w ++ [u "错误: profile.json 文件未找到"].
Proof.
  intros Habsent Hdenied. cbv zeta.
  unfold load_profile, try_except, bind, read_file.
  rewrite Habsent. cbn [result yielded final].
  change (isinstance _ FileNotFoundError) with true. cbv iota.
  unfold print, write_file. cbn [result yielded final unwritable files].
  rewrite Hdenied. cbn [result yielded final files stdout].
  repeat split.
Qed.

(** X27.  A first run heals itself for the next: after [load_profile] has
    created the default file, a second call reads that file back and returns
    the same default profile, writing and printing nothing, provided
    [json.loads] reads back what [json.dump] wrote. *)
Theorem load_profile_second_run {Y} w :
  files w !! u "profile.json" = None ->
  unwritable w (u "profile.json") = None ->
  json_loads (json_dumps (Some 2%nat) default_profile) = Return default_profile ->
  let w1 := final (@load_profile _ Y w) in
  @load_profile _ Y w1 = Run [] (Return default_my_profile) w1.
Proof.
  intros Habsent Hwritable Hround. cbv zeta.
  apply (load_profile_present (json_dumps (Some 2%nat) default_profile)
           default_profile).
  - unfold load_profile, try_except, bind, read_file.
    rewrite Habsent. cbn [result yielded final].
    change (isinstance _ FileNotFoundError) with true. cbv iota.
    unfold print, write_file. cbn [result yielded final unwritable files].
    rewrite Hwritable. cbn [result yielded final files].
    apply lookup_insert_eq.
  - exact Hround.
  - reflexivity.
Qed.

(** X28.  The program starts the interface only for a truthy profile: when
    [profile.json] parses but the value under "my_profile" is falsy (an
    empty object, null, 0, an empty string or list), the [__main__] block
    treats it as a failure to load, prints so and creates no interface. *)
Theorem main_refuses_falsy_profile {Y} text doc v w :
  files w !! u "profile.json" = Some text ->
  json_loads text = Return doc ->
  getitem doc (u "my_profile") = Return v ->
  truthy v = false ->
  @main _ Y w
  = Run [] (Return None)
        (World (files w) (unwritable w) (clock w) (ticks w) (remote w) (posted w)
               (stdout w ++ [u "无法加载用户配置，请检查profile.json文件"])).
Proof.
  intros Hfile Hloads Hget Hfalsy. unfold main.
  rewrite (bind_return _ _ _ v)
    by (rewrite (load_profile_present text doc v w Hfile Hloads Hget); reflexivity).
  rewrite (load_profile_present text doc v w Hfile Hloads Hget).
  cbn [yielded final]. rewrite Hfalsy. reflexivity.
Qed.

End PersistenceMore.

(** * Further properties of chunks, transcripts and whole turns *)

Section TranscriptsMore.
Context `{Externals}.

(** X13.  A chunk whose first choice carries a "delta" without "content", or
    with a falsy one (the empty string, null), yields nothing: the line is
    passed over and the stream goes on. *)
Theorem contentless_chunk_yields_nothing line text chunk first others delta w :
  line <> [] ->
  bytes_decode line = Return text ->
  startswith text (u "data:") = true ->
  strip (py_slice text 5 None) <> u "[DONE]" ->
  json_loads (strip (py_slice text 5 None)) = Return (JDict chunk) ->
  fields_get (u "choices") chunk = Some (JList (JDict first :: others)) ->
  fields_get (u "delta") first = Some (JDict delta) ->
  fields_get (u "content") delta = None \/
  (exists content, fields_get (u "content") delta = Some content /\
                   truthy content = false) ->
  stream_line line w = Run [] (Return tt) w.
Proof.
  intros Hline Hdecode Hdata Hdone Hloads Hchoices Hdelta Hcontent.
  unfold stream_line. rewrite bool_decide_eq_false_2 by exact Hline.
  rewrite Hdecode, bind_lift_return, Hdata.
  unfold str_eqb. rewrite bool_decide_eq_false_2 by exact Hdone. cbn [negb].
  assert (Hbody :
    (chunk0 <- lift (json_loads (strip (py_slice text 5 None))) ;;
     has_choices <- lift (contains (u "choices") chunk0) ;;
     choices <- (if has_choices then lift (getitem chunk0 (u "choices"))
                 else ret (JBool false)) ;;
     if truthy choices then
       choices <- lift (getitem chunk0 (u "choices")) ;;
       first <- lift (getitem0 choices) ;;
       delta <- lift (get first (u "delta") (JDict [])) ;;
       content <- lift (get delta (u "content") (JStr [])) ;;
       if truthy content then yield content else ret tt
     else ret tt) w = @Run json _ [] (Return tt) w).
  { rewrite Hloads, bind_lift_return.
    rewrite (contains_dict _ _ _ Hchoices), bind_lift_return.
    rewrite (getitem_dict _ _ _ Hchoices), bind_lift_return.
    cbn [truthy length bool_decide negb].
    rewrite bool_decide_eq_false_2 by discriminate. cbn [negb].
    rewrite bind_lift_return.
    cbn [getitem0]. rewrite bind_lift_return.
    cbn [get]. rewrite Hdelta. cbn [from_option id]. rewrite bind_lift_return.
    cbn [get].
    destruct Hcontent as [Hnone|(content & Hsome & Hfalsy)].
    - rewrite Hnone. cbn [from_option]. rewrite bind_lift_return.
      cbn [truthy]. rewrite bool_decide_eq_true_2 by reflexivity. reflexivity.
    - rewrite Hsome. cbn [from_option id]. rewrite bind_lift_return.
      rewrite Hfalsy. reflexivity. }
  rewrite (try_except_returned _ _ _ tt) by (rewrite Hbody; reflexivity).
  exact Hbody.
Qed.

Lemma length_transcript_part text (k : nat) :
  Z.of_nat (length (transcript_part text (Z.of_nat k)))
  = Z.min ((Z.of_nat k + 1) * MAX_CONVERSATION_LENGTH) (Z.of_nat (length text))
    - Z.min (Z.of_nat k * MAX_CONVERSATION_LENGTH) (Z.of_nat (length text)).
Proof.
  unfold transcript_part.
  rewrite (py_slice_chunk text MAX_CONVERSATION_LENGTH) by reflexivity.
  rewrite length_take, length_drop.
  assert (0 < MAX_CONVERSATION_LENGTH) by reflexivity.
  nia.
Qed.

(** The part files of a long transcript, once [save_conversation] has ended
    normally. *)
Lemma save_conversation_long_files {Y} conversation w :
  result (@save_conversation _ Y conversation w) = Return tt ->
  MAX_CONVERSATION_LENGTH < Z.of_nat (length (conversation_text conversation)) ->
  forall i,
    0 <= i < Z.of_nat (length (conversation_text conversation))
             / MAX_CONVERSATION_LENGTH + 1 ->
    files (final (@save_conversation _ Y conversation w))
    !! part_filename (transcript_base w) i
    = Some (transcript_part (conversation_text conversation) i).
Proof.
  intros Hres Hlong i Hi.
  unfold save_conversation in Hres |- *.
  apply bind_result_inv in Hres as (ts & Hnow & Hres).
  rewrite (final_bind_return _ _ _ _ Hnow).
  unfold now in Hnow, Hres |- *. cbn [result final] in Hnow, Hres |- *.
  injection Hnow as <-.
  fold (conversation_text conversation) in Hres |- *.
  fold (transcript_base w) in Hres |- *.
  destruct (Z.gtb_spec (Z.of_nat (length (conversation_text conversation)))
              MAX_CONVERSATION_LENGTH) as [_|Hshort]; [|lia].
  set (count := Z.of_nat (length (conversation_text conversation))
                / MAX_CONVERSATION_LENGTH + 1) in *.
  set (w1 := World _ _ _ _ _ _ _) in *.
  change (for_each (range count) tt _ w1)
    with (for_each (range count) tt
            (fun _ i => @write_file Y (part_filename (transcript_base w) i)
                          (transcript_part (conversation_text conversation) i)) w1)
    in Hres |- *.
  apply write_each_run in Hres. rewrite Hres. cbn [files].
  apply (lookup_foldl_insert (part_filename (transcript_base w))
           (transcript_part (conversation_text conversation)));
    [apply part_filename_inj | apply elem_of_range; exact Hi].
Qed.

(** X29.  Of the part files of a long transcript, every one but the last
    holds exactly [MAX_CONVERSATION_LENGTH] characters and the last holds the
    remainder, [length % MAX_CONVERSATION_LENGTH]: it is empty when the
    length is a multiple of the threshold. *)
Theorem save_conversation_part_sizes {Y} conversation w :
  result (@save_conversation _ Y conversation w) = Return tt ->
  MAX_CONVERSATION_LENGTH < Z.of_nat (length (conversation_text conversation)) ->
  let text := conversation_text conversation in
  let written := files (final (@save_conversation _ Y conversation w)) in
  let last := Z.of_nat (length text) / MAX_CONVERSATION_LENGTH in
  (forall i, 0 <= i < last ->
     exists part, written !! part_filename (transcript_base w) i = Some part /\
                  Z.of_nat (length part) = MAX_CONVERSATION_LENGTH) /\
  (exists part, written !! part_filename (transcript_base w) last = Some part /\
                Z.of_nat (length part)
                = Z.of_nat (length text) mod MAX_CONVERSATION_LENGTH).
Proof.
  intros Hres Hlong text written last.
  assert (HM : 0 < MAX_CONVERSATION_LENGTH) by reflexivity.
  pose proof (Z.div_mod (Z.of_nat (length text)) MAX_CONVERSATION_LENGTH
                ltac:(lia)) as Hdm.
  pose proof (Z.mod_pos_bound (Z.of_nat (length text)) MAX_CONVERSATION_LENGTH HM)
    as Hmod.
  fold last in Hdm.
  assert (Hlast : 0 <= last) by (apply Z.div_pos; lia).
  split.
  - intros i Hi. exists (transcript_part text i). split.
    + apply (save_conversation_long_files conversation w Hres Hlong). fold text last. lia.
    + rewrite <- (Z2Nat.id i) by lia. rewrite length_transcript_part.
      rewrite Z2Nat.id by lia. nia.
  - exists (transcript_part text last). split.
    + apply (save_conversation_long_files conversation w Hres Hlong). fold text last. lia.
    + rewrite <- (Z2Nat.id last) by lia. rewrite length_transcript_part.
      rewrite Z2Nat.id by lia. nia.
Qed.

(** A loop of writes that meets a file it cannot write stops there: the
    files before it are written, the exception leaves the loop. *)
Lemma write_each_fails {Y} (path part : Z -> str) before j after w e :
  (forall i, i ∈ before -> unwritable w (path i) = None) ->
  unwritable w (path j) = Some e ->
  for_each (before ++ j :: after) tt
           (fun _ i => @write_file Y (path i) (part i)) w
  = Run [] (Raise e)
        (World (foldl (fun fs i => <[path i := part i]> fs) (files w) before)
               (unwritable w) (clock w) (ticks w) (remote w) (posted w) (stdout w)).
Proof.
  revert w. induction before as [|i before IH]; intros w Hbefore Hj.
  - cbn [app for_each foldl]. unfold bind, write_file. rewrite Hj.
    cbn [result yielded final]. destruct w. reflexivity.
  - cbn [app for_each foldl].
    assert (Hwrite : @write_file Y (path i) (part i) w
                     = Run [] (Return tt)
                         (World (<[path i := part i]> (files w)) (unwritable w)
                                (clock w) (ticks w) (remote w) (posted w)
                                (stdout w))).
    { unfold write_file. rewrite (Hbefore i) by left. reflexivity. }
    rewrite (bind_return _ _ w tt) by (rewrite Hwrite; reflexivity).
    rewrite Hwrite. cbn [yielded final app].
    rewrite IH.
    + reflexivity.
    + intros i' Hi'. cbn [unwritable]. apply Hbefore. right. exact Hi'.
    + exact Hj.
Qed.

Lemma range_split j n :
  0 <= j < n ->
  exists after, range n = range j ++ j :: after.
Proof.
  intros Hj. unfold range.
  replace (Z.to_nat n) with (Z.to_nat j + S (Z.to_nat n - Z.to_nat j - 1))%nat by lia.
  rewrite seq_app, List.map_app. cbn [seq map Nat.add].
  rewrite Z2Nat.id by lia. eexists. reflexivity.
Qed.

(** X30.  When a part file of a long transcript cannot be written, the part
    files before it stay on disk, nothing is rolled back, and the exception
    leaves [save_conversation]; no other file is touched. *)
Theorem save_conversation_partial_failure {Y} conversation w j e :
  let text := conversation_text conversation in
  let base := u "data/conversations/conversation_" ++ clock w (ticks w) in
  MAX_CONVERSATION_LENGTH < Z.of_nat (length text) ->
  0 <= j < Z.of_nat (length text) / MAX_CONVERSATION_LENGTH + 1 ->
  (forall i, 0 <= i < j -> unwritable w (part_filename base i) = None) ->
  unwritable w (part_filename base j) = Some e ->
  let r := @save_conversation _ Y conversation w in
  result r = Raise e /\
  (forall i, 0 <= i < j ->
     files (final r) !! part_filename base i = Some (transcript_part text i)) /\
  (forall path, (forall i, 0 <= i < j -> path <> part_filename base i) ->
     files (final r) !! path = files w !! path).
Proof.
  intros text base Hlong Hj Hbefore Hfails. cbv zeta.
  unfold save_conversation.
  rewrite (bind_return now _ w (clock w (ticks w))) by reflexivity.
  cbn [now final yielded app].
  fold (conversation_text conversation). fold text base.
  destruct (Z.gtb_spec (Z.of_nat (length text)) MAX_CONVERSATION_LENGTH)
    as [_|Hshort]; [|lia].
  destruct (range_split j _ Hj) as [after Hrange]. rewrite Hrange.
  set (w1 := World _ _ _ _ _ _ _).
  change (for_each (range j ++ j :: after) tt _ w1)
    with (for_each (range j ++ j :: after) tt
            (fun _ i => @write_file Y (part_filename base i)
                                    (transcript_part text i)) w1).
  rewrite (write_each_fails (part_filename base) (transcript_part text)
             (range j) j after w1 e).
  - cbn [result final files]. split; [reflexivity|]. split.
    + intros i Hi.
      apply (lookup_foldl_insert (part_filename base) (transcript_part text));
        [apply part_filename_inj | apply elem_of_range; exact Hi].
    + intros path Hpath.
      apply (lookup_foldl_insert_other (part_filename base) (transcript_part text)).
      intros i Hi Heq. apply elem_of_range in Hi.
      exact (Hpath i Hi (eq_sym Heq)).
  - intros i Hi. apply elem_of_range in Hi. exact (Hbefore i Hi).
  - exact Hfails.
Qed.

(** One call of [save_conversation] for a transcript within the threshold
    that can be written. *)
Lemma save_conversation_short {Y} conversation w :
  Z.of_nat (length (conversation_text conversation)) <= MAX_CONVERSATION_LENGTH ->
  unwritable w (transcript_base w ++ u ".json") = None ->
  @save_conversation _ Y conversation w
  = Run [] (Return tt)
        (World (<[transcript_base w ++ u ".json" := conversation_text conversation]>
                  (files w))
               (unwritable w) (clock w) (S (ticks w)) (remote w) (posted w)
               (stdout w)).
Proof.
  intros Hshort Hwritable. unfold save_conversation.
  rewrite (bind_return now _ w (clock w (ticks w))) by reflexivity.
  cbn [now final yielded app].
  fold (conversation_text conversation). fold (transcript_base w).
  destruct (Z.gtb_spec (Z.of_nat (length (conversation_text conversation)))
              MAX_CONVERSATION_LENGTH) as [Hlong|_]; [lia|].
  unfold write_file. cbn [unwritable files clock ticks remote posted stdout].
  rewrite Hwritable. reflexivity.
Qed.

(** X20.  After a turn that goes well in a world where everything can be
    written, exactly two files have been written: the training snapshot,
    named after the first reading of the clock, and the transcript, named
    after the second, which holds the trimmed history with the new turn and
    its whole reply (here for a transcript within the threshold). *)
Theorem respond_persists_turn message chat_history profile w fragments :
  Exists (fun c => isspace c = false) message ->
  (forall path, unwritable w path = None) ->
  let trimmed := trim_conversation chat_history (MAX_TOKENS / 2) in
  let full := trimmed ++ [(message, concat fragments)] in
  let t1 := clock w (ticks w) in
  let t2 := clock w (S (ticks w)) in
  yielded (call_deepseek_api_stream message trimmed profile
             (final (@save_training_data _ (list turn) message profile w)))
  = map JStr fragments ->
  Z.of_nat (length (conversation_text full)) <= MAX_CONVERSATION_LENGTH ->
  files (final (respond message chat_history profile w))
  = <[u "data/conversations/conversation_" ++ t2 ++ u ".json"
      := conversation_text full]>
      (<[snapshot_path t1 := snapshot_text t1 message profile]> (files w)).
Proof.
  intros Hmessage Hwritable trimmed full t1 t2 Hchunks Hshort.
  set (w0 := final (@save_training_data _ (list turn) message profile w)) in *.
  set (w2 := final (call_deepseek_api_stream message trimmed profile w0)).
  assert (Hw0 : w0 = World (<[snapshot_path t1 := snapshot_text t1 message profile]>
                              (files w))
                           (unwritable w) (clock w) (S (ticks w)) (remote w)
                           (posted w) (stdout w)).
  { subst w0. rewrite save_training_data_run. fold t1.
    rewrite Hwritable. reflexivity. }
  assert (Hw2 : w2 = after_post (api_request message trimmed profile) w0)
    by apply call_deepseek_api_stream_final.
  assert (Hsave : @save_conversation _ (list turn) full w2
                  = Run [] (Return tt)
                      (World (<[transcript_base w2 ++ u ".json"
                                := conversation_text full]> (files w2))
                             (unwritable w2) (clock w2) (S (ticks w2)) (remote w2)
                             (posted w2) (stdout w2))).
  { apply save_conversation_short; [exact Hshort|].
    rewrite Hw2, Hw0. cbn [after_post unwritable]. apply Hwritable. }
  assert (Hres : result (respond_try message chat_history profile w) = Return tt).
  { apply (respond_try_sufficient message chat_history profile w fragments Hchunks).
    fold trimmed w0 w2 full. rewrite Hsave. reflexivity. }
  rewrite (respond_when_try_returns message chat_history profile w
             (not_blank_strip _ Hmessage) Hres).
  unfold respond_try. fold trimmed.
  rewrite (final_bind_return _ _ w tt (save_training_data_returns message profile w)).
  fold w0.
  assert (Hgen : for_gen (call_deepseek_api_stream message trimmed profile) []
                   (respond_chunk message trimmed) w0
                 = Run (map (fun bot => trimmed ++ [(message, bot)])
                            (growing_replies [] fragments))
                       (Return (concat fragments)) w2).
  { rewrite for_gen_returned by apply call_deepseek_api_stream_returns.
    rewrite Hchunks. apply reply_loop_texts. }
  rewrite (final_bind_return _ _ w0 (concat fragments))
    by (rewrite Hgen; reflexivity).
  rewrite Hgen. cbn [final]. fold full.
  rewrite (final_bind_return _ _ w2 tt) by (rewrite Hsave; reflexivity).
  rewrite Hsave. cbn [final yield files].
  unfold transcript_base. rewrite Hw2, Hw0. cbn [after_post files clock ticks].
  fold t2. rewrite <- app_assoc. reflexivity.
Qed.

End TranscriptsMore.

(** * The tokenizer's refusals *)

Section Refusals.
Context `{Externals} `{Tokenizer}.

Lemma and_then_return {A B} (o : outcome A) (k : A -> outcome B) b :
  and_then o k = Return b -> exists a, o = Return a /\ k a = Return b.
Proof.
  destruct o as [a|e]; cbn [and_then]; [|discriminate].
  intros Hk. exists a. split; [reflexivity|exact Hk].
Qed.

Lemma and_then_raise {A B} (o : outcome A) (k : A -> outcome B) e :
  and_then o k = Raise e ->
  o = Raise e \/ exists a, o = Return a /\ k a = Raise e.
Proof.
  destruct o as [a|e']; cbn [and_then].
  - intros Hk. right. exists a. split; [reflexivity|exact Hk].
  - intros [= ->]. left. reflexivity.
Qed.

(** ** What [Strict] returns is what [Program] computes *)

Lemma strict_count_tokens_return text n :
  Strict.count_tokens text = Return n -> n = count_tokens text.
Proof.
  unfold Strict.count_tokens, count_tokens.
  destruct (tiktoken_refuses text); [discriminate|]. intros [= <-]. reflexivity.
Qed.

Lemma strict_count_tokens_raise text e :
  Strict.count_tokens text = Raise e -> tiktoken_refuses text = Some e.
Proof.
  unfold Strict.count_tokens.
  destruct (tiktoken_refuses text); [|discriminate]. intros [= <-]. reflexivity.
Qed.

Lemma strict_trim_loop_return max_tokens items total_tokens trimmed kept :
  Strict.trim_loop max_tokens items total_tokens trimmed = Return kept ->
  kept = trim_loop max_tokens items total_tokens trimmed.
Proof.
  revert total_tokens trimmed.
  induction items as [|[user_msg bot_msg] rest IH]; intros total_tokens trimmed.
  - cbn [Strict.trim_loop trim_loop]. intros [= <-]. reflexivity.
  - cbn [Strict.trim_loop trim_loop]. intros Hrun.
    apply and_then_return in Hrun as (user_tokens & Huser & Hrun).
    apply and_then_return in Hrun as (bot_tokens & Hbot & Hrun).
    apply strict_count_tokens_return in Huser, Hbot. subst user_tokens bot_tokens.
    cbv zeta in Hrun |- *.
    destruct (total_tokens + _ >? max_tokens).
    + injection Hrun as <-. reflexivity.
    + apply IH, Hrun.
Qed.

Lemma strict_trim_loop_raise max_tokens items total_tokens trimmed e :
  Strict.trim_loop max_tokens items total_tokens trimmed = Raise e ->
  exists text, tiktoken_refuses text = Some e.
Proof.
  revert total_tokens trimmed.
  induction items as [|[user_msg bot_msg] rest IH]; intros total_tokens trimmed.
  - discriminate.
  - cbn [Strict.trim_loop]. intros Hrun.
    apply and_then_raise in Hrun as [Huser|(user_tokens & _ & Hrun)];
      [eexists; apply strict_count_tokens_raise, Huser|].
    apply and_then_raise in Hrun as [Hbot|(bot_tokens & _ & Hrun)];
      [eexists; apply strict_count_tokens_raise, Hbot|].
    cbv zeta in Hrun.
    destruct (total_tokens + _ >? max_tokens); [discriminate|].
    apply (IH _ _ Hrun).
Qed.

Lemma strict_trim_conversation_return conversation max_tokens kept :
  Strict.trim_conversation conversation max_tokens = Return kept ->
  kept = trim_conversation conversation max_tokens.
Proof. apply strict_trim_loop_return. Qed.

Lemma strict_history_loop_return items messages tokens_used state :
  Strict.history_loop items messages tokens_used = Return state ->
  state = history_loop items messages tokens_used.
Proof.
  revert messages tokens_used.
  induction items as [|[user_msg bot_msg] rest IH]; intros messages tokens_used.
  - cbn [Strict.history_loop history_loop]. intros [= <-]. reflexivity.
  - cbn [Strict.history_loop history_loop]. intros Hrun.
    apply and_then_return in Hrun as (user_tokens & Huser & Hrun).
    apply and_then_return in Hrun as (bot_tokens & Hbot & Hrun).
    apply strict_count_tokens_return in Huser, Hbot. subst user_tokens bot_tokens.
    cbv zeta in Hrun |- *.
    destruct (tokens_used + _ >? MAX_TOKENS).
    + injection Hrun as <-. reflexivity.
    + apply IH, Hrun.
Qed.

Lemma strict_history_loop_raise items messages tokens_used e :
  Strict.history_loop items messages tokens_used = Raise e ->
  exists text, tiktoken_refuses text = Some e.
Proof.
  revert messages tokens_used.
  induction items as [|[user_msg bot_msg] rest IH]; intros messages tokens_used.
  - discriminate.
  - cbn [Strict.history_loop]. intros Hrun.
    apply and_then_raise in Hrun as [Huser|(user_tokens & _ & Hrun)];
      [eexists; apply strict_count_tokens_raise, Huser|].
    apply and_then_raise in Hrun as [Hbot|(bot_tokens & _ & Hrun)];
      [eexists; apply strict_count_tokens_raise, Hbot|].
    cbv zeta in Hrun.
    destruct (tokens_used + _ >? MAX_TOKENS); [discriminate|].
    apply (IH _ _ Hrun).
Qed.

Lemma strict_prepare_api_messages_return conversation profile new_message ms :
  Strict.prepare_api_messages conversation profile new_message = Return ms ->
  ms = prepare_api_messages conversation profile new_message.
Proof.
  unfold Strict.prepare_api_messages, prepare_api_messages. cbv zeta.
  intros Hrun.
  apply and_then_return in Hrun as (tokens_used & Hprompt & Hrun).
  apply and_then_return in Hrun as ([messages tokens_used'] & Hloop & Hrun).
  apply and_then_return in Hrun as (new_tokens & Hnew & Hrun).
  apply strict_count_tokens_return in Hprompt, Hnew. subst tokens_used new_tokens.
  apply strict_history_loop_return in Hloop. rewrite <- Hloop.
  injection Hrun as <-. reflexivity.
Qed.

Lemma strict_prepare_api_messages_raise conversation profile new_message e :
  Strict.prepare_api_messages conversation profile new_message = Raise e ->
  exists text, tiktoken_refuses text = Some e.
Proof.
  unfold Strict.prepare_api_messages. cbv zeta. intros Hrun.
  apply and_then_raise in Hrun as [Hprompt|(tokens_used & _ & Hrun)];
    [eexists; apply strict_count_tokens_raise, Hprompt|].
  apply and_then_raise in Hrun as [Hloop|([messages tokens_used'] & _ & Hrun)];
    [apply (strict_history_loop_raise _ _ _ _ Hloop)|].
  apply and_then_raise in Hrun as [Hnew|(new_tokens & _ & Hrun)];
    [eexists; apply strict_count_tokens_raise, Hnew|].
  discriminate.
Qed.

Lemma strict_api_request_return prompt conversation profile data :
  Strict.api_request prompt conversation profile = Return data ->
  data = api_request prompt conversation profile.
Proof.
  unfold Strict.api_request, api_request. cbv zeta. intros Hrun.
  apply and_then_return in Hrun as (ms & Hprepare & Hrun).
  apply and_then_return in Hrun as (repr_tokens & Hrepr & Hrun).
  apply strict_prepare_api_messages_return in Hprepare. subst ms.
  apply strict_count_tokens_return in Hrepr. subst repr_tokens.
  injection Hrun as <-. reflexivity.
Qed.

Lemma strict_api_request_raise prompt conversation profile e :
  Strict.api_request prompt conversation profile = Raise e ->
  exists text, tiktoken_refuses text = Some e.
Proof.
  unfold Strict.api_request. intros Hrun.
  apply and_then_raise in Hrun as [Hprepare|(ms & _ & Hrun)];
    [apply (strict_prepare_api_messages_raise _ _ _ _ Hprepare)|].
  apply and_then_raise in Hrun as [Hrepr|(repr_tokens & _ & Hrun)];
    [eexists; apply strict_count_tokens_raise, Hrepr|].
  discriminate.
Qed.

(** Once the request is built, the stream runs as in [Program]. *)
Lemma strict_stream_prepared prompt conversation profile data w :
  Strict.api_request prompt conversation profile = Return data ->
  Strict.call_deepseek_api_stream prompt conversation profile w
  = call_deepseek_api_stream prompt conversation profile w.
Proof.
  intros Hdata. unfold Strict.call_deepseek_api_stream.
  rewrite Hdata, bind_lift_return.
  apply strict_api_request_return in Hdata. subst data. reflexivity.
Qed.

(** A refusal while the request is built leaves the generator at once. *)
Lemma strict_stream_refused prompt conversation profile e w :
  Strict.api_request prompt conversation profile = Raise e ->
  Strict.call_deepseek_api_stream prompt conversation profile w
  = Run [] (Raise e) w.
Proof.
  intros Hdata. unfold Strict.call_deepseek_api_stream.
  rewrite Hdata. apply bind_lift_raise.
Qed.

Lemma for_gen_ext {Y X S} (g g' : gen X unit) (s : S)
    (body : S -> X -> gen Y S) w :
  g w = g' w -> for_gen g s body w = for_gen g' s body w.
Proof. intros Hg. unfold for_gen. rewrite Hg. reflexivity. Qed.

Lemma bind_ext {Y A B} (m : gen Y A) (k k' : A -> gen Y B) w :
  (forall a w', k a w' = k' a w') -> bind m k w = bind m k' w.
Proof.
  intros Hk. unfold bind. destruct (result (m w)); [|reflexivity].
  rewrite Hk. reflexivity.
Qed.

Lemma try_except_ext {Y A} (body body' : gen Y A) handler w :
  body w = body' w -> try_except body handler w = try_except body' handler w.
Proof. intros Hbody. unfold try_except. rewrite Hbody. reflexivity. Qed.

(** ** A tokenizer that accepts every text *)

Section Accepting.
Hypothesis accepts : forall text, tiktoken_refuses text = None.

Lemma strict_count_tokens_accepted text :
  Strict.count_tokens text = Return (count_tokens text).
Proof. unfold Strict.count_tokens. rewrite accepts. reflexivity. Qed.

Lemma strict_trim_loop_accepted max_tokens items total_tokens trimmed :
  Strict.trim_loop max_tokens items total_tokens trimmed
  = Return (trim_loop max_tokens items total_tokens trimmed).
Proof.
  revert total_tokens trimmed.
  induction items as [|[user_msg bot_msg] rest IH]; intros total_tokens trimmed.
  - reflexivity.
  - cbn [Strict.trim_loop trim_loop].
    rewrite !strict_count_tokens_accepted. cbn [and_then]. cbv zeta.
    destruct (total_tokens + _ >? max_tokens); [reflexivity|apply IH].
Qed.

Lemma strict_history_loop_accepted items messages tokens_used :
  Strict.history_loop items messages tokens_used
  = Return (history_loop items messages tokens_used).
Proof.
  revert messages tokens_used.
  induction items as [|[user_msg bot_msg] rest IH]; intros messages tokens_used.
  - reflexivity.
  - cbn [Strict.history_loop history_loop].
    rewrite !strict_count_tokens_accepted. cbn [and_then]. cbv zeta.
    destruct (tokens_used + _ >? MAX_TOKENS); [reflexivity|apply IH].
Qed.

Lemma strict_api_request_accepted prompt conversation profile :
  Strict.api_request prompt conversation profile
  = Return (api_request prompt conversation profile).
Proof.
  unfold Strict.api_request, Strict.prepare_api_messages, api_request,
    prepare_api_messages. cbv zeta.
  rewrite strict_count_tokens_accepted. cbn [and_then].
  rewrite strict_history_loop_accepted. cbn [and_then].
  destruct (history_loop _ _ _) as [messages tokens_used].
  rewrite strict_count_tokens_accepted. cbn [and_then].
  rewrite strict_count_tokens_accepted. cbn [and_then]. reflexivity.
Qed.

(** With a tokenizer that accepts every text, a turn of [Strict] is the
    turn of [Program]. *)
Lemma strict_respond_accepted message chat_history profile w :
  Strict.respond message chat_history profile w
  = respond message chat_history profile w.
Proof.
  unfold Strict.respond, respond.
  destruct (bool_decide (strip message = [])); [reflexivity|].
  apply try_except_ext.
  unfold Strict.respond_try, respond_try.
  apply bind_ext. intros _ w0.
  unfold Strict.trim_conversation. rewrite strict_trim_loop_accepted.
  rewrite bind_lift_return. fold (trim_conversation chat_history (MAX_TOKENS / 2)).
  cbv zeta.
  unfold bind at 1 3.
  rewrite (for_gen_ext _ (call_deepseek_api_stream message
                            (trim_conversation chat_history (MAX_TOKENS / 2))
                            profile)).
  - reflexivity.
  - apply (strict_stream_prepared _ _ _ _ _ (strict_api_request_accepted _ _ _)).
Qed.

End Accepting.

(** C6.  Iterating the stream to its end raises in one case only: the
    tokenizer refuses a text while the request is built, before the [try];
    that exception leaves the generator at once, with no fragment and no
    request.  Once the request is built the stream always ends normally: a
    failure of [requests.post] is yielded as one diagnostic fragment; so is
    a status other than 200; with status 200, an exception that escapes the
    processing of a line (or breaks the connection) ends the stream with one
    diagnostic fragment after the fragments already yielded.  A [data:] line
    whose payload is not valid JSON is skipped without any fragment. *)
Theorem stream_raises_only_before_request prompt conversation profile w :
  let stream := Strict.call_deepseek_api_stream prompt conversation profile w in
  match Strict.api_request prompt conversation profile with
  | Raise e =>
    stream = Run [] (Raise e) w /\
    exists text, tiktoken_refuses text = Some e
  | Return data =>
    result stream = Return tt /\
    match remote w data with
    | Raise e => yielded stream = [failure_fragment e]
    | Return r =>
      if status_code r =? 200 then
        let body := lines_loop r (after_post data w) in
        yielded stream = yielded body ++ match result body with
                                         | Return _ => []
                                         | Raise e => [failure_fragment e]
                                         end
      else yielded stream = [status_fragment (status_code r)]
    end
  end /\
  (forall line text e w',
     bytes_decode line = Return text ->
     startswith text (u "data:") = true ->
     json_loads (strip (py_slice text 5 None)) = Raise e ->
     isinstance e JSONDecodeError = true ->
     stream_line line w' = Run [] (Return tt) w').
Proof.
  cbv zeta. split.
  - destruct (Strict.api_request prompt conversation profile) as [data|e] eqn:Hdata.
    + rewrite (strict_stream_prepared _ _ _ _ w Hdata).
      apply strict_api_request_return in Hdata. subst data.
      rewrite call_deepseek_api_stream_cases. cbv zeta.
      destruct (remote w (api_request prompt conversation profile)) as [r|e];
        [|split; reflexivity].
      destruct (status_code r =? 200); split; reflexivity.
    + split; [apply (strict_stream_refused _ _ _ _ w Hdata)|].
      apply (strict_api_request_raise _ _ _ _ Hdata).
  - intros line text e w'. apply stream_line_skips_malformed.
Qed.

(** X11.  One call of the stream posts at most one request: the request it
    has built, and none when the tokenizer refused a text while it was
    built.  It changes nothing else: no file, no printed line. *)
Theorem stream_posts_at_most_one_request prompt conversation profile w :
  let w' := final (Strict.call_deepseek_api_stream prompt conversation profile w) in
  posted w' = posted w ++ match Strict.api_request prompt conversation profile with
                          | Return data => [data]
                          | Raise _ => []
                          end /\
  files w' = files w /\
  stdout w' = stdout w.
Proof.
  cbv zeta.
  destruct (Strict.api_request prompt conversation profile) as [data|e] eqn:Hdata.
  - rewrite (strict_stream_prepared _ _ _ _ w Hdata).
    apply strict_api_request_return in Hdata. subst data.
    rewrite call_deepseek_api_stream_final. repeat split.
  - rewrite (strict_stream_refused _ _ _ _ w Hdata). cbn [final].
    rewrite app_nil_r. repeat split.
Qed.

Lemma strict_reply_loop_posted message trimmed profile w :
  posted (final (for_gen (Strict.call_deepseek_api_stream message trimmed profile)
                         [] (respond_chunk message trimmed) w))
  = posted w ++ match Strict.api_request message trimmed profile with
                | Return data => [data]
                | Raise _ => []
                end.
Proof.
  destruct (Strict.api_request message trimmed profile) as [data|e] eqn:Hdata.
  - rewrite (for_gen_ext _ (call_deepseek_api_stream message trimmed profile))
      by apply (strict_stream_prepared _ _ _ _ w Hdata).
    apply strict_api_request_return in Hdata. subst data.
    rewrite reply_loop_final. reflexivity.
  - unfold for_gen. rewrite (strict_stream_refused _ _ _ _ w Hdata).
    cbn [yielded result final for_each]. rewrite app_nil_r. reflexivity.
Qed.

(** X19.  A turn with a message that is not blank posts at most one
    request: the one built from the trimmed history, whether the turn then
    ends well or in the error turn, and none when the tokenizer refused a
    text while the history was trimmed or the request was built. *)
Theorem respond_posts_at_most_one_request message chat_history profile w :
  Exists (fun c => isspace c = false) message ->
  posted (final (Strict.respond message chat_history profile w))
  = posted w
    ++ match Strict.trim_conversation chat_history (MAX_TOKENS / 2) with
       | Return trimmed =>
         match Strict.api_request message trimmed profile with
         | Return data => [data]
         | Raise _ => []
         end
       | Raise _ => []
       end.
Proof.
  intros Hmessage. unfold Strict.respond.
  rewrite bool_decide_eq_false_2 by apply (not_blank_strip _ Hmessage).
  rewrite posted_try_except_quiet.
  2: { intros e h [= <-]. apply quiet_bind; [apply quiet_print|].
       intros _. apply quiet_harmless, harmless_yield. }
  unfold Strict.respond_try.
  rewrite (final_bind_return (save_training_data message profile) _ w tt
             (save_training_data_returns message profile w)).
  set (w0 := final (save_training_data message profile w)).
  assert (Hw0 : posted w0 = posted w) by apply quiet_save_training_data.
  rewrite <- Hw0.
  destruct (Strict.trim_conversation chat_history (MAX_TOKENS / 2))
    as [trimmed|e].
  - rewrite bind_lift_return. cbv zeta.
    rewrite posted_bind_quiet.
    + apply strict_reply_loop_posted.
    + intros bot. apply quiet_bind; [apply quiet_save_conversation|].
      intros _. apply quiet_harmless, harmless_yield.
  - rewrite bind_lift_raise. cbn [final]. rewrite app_nil_r. reflexivity.
Qed.

End Refusals.

(** * The further properties at instances *)

#[local] Existing Instance Demo.externals.
#[local] Existing Instance Demo.tokenizer.

(** X4 at an instance: [Sample.history] costs twelve tokens and comes back
    whole under a budget of twelve. *)
Lemma trim_conversation_within_budget_witness :
  conversation_tokens Sample.history <= 12 /\
  trim_conversation Sample.history 12 = Sample.history.
Proof.
  assert (Hfits : conversation_tokens Sample.history <= 12)
    by (vm_compute; discriminate).
  split; [exact Hfits|].
  apply (trim_conversation_within_budget Sample.history 12 Hfits).
Defined.

(** X5 at an instance: a budget of -1. *)
Lemma trim_conversation_negative_budget_witness :
  -1 < 0 /\ trim_conversation Sample.history (-1) = [].
Proof.
  split; [lia|].
  apply (trim_conversation_negative_budget Sample.history (-1)). lia.
Defined.

(** X7 at an instance: budgets of ten and of twelve tokens. *)
Lemma trim_conversation_monotone_witness :
  10 <= 12 /\
  trim_conversation Sample.history 10 `suffix_of` trim_conversation Sample.history 12.
Proof.
  split; [lia|].
  apply (trim_conversation_monotone Sample.history 10 12). lia.
Defined.

(** X8 at an instance: the system prompt of [Sample.crowded_profile] costs
    more than [MAX_TOKENS]. *)
Lemma prepare_api_messages_oversized_prompt_witness :
  MAX_TOKENS < count_tokens (content (system_prompt Sample.crowded_profile)) /\
  prepare_api_messages Sample.history Sample.crowded_profile (u "hi")
  = [system_prompt Sample.crowded_profile].
Proof.
  assert (Hprompt : MAX_TOKENS
                    < count_tokens (content (system_prompt Sample.crowded_profile)))
    by (vm_compute; reflexivity).
  split; [exact Hprompt|].
  apply (prepare_api_messages_oversized_prompt Sample.history
           Sample.crowded_profile (u "hi") Hprompt).
Defined.

(** X10 at an instance: the system prompt of [Sample.profile] costs 66
    tokens. *)
Lemma trimmed_history_is_sent_whole_witness :
  count_tokens (content (system_prompt Sample.profile)) <= MAX_TOKENS / 2 /\
  fst (history_state (trim_conversation Sample.history (MAX_TOKENS / 2))
         Sample.profile)
  = system_prompt Sample.profile
    :: flat_map turn_messages
         (recent_turns (trim_conversation Sample.history (MAX_TOKENS / 2))).
Proof.
  assert (Hprompt : count_tokens (content (system_prompt Sample.profile))
                    <= MAX_TOKENS / 2) by (vm_compute; discriminate).
  split; [exact Hprompt|].
  apply (trimmed_history_is_sent_whole Sample.history Sample.profile Hprompt).
Defined.

(** X12 at an instance: the line [data: {"choices": [{"delta": {"content":
    "Hel"}}]}]. *)
Lemma content_line_yields_content_witness :
  stream_line (Sample.data_line (Sample.content_chunk (u "Hel")))
    Sample.failing_endpoint
  = Run [JStr (u "Hel")] (Return tt) Sample.failing_endpoint.
Proof.
  apply (content_line_yields_content
           (Sample.data_line (Sample.content_chunk (u "Hel")))
           (Sample.data_line (Sample.content_chunk (u "Hel")))
           [(u "choices",
             JList [JDict [(u "delta", JDict [(u "content", JStr (u "Hel"))])]])]
           [(u "delta", JDict [(u "content", JStr (u "Hel"))])]
           []
           [(u "content", JStr (u "Hel"))]
           (JStr (u "Hel")));
    vm_compute; first [reflexivity | discriminate].
Defined.

(** X13 at an instance: the line [data: {"choices": [{"delta": {"role":
    "assistant"}}]}]. *)
Lemma contentless_chunk_yields_nothing_witness :
  stream_line (Sample.data_line Sample.role_chunk) Sample.failing_endpoint
  = Run [] (Return tt) Sample.failing_endpoint.
Proof.
  apply (contentless_chunk_yields_nothing
           (Sample.data_line Sample.role_chunk)
           (Sample.data_line Sample.role_chunk)
           [(u "choices",
             JList [JDict [(u "delta", JDict [(u "role", JStr (u "assistant"))])]])]
           [(u "delta", JDict [(u "role", JStr (u "assistant"))])]
           []
           [(u "role", JStr (u "assistant"))]);
    try (vm_compute; first [reflexivity | discriminate]).
  left. vm_compute. reflexivity.
Defined.

(** X14 at an instance: the comment line of [Sample.dropped_endpoint];
    without it the stream is the same. *)
Lemma other_lines_are_ignored_witness :
  lines_loop Sample.dropped_endpoint Sample.failing_endpoint
  = lines_loop
      (with_lines Sample.dropped_endpoint
         ([Sample.data_line (Sample.content_chunk (u "Hel"))] ++ [[]]))
      Sample.failing_endpoint.
Proof.
  apply (other_lines_are_ignored Sample.dropped_endpoint
           [Sample.data_line (Sample.content_chunk (u "Hel"))]
           (u ": keep-alive") [[]] (u ": keep-alive")).
  - reflexivity.
  - right. split; vm_compute; reflexivity.
Defined.

(** X15 at an instance: the second line of [Sample.faulty_endpoint] carries
    the number 5; the stream yields the first fragment and the failure, and
    never the fragment of the third line. *)
Lemma faulty_line_ends_stream_witness :
  yielded (call_deepseek_api_stream (u "hi") [] Sample.profile
             (Sample.answers (Return Sample.faulty_endpoint)))
  = [JStr (u "Hel");
     JStr (u "[连接错误] argument of type 'int' is not iterable")].
Proof.
  refine (eq_trans
            (faulty_line_ends_stream (u "hi") [] Sample.profile
               (Sample.answers (Return Sample.faulty_endpoint))
               Sample.faulty_endpoint
               [Sample.data_line (Sample.content_chunk (u "Hel"))]
               (Sample.data_line (u "5"))
               [Sample.data_line (Sample.content_chunk (u "lo"))]
               (Exn TypeError (u "argument of type 'int' is not iterable"))
               eq_refl eq_refl eq_refl _ _) _);
    vm_compute; reflexivity.
Defined.

(** X17 at an instance: the transcript cannot be written. *)
Lemma respond_error_turn_witness :
  yielded (respond (u "hi") Sample.history Sample.profile
             Sample.read_only_transcripts)
  = yielded (respond_try (u "hi") Sample.history Sample.profile
               Sample.read_only_transcripts)
    ++ [Sample.history
        ++ [(u "hi", u "发生错误: [Errno 30] Read-only file system")]] /\
  stdout (final (respond (u "hi") Sample.history Sample.profile
                   Sample.read_only_transcripts))
  = stdout (final (respond_try (u "hi") Sample.history Sample.profile
                     Sample.read_only_transcripts))
    ++ [u "对话出错: [Errno 30] Read-only file system"].
Proof.
  apply (respond_error_turn (u "hi") Sample.history Sample.profile
           Sample.read_only_transcripts
           (Exn OSError (u "[Errno 30] Read-only file system"))).
  - left. reflexivity.
  - vm_compute. reflexivity.
Defined.

(** X18 at an instance: the message "hi". *)
Lemma respond_yields_end_with_message_witness :
  yielded (respond (u "hi") Sample.history Sample.profile
             Sample.streaming_endpoint) <> [] /\
  Forall (fun conversation =>
            exists prior bot,
              conversation = prior ++ [(u "hi", bot)] /\
              (prior = trim_conversation Sample.history (MAX_TOKENS / 2)
               \/ prior = Sample.history))
         (yielded (respond (u "hi") Sample.history Sample.profile
                     Sample.streaming_endpoint)).
Proof.
  apply (respond_yields_end_with_message (u "hi") Sample.history Sample.profile
           Sample.streaming_endpoint).
  left. reflexivity.
Defined.

(** X20 at an instance: the message "hi" and an endpoint that streams "Hel"
    and "lo"; the snapshot is named after 12:00:00 and the transcript after
    12:00:01. *)
Lemma respond_persists_turn_witness :
  files (final (respond (u "hi") Sample.history Sample.profile
                  Sample.streaming_endpoint))
  = <[u "data/conversations/conversation_20240101_120001.json"
      := conversation_text (Sample.history ++ [(u "hi", u "Hello")])]>
      (<[u "data/training_data/training_20240101_120000.json"
         := snapshot_text (u "20240101_120000") (u "hi") Sample.profile]> ∅).
Proof.
  refine (eq_trans
            (respond_persists_turn (u "hi") Sample.history Sample.profile
               Sample.streaming_endpoint [u "Hel"; u "lo"] _ _ _ _) _).
  - left. reflexivity.
  - intros path. reflexivity.
  - vm_compute. reflexivity.
  - vm_compute. discriminate.
  - cbv zeta. repeat f_equal; vm_compute; reflexivity.
Defined.

(** X22 at an instance: the clock of [Sample.failing_endpoint] reads
    12:00:00 and then 12:00:01. *)
Lemma snapshots_at_different_times_witness :
  let w2 := final (@save_training_data _ unit (u "second") Sample.profile
                     (final (@save_training_data _ unit (u "first")
                               Sample.crowded_profile Sample.failing_endpoint))) in
  files w2 !! snapshot_path (u "20240101_120000")
  = Some (snapshot_text (u "20240101_120000") (u "first") Sample.crowded_profile) /\
  files w2 !! snapshot_path (u "20240101_120001")
  = Some (snapshot_text (u "20240101_120001") (u "second") Sample.profile).
Proof.
  apply (@snapshots_at_different_times _ unit (u "first") Sample.crowded_profile
           (u "second") Sample.profile Sample.failing_endpoint).
  - vm_compute. discriminate.
  - reflexivity.
  - reflexivity.
Defined.

(** X23 at an instance: the clock of [Sample.same_second] reads 12:00:00
    both times; only the second snapshot is left. *)
Lemma snapshots_in_the_same_second_witness :
  files (final (@save_training_data _ unit (u "second") Sample.profile
                  (final (@save_training_data _ unit (u "first")
                            Sample.crowded_profile Sample.same_second))))
  = <[snapshot_path (u "20240101_120000")
      := snapshot_text (u "20240101_120000") (u "second") Sample.profile]> ∅.
Proof.
  apply (@snapshots_in_the_same_second _ unit (u "first") Sample.crowded_profile
           (u "second") Sample.profile Sample.same_second).
  - reflexivity.
  - reflexivity.
Defined.

(** X24 at an instance: a [profile.json] that holds [Sample.profile]. *)
Lemma load_profile_reads_existing_witness :
  @load_profile _ unit
    (Sample.with_profile_file (Demo.dumps (Some 2%nat) Sample.profile_document))
  = Run [] (Return (profile_json Sample.profile))
        (Sample.with_profile_file (Demo.dumps (Some 2%nat) Sample.profile_document)).
Proof.
  apply (@load_profile_reads_existing _ unit
           (Demo.dumps (Some 2%nat) Sample.profile_document)
           Sample.profile_document).
  - apply lookup_insert_eq.
  - vm_compute. reflexivity.
  - vm_compute. reflexivity.
Defined.

(** X25 at an instance: a [profile.json] that holds [{}], without the key
    "my_profile". *)
Lemma load_profile_unusable_file_witness :
  let r := @load_profile _ unit (Sample.with_profile_file (u "{}")) in
  result r = Return JNull /\
  files (final r) = files (Sample.with_profile_file (u "{}")) /\
  stdout (final r) = [u "加载配置文件错误: 'my_profile'"].
Proof.
  apply (@load_profile_unusable_file _ unit (u "{}")
           (Exn KeyError (u "'my_profile'")) (Sample.with_profile_file (u "{}"))).
  - apply lookup_insert_eq.
  - right. exists (JDict []). split; vm_compute; reflexivity.
  - reflexivity.
Defined.

(** X26 at an instance: no [profile.json], and nothing can be written. *)
Lemma load_profile_unwritable_raises_witness :
  let r := @load_profile _ unit Sample.read_only in
  result r = Raise (Exn OSError (u "[Errno 30] Read-only file system")) /\
  files (final r) = files Sample.read_only /\
  stdout (final r) = [u "错误: profile.json 文件未找到"].
Proof.
  apply (@load_profile_unwritable_raises _ unit
           (Exn OSError (u "[Errno 30] Read-only file system")) Sample.read_only).
  - apply lookup_empty.
  - reflexivity.
Defined.

(** X27 at an instance: a world without [profile.json]. *)
Lemma load_profile_second_run_witness :
  let w1 := final (@load_profile _ unit Sample.failing_endpoint) in
  @load_profile _ unit w1 = Run [] (Return default_my_profile) w1.
Proof.
  apply (@load_profile_second_run _ unit Sample.failing_endpoint).
  - apply lookup_empty.
  - reflexivity.
  - vm_compute. reflexivity.
Defined.

(** X28 at an instance: a [profile.json] that holds [{"my_profile": {}}]. *)
Lemma main_refuses_falsy_profile_witness :
  result (@main _ unit
            (Sample.with_profile_file
               (Demo.dumps (Some 2%nat) Sample.empty_profile_document)))
  = Return None.
Proof.
  rewrite (@main_refuses_falsy_profile _ unit
             (Demo.dumps (Some 2%nat) Sample.empty_profile_document)
             Sample.empty_profile_document (JDict [])).
  - reflexivity.
  - apply lookup_insert_eq.
  - vm_compute. reflexivity.
  - vm_compute. reflexivity.
  - vm_compute. reflexivity.
Defined.

(** X29 at an instance: a serialization of exactly 20000 characters is
    saved as three part files, of 10000, 10000 and 0 characters. *)
Lemma save_conversation_part_sizes_witness :
  Z.of_nat (length (conversation_text Sample.conversation_20000)) = 20000 /\
  let written := files (final (@save_conversation _ unit Sample.conversation_20000
                                 Sample.failing_endpoint)) in
  (forall i, 0 <= i < 2 ->
     exists part,
       written !! part_filename (transcript_base Sample.failing_endpoint) i
       = Some part /\
       Z.of_nat (length part) = 10000) /\
  (exists part,
     written !! part_filename (transcript_base Sample.failing_endpoint) 2
     = Some part /\
     Z.of_nat (length part) = 0).
Proof.
  assert (Hlen : Z.of_nat (length (conversation_text Sample.conversation_20000))
                 = 20000) by (vm_compute; reflexivity).
  split; [exact Hlen|].
  assert (Hres : result (@save_conversation _ unit Sample.conversation_20000
                           Sample.failing_endpoint) = Return tt)
    by (vm_compute; reflexivity).
  assert (Hlong : MAX_CONVERSATION_LENGTH
                  < Z.of_nat (length (conversation_text Sample.conversation_20000)))
    by (rewrite Hlen; reflexivity).
  pose proof (@save_conversation_part_sizes _ unit Sample.conversation_20000
                Sample.failing_endpoint Hres Hlong) as Hsizes.
  cbv zeta in Hsizes. rewrite Hlen in Hsizes. exact Hsizes.
Defined.

(** X30 at an instance: a transcript of three parts in a world where the
    second cannot be written; the first part stays on disk. *)
Lemma save_conversation_partial_failure_witness :
  let text := conversation_text Sample.long_conversation in
  let base := u "data/conversations/conversation_20240101_120000" in
  let r := @save_conversation _ unit Sample.long_conversation
             Sample.second_part_fails in
  result r = Raise (Exn OSError (u "[Errno 28] No space left on device")) /\
  files (final r) !! part_filename base 0 = Some (transcript_part text 0) /\
  files (final r) !! part_filename base 1 = None.
Proof.
  pose proof (@save_conversation_partial_failure _ unit Sample.long_conversation
                Sample.second_part_fails 1
                (Exn OSError (u "[Errno 28] No space left on device")))
    as Hfails.
  cbv zeta in Hfails.
  destruct Hfails as (Hres & Hkept & Hother).
  - vm_compute. reflexivity.
  - vm_compute. split; [discriminate | reflexivity].
  - intros i Hi. assert (i = 0) as -> by lia. vm_compute. reflexivity.
  - vm_compute. reflexivity.
  - cbv zeta. split; [exact Hres|]. split.
    + apply (Hkept 0). lia.
    + rewrite Hother; [apply lookup_empty|].
      intros i Hi. assert (i = 0) as -> by lia. vm_compute. discriminate.
Defined.

(** C6 as stated fails twice over.  The stream can raise: for a prompt that
    holds [<|endoftext|>] the tokenizer refuses the prompt while the request
    is built, before the [try], and the [ValueError] leaves the generator,
    with no fragment and no request posted.  And not every failure is
    reported as a fragment: the endpoint of [Sample.garbled_endpoint]
    answers 200 with the single line [data: {], whose payload [json.loads]
    rejects, and the stream ends normally without any fragment. *)
Lemma stream_failures_out_of_band :
  (Strict.call_deepseek_api_stream Sample.refused_prompt [] Sample.profile
     Sample.streaming_endpoint
   = Run [] (Raise (Exn ValueError
                      (u "Encountered text corresponding to disallowed special token '<|endoftext|>'.")))
         Sample.streaming_endpoint) /\
  Demo.loads (strip (py_slice (Sample.data_line (u "{")) 5 None))
  = Raise (Exn JSONDecodeError (u "Expecting value")) /\
  result (Strict.call_deepseek_api_stream (u "hi") [] Sample.profile
            Sample.garbled_endpoint) = Return tt /\
  ~ exists fragment,
      In fragment (yielded (Strict.call_deepseek_api_stream (u "hi") []
                              Sample.profile Sample.garbled_endpoint)).
Proof.
  split; [vm_compute; reflexivity|].
  split; [vm_compute; reflexivity|].
  split; [vm_compute; reflexivity|].
  assert (Hnone : yielded (Strict.call_deepseek_api_stream (u "hi") []
                             Sample.profile Sample.garbled_endpoint) = [])
    by (vm_compute; reflexivity).
  rewrite Hnone. intros [fragment []].
Qed.

(** X19 at an instance: a turn whose message the tokenizer refuses posts no
    request. *)
Lemma respond_posts_at_most_one_request_witness :
  Exists (fun c => isspace c = false) Sample.refused_prompt /\
  posted (final (Strict.respond Sample.refused_prompt Sample.history
                   Sample.profile Sample.streaming_endpoint)) = [].
Proof.
  assert (Hmessage : Exists (fun c => isspace c = false) Sample.refused_prompt)
    by (left; reflexivity).
  split; [exact Hmessage|].
  refine (eq_trans
            (respond_posts_at_most_one_request Sample.refused_prompt
               Sample.history Sample.profile Sample.streaming_endpoint
               Hmessage) _).
  vm_compute. reflexivity.
Defined.

(** What a turn yields for that message: the error turn alone. *)
Example respond_refused_prompt_example :
  yielded (Strict.respond Sample.refused_prompt Sample.history Sample.profile
             Sample.streaming_endpoint)
  = [Sample.history
     ++ [(Sample.refused_prompt,
          u "发生错误: Encountered text corresponding to disallowed special token '<|endoftext|>'.")]].
Proof. vm_compute. reflexivity. Qed.
